(** * Secret lifecycle engine of the credential management system

    A shallow embedding of [services/secrets-service/main.py]: the Fernet
    wrappers, the tag decoder, the handlers that create, read, update,
    soft-delete and rotate a secret over the [secrets] and [secret_versions]
    tables, and the audit emitter, followed by the properties of the
    specification that concern them. *)

From Stdlib Require Import ZArith NArith Ascii String List Bool Lia.
From Stdlib.Strings Require Import Byte.
From Stdlib Require Import DecimalString.
From stdpp Require Import base option list gmap strings sorting.

Import ListNotations.
#[local] Set Warnings "-register-all".
#[local] Open Scope string_scope.
#[local] Open Scope list_scope.

(** ** Python values, exceptions and results *)

(** The dynamically typed values that can sit in the [tags] column or come
    out of [json.loads].  A float keeps the text of its literal. *)
Inductive pyval : Type :=
| PyNone
| PyBool (b : bool)
| PyInt (z : Z)
| PyFloat (literal : string)
| PyStr (s : string)
| PyList (items : list pyval)
| PyTuple (items : list pyval)
| PyDict (members : list (string * pyval)).

(** Exceptions other than [HTTPException] that the handlers can let escape;
    FastAPI answers them with a 500. *)
Inductive exn : Type :=
| UnicodeDecodeError
| UnicodeEncodeError
| InvalidToken
| UniqueViolation
| ConnectionError
| Timeout
| JSONDecodeError
| TypeError
| OtherError (what : string).

(** Outcome of a handler: a value, an [HTTPException(status_code, detail)],
    or an exception nobody caught. *)
Inductive result (A : Type) : Type :=
| Ok (a : A)
| HTTPException (status_code : Z) (detail : string)
| Raised (e : exn).
Arguments Ok {A} a.
Arguments HTTPException {A} status_code detail.
Arguments Raised {A} e.

Definition NotFoundError {A} : result A := HTTPException 404 "Secret not found".
Definition ForbiddenError {A} : result A :=
  HTTPException 403 "Users cannot create secrets. Contact your administrator.".

Definition is_ok {A} (r : result A) : bool :=
  match r with Ok _ => true | _ => false end.

(** ** Text and bytes

    A Python [str] is modelled by the [string] of its UTF-8 bytes, a lone
    surrogate by its three-byte form, and [bytes] by [list byte].
    [str.encode()] gives the underlying bytes when they are well-formed
    UTF-8 and [bytes.decode()] succeeds on well-formed UTF-8 only. *)

Definition bytes := list byte.

Definition is_cont (b : N) : bool := ((128 <=? b) && (b <=? 191))%N.
Definition in_range (lo hi b : N) : bool := ((lo <=? b) && (b <=? hi))%N.
Definition cont_bits (b : N) : N := (b - 128)%N.

(** Strict UTF-8 decoding to code points (no overlong forms, no surrogates,
    nothing above U+10FFFF), as CPython's decoder does. *)
Fixpoint utf8_decode (bs : list N) : option (list N) :=
  match bs with
  | [] => Some []
  | b0 :: r0 =>
    if (b0 <? 128)%N then cons b0 <$> utf8_decode r0
    else if in_range 194 223 b0 then
      match r0 with
      | b1 :: r1 =>
        if is_cont b1
        then cons ((b0 - 192) * 64 + cont_bits b1)%N <$> utf8_decode r1
        else None
      | _ => None
      end
    else if in_range 224 239 b0 then
      match r0 with
      | b1 :: b2 :: r2 =>
        if in_range (if (b0 =? 224)%N then 160 else 128)
                    (if (b0 =? 237)%N then 159 else 191) b1 && is_cont b2
        then cons ((b0 - 224) * 4096 + cont_bits b1 * 64 + cont_bits b2)%N
               <$> utf8_decode r2
        else None
      | _ => None
      end
    else if in_range 240 244 b0 then
      match r0 with
      | b1 :: b2 :: b3 :: r3 =>
        if in_range (if (b0 =? 240)%N then 144 else 128)
                    (if (b0 =? 244)%N then 143 else 191) b1
           && is_cont b2 && is_cont b3
        then cons ((b0 - 240) * 262144 + cont_bits b1 * 4096
                   + cont_bits b2 * 64 + cont_bits b3)%N <$> utf8_decode r3
        else None
      | _ => None
      end
    else None
  end.

(** UTF-8 bytes of one code point; a lone surrogate, which a Python [str]
    can hold, gets the three-byte form of its value. *)
Definition utf8_encode (cp : N) : list N :=
  if (cp <? 128)%N then [cp]
  else if (cp <? 2048)%N then [192 + cp / 64; 128 + cp mod 64]%N
  else if (cp <? 65536)%N then
    [224 + cp / 4096; 128 + (cp / 64) mod 64; 128 + cp mod 64]%N
  else [240 + cp / 262144; 128 + (cp / 4096) mod 64;
        128 + (cp / 64) mod 64; 128 + cp mod 64]%N.

Definition utf8_valid (bs : bytes) : bool :=
  bool_decide (is_Some (utf8_decode (map Byte.to_N bs))).

(** The bytes that hold a text. *)
Definition utf8_bytes (s : string) : bytes := list_byte_of_string s.

(** [value.encode()]: the UTF-8 bytes of the text.  A text with a lone
    surrogate, which a JSON body can carry and which is held here in its
    three-byte form, has no UTF-8 encoding: Python raises
    [UnicodeEncodeError]. *)
Definition str_encode (s : string) : result bytes :=
  if utf8_valid (utf8_bytes s) then Ok (utf8_bytes s)
  else Raised UnicodeEncodeError.

(** [data.decode()] *)
Definition bytes_decode (bs : bytes) : result string :=
  if utf8_valid bs then Ok (string_of_list_byte bs) else Raised UnicodeDecodeError.

Definition is_ascii_bytes (bs : bytes) : bool :=
  forallb (fun b => (Byte.to_N b <? 128)%N) bs.

(** ** JSON, as [json.loads] and [json.dumps] of the Python library

    Modelled from the JSON grammar that Python's [json] module accepts and
    emits; the module itself is not part of the repository.  The recursion
    limit of the interpreter and the rounding of floats are not modelled. *)
Module Json.

Definition dquote : ascii := "034"%char.

Definition is_ws (c : ascii) : bool :=
match c with
| " "%char | "009"%char | "010"%char | "013"%char => true
| _ => false
end.

Fixpoint skip_ws (s : string) : string :=
match s with
| String c r => if is_ws c then skip_ws r else s
| EmptyString => s
end.

Definition is_digit (c : ascii) : bool :=
let n := N_of_ascii c in ((48 <=? n) && (n <=? 57))%N.

Definition hex_value (c : ascii) : option N :=
let n := N_of_ascii c in
if ((48 <=? n) && (n <=? 57))%N then Some (n - 48)%N
else if ((97 <=? n) && (n <=? 102))%N then Some (n - 87)%N
else if ((65 <=? n) && (n <=? 70))%N then Some (n - 55)%N
else None.

Definition hex4 (a b c d : ascii) : option N :=
x3 ← hex_value a; x2 ← hex_value b; x1 ← hex_value c; x0 ← hex_value d;
Some (x3 * 4096 + x2 * 256 + x1 * 16 + x0)%N.

Fixpoint strip_prefix (p s : string) : option string :=
match p, s with
| EmptyString, _ => Some s
| String a p', String b s' => if Ascii.eqb a b then strip_prefix p' s' else None
| String _ _, EmptyString => None
end.

Definition string_of_N_bytes (l : list N) : string :=
string_of_list_ascii (map ascii_of_N l).

Definition simple_escape (c : ascii) : option ascii :=
match c with
| "034"%char => Some "034"%char
| "\"%char => Some "\"%char
| "/"%char => Some "/"%char
| "b"%char => Some "008"%char
| "f"%char => Some "012"%char
| "n"%char => Some "010"%char
| "r"%char => Some "013"%char
| "t"%char => Some "009"%char
| _ => None
end.

Definition is_high_surrogate (cp : N) : bool := ((55296 <=? cp) && (cp <=? 56319))%N.
Definition is_low_surrogate (cp : N) : bool := ((56320 <=? cp) && (cp <=? 57343))%N.

(** The text after an opening quote, up to the closing one (strict mode:
  a raw control character is an error). *)
Fixpoint scanstring (s : string) : option (string * string) :=
match s with
| EmptyString => None
| String c r =>
  if Ascii.eqb c dquote then Some (EmptyString, r)
  else if Ascii.eqb c "\"%char then
    match r with
    | String "u"%char (String h3 (String h2 (String h1 (String h0 r')))) =>
      cp ← hex4 h3 h2 h1 h0;
      match r' with
      | String "\"%char (String "u"%char
          (String l3 (String l2 (String l1 (String l0 r''))))) =>
        match hex4 l3 l2 l1 l0 with
        | Some lo =>
          if is_high_surrogate cp && is_low_surrogate lo then
            '(body, rest) ← scanstring r'';
            Some (string_of_N_bytes
                    (utf8_encode (65536 + (cp - 55296) * 1024 + (lo - 56320))%N)
                  +:+ body, rest)
          else
            '(body, rest) ← scanstring r';
            Some (string_of_N_bytes (utf8_encode cp) +:+ body, rest)
        | None =>
          '(body, rest) ← scanstring r';
          Some (string_of_N_bytes (utf8_encode cp) +:+ body, rest)
        end
      | _ =>
        '(body, rest) ← scanstring r';
        Some (string_of_N_bytes (utf8_encode cp) +:+ body, rest)
      end
    | String e r' =>
      e' ← simple_escape e;
      '(body, rest) ← scanstring r';
      Some (String e' body, rest)
    | EmptyString => None
    end
  else if (N_of_ascii c <? 32)%N then None
  else
    '(body, rest) ← scanstring r;
    Some (String c body, rest)
end.

Fixpoint span_digits (s : string) : string * string :=
match s with
| String c r =>
  if is_digit c then let '(d, r') := span_digits r in (String c d, r')
  else (EmptyString, s)
| EmptyString => (EmptyString, EmptyString)
end.

Definition Z_of_digits (d : string) : Z :=
fold_left (fun acc c => 10 * acc + Z.of_N (N_of_ascii c - 48))%Z
          (list_ascii_of_string d) 0%Z.

(** A number: an optional minus, an integer part without leading zeros,
  then optionally a fraction and optionally an exponent, each taken only
  when it has digits. *)
Definition scan_number (s : string) : option (pyval * string) :=
let '(sign, s1) :=
  match s with
  | String "-"%char r => ("-", r)
  | _ => (EmptyString, s)
  end in
'(int_part, r1) ←
  match s1 with
  | String "0"%char r => Some ("0", r)
  | String c _ => if is_digit c then Some (span_digits s1) else None
  | EmptyString => None
  end;
let '(frac, r2) :=
  match r1 with
  | String "."%char r =>
    let '(d, r') := span_digits r in
    if String.eqb d EmptyString then (EmptyString, r1) else ("." +:+ d, r')
  | _ => (EmptyString, r1)
  end in
let '(expo, r3) :=
  match r2 with
  | String e r =>
    if Ascii.eqb e "e"%char || Ascii.eqb e "E"%char then
      let '(sg, r') :=
        match r with
        | String "+"%char r' => ("+", r')
        | String "-"%char r' => ("-", r')
        | _ => (EmptyString, r)
        end in
      let '(d, r'') := span_digits r' in
      if String.eqb d EmptyString then (EmptyString, r2)
      else (String e sg +:+ d, r'')
    else (EmptyString, r2)
  | EmptyString => (EmptyString, r2)
  end in
if String.eqb frac EmptyString && String.eqb expo EmptyString
then Some (PyInt (if String.eqb sign "-" then - Z_of_digits int_part
                  else Z_of_digits int_part), r3)
else Some (PyFloat (sign +:+ int_part +:+ frac +:+ expo), r3).

Definition scan_literal (s : string) : option (pyval * string) :=
match strip_prefix "null" s with Some r => Some (PyNone, r) | None =>
match strip_prefix "true" s with Some r => Some (PyBool true, r) | None =>
match strip_prefix "false" s with Some r => Some (PyBool false, r) | None =>
match strip_prefix "NaN" s with Some r => Some (PyFloat "NaN", r) | None =>
match strip_prefix "Infinity" s with Some r => Some (PyFloat "Infinity", r) | None =>
match strip_prefix "-Infinity" s with Some r => Some (PyFloat "-Infinity", r) | None =>
scan_number s
end end end end end end.

(** One value at the head of [s]; the arrays and objects recurse on [fuel],
  of which [json_loads] supplies more than any text of that length uses. *)
Fixpoint scan_once (fuel : nat) (s : string) : option (pyval * string) :=
match fuel with
| O => None
| S fuel' =>
  match s with
  | String "034"%char r =>
    '(body, rest) ← scanstring r; Some (PyStr body, rest)
  | String "["%char r =>
    match skip_ws r with
    | String "]"%char rest => Some (PyList [], rest)
    | r' => '(items, rest) ← scan_items fuel' r' []; Some (PyList items, rest)
    end
  | String "{"%char r =>
    match skip_ws r with
    | String "}"%char rest => Some (PyDict [], rest)
    | r' => '(members, rest) ← scan_members fuel' r' []; Some (PyDict members, rest)
    end
  | _ => scan_literal s
  end
end
with scan_items (fuel : nat) (s : string) (acc : list pyval)
: option (list pyval * string) :=
match fuel with
| O => None
| S fuel' =>
  '(v, r) ← scan_once fuel' s;
  match skip_ws r with
  | String ","%char r' => scan_items fuel' (skip_ws r') (acc ++ [v])
  | String "]"%char rest => Some (acc ++ [v], rest)
  | _ => None
  end
end
with scan_members (fuel : nat) (s : string) (acc : list (string * pyval))
: option (list (string * pyval) * string) :=
match fuel with
| O => None
| S fuel' =>
  match s with
  | String "034"%char r =>
    '(key, r1) ← scanstring r;
    match skip_ws r1 with
    | String ":"%char r2 =>
      '(v, r3) ← scan_once fuel' (skip_ws r2);
      match skip_ws r3 with
      | String ","%char r4 => scan_members fuel' (skip_ws r4) (acc ++ [(key, v)])
      | String "}"%char rest => Some (acc ++ [(key, v)], rest)
      | _ => None
      end
    | _ => None
    end
  | _ => None
  end
end.

(** [json.loads(s)]: [None] stands for the [JSONDecodeError] it raises. *)
Definition json_loads (s : string) : option pyval :=
'(v, rest) ← scan_once (2 * String.length s + 2) (skip_ws s);
match skip_ws rest with
| EmptyString => Some v
| _ => None
end.

Definition hex_digit (n : N) : ascii :=
ascii_of_N (if (n <? 10)%N then 48 + n else 87 + n).

Definition u_escape (cp : N) : string :=
String "\"%char (String "u"%char
  (String (hex_digit (cp / 4096)) (String (hex_digit ((cp / 256) mod 16))
    (String (hex_digit ((cp / 16) mod 16)) (String (hex_digit (cp mod 16))
      EmptyString))))).

(** [ensure_ascii] escaping of one code point. *)
Definition escape_codepoint (cp : N) : string :=
if (cp =? 34)%N then String "\"%char (String dquote EmptyString)
else if (cp =? 92)%N then "\\"
else if (cp =? 10)%N then "\n"
else if (cp =? 13)%N then "\r"
else if (cp =? 9)%N then "\t"
else if (cp =? 8)%N then "\b"
else if (cp =? 12)%N then "\f"
else if ((32 <=? cp) && (cp <=? 126))%N then String (ascii_of_N cp) EmptyString
else if (cp <? 65536)%N then u_escape cp
else u_escape (55296 + (cp - 65536) / 1024)
     +:+ u_escape (56320 + (cp - 65536) mod 1024).

Definition codepoints (s : string) : list N :=
let raw := map Byte.to_N (list_byte_of_string s) in
default raw (utf8_decode raw).

Definition dumps_str (s : string) : string :=
String dquote (fold_right (fun cp acc => escape_codepoint cp +:+ acc)
                          (String dquote EmptyString) (codepoints s)).

Fixpoint join (sep : string) (l : list string) : string :=
match l with
| [] => EmptyString
| [x] => x
| x :: r => x +:+ sep +:+ join sep r
end.

(** [json.dumps(tags)] for the [Optional[List[str]]] of the request models. *)
Definition json_dumps (tags : option (list string)) : string :=
match tags with
| None => "null"
| Some l => "[" +:+ join ", " (map dumps_str l) +:+ "]"
end.

End Json.

(** [json.loads] as the handlers see it: a value or a raised error. *)
Definition json_loads (s : string) : result pyval :=
  match Json.json_loads s with
  | Some v => Ok v
  | None => Raised JSONDecodeError
  end.

(** [try: body  except: handler] for code without side effects. *)
Definition try_except {A} (body : result A) (handler : result A) : result A :=
  match body with
  | Ok a => Ok a
  | _ => handler
  end.

(** ** Tag decoding *)

Definition parse_tags (tags : pyval) : result pyval :=
  match tags with
  | PyNone => Ok (PyList [])
  | PyList items | PyTuple items => Ok (PyList items)
  | PyStr s => try_except (json_loads s) (Ok (PyList [PyStr s]))
  | _ => Ok (PyList [])
  end.

(** A Python list all of whose items are strings. *)
Definition is_str_list (v : pyval) : bool :=
  match v with
  | PyList items => forallb (fun x => match x with PyStr _ => true | _ => false end) items
  | _ => false
  end.

(** ** Request models, identities and table rows *)

Module SecretCreate.
Record t := mk
  { name : string; type : string; value : string;
    description : option string; tags : option (list string) }.
End SecretCreate.

Module SecretUpdate.
Record t := mk
  { value : option string; description : option string;
    tags : option (list string) }.
End SecretUpdate.

(** The verified token payload [user]. *)
Module Identity.
Record t := mk { user_id : Z; email : string; role : string }.
End Identity.

(** A row of [secrets]; its primary key [id] is the key of the table map.
    The [tags] column holds whatever representation was stored. *)
Module Row.
Record t := mk
  { name : string; type : string; encrypted_value : string;
    description : option string; tags : pyval; owner_id : Z; version : Z;
    created_at : Z; updated_at : Z; deleted_at : option Z }.
End Row.

(** A row of [secret_versions] (its surrogate key is left out). *)
Module VersionRow.
Record t := mk
  { secret_id : Z; version : Z; encrypted_value : string;
    updated_by : Z; created_at : Z }.
End VersionRow.

Module UserRow.
Record t := mk { email : string; full_name : string; role : string }.
End UserRow.

(** The relational store shared by the services. *)
Record tables := mk_tables
  { secrets : gmap Z Row.t;
    secrets_seq : Z;
    secret_versions : list VersionRow.t;
    users : gmap Z UserRow.t }.

(** The body posted to the audit service. *)
Record AuditEvent := mk_event
  { ev_user_id : Z; ev_user_email : string; ev_action : string;
    ev_secret_id : Z; ev_timestamp : Z }.

(** What one [requests.post] does: whether the audit service received the
    event, and the exception the call raises, if any. *)
Record attempt := mk_attempt { received : bool; raises : option exn }.

(** What lives outside one request: the committed tables and the events
    the audit service has received. *)
Record world := mk_world { store : tables; audit_sink : list AuditEvent }.

(** State of a request in flight: the connection ([committed] is durable,
    [pending] is the open transaction), the audit service, and the number
    of audit posts made so far. *)
Record state := mk_state
  { committed : tables; pending : tables;
    sink : list AuditEvent; posts : nat }.

Definition M (A : Type) : Type := state -> result A * state.

Definition ret {A} (a : A) : M A := fun st => (Ok a, st).

(** [raise HTTPException(status_code=..., detail=...)] *)
Definition raise {A} (status_code : Z) (detail : string) : M A :=
  fun st => (HTTPException status_code detail, st).

Definition bind {A B} (m : M A) (k : A -> M B) : M B :=
  fun st =>
    match m st with
    | (Ok a, st') => k a st'
    | (HTTPException c d, st') => (HTTPException c d, st')
    | (Raised e, st') => (Raised e, st')
    end.

Definition lift {A} (r : result A) : M A := fun st => (r, st).

(** [try: body  except: pass] *)
Definition try_pass {A} (body : M A) : M unit :=
  fun st =>
    match body st with
    | (_, st') => (Ok tt, st')
    end.

Declare Scope handler_scope.
Delimit Scope handler_scope with handler.
Notation "'let*' x := m 'in' k" := (bind m (fun x => k))
  (at level 10, x name, m at level 100, k at level 200) : handler_scope.
Notation "'exec' m 'in' k" := (bind m (fun _ => k))
  (at level 10, m at level 100, k at level 200) : handler_scope.

(** [cursor.execute] of a statement that reads the open transaction. *)
Definition query {A} (q : tables -> A) : M A := fun st => (Ok (q (pending st)), st).

(** [cursor.execute] of a statement that writes in the open transaction. *)
Definition execute (f : tables -> tables) : M unit :=
  fun st => (Ok tt, mk_state (committed st) (f (pending st)) (sink st) (posts st)).

(** [db.commit()] *)
Definition commit : M unit :=
  fun st => (Ok tt, mk_state (pending st) (pending st) (sink st) (posts st)).

(** One request: [get_db] opens a connection, the handler runs, and the
    connection is closed, which drops what was not committed. *)
Definition run_request {A} (handler : M A) (w : world) : result A * world :=
  let '(r, st) := handler (mk_state (store w) (store w) (audit_sink w) 0) in
  (r, mk_world (committed st) (sink st)).

(** ** Responses *)

Module SecretResponse.
Record t := mk
  { id : Z; name : string; type : string; description : option string;
    tags : pyval; created_at : Z; updated_at : Z; version : Z;
    owner_email : string }.
End SecretResponse.

Module SecretDetail.
Record t := mk
  { id : Z; name : string; type : string; description : option string;
    tags : pyval; owner_id : Z; version : Z; created_at : Z;
    updated_at : Z; deleted_at : option Z; owner_email : string;
    value : string }.
End SecretDetail.

Module Updated.
Record t := mk { message : string; new_version : Z }.
End Updated.

Module Rotated.
Record t := mk { message : string; new_value : string }.
End Rotated.

(** ** SQL statements of the handlers *)

Definition is_live (r : Row.t) : bool :=
  match Row.deleted_at r with None => true | Some _ => false end.

(** [SELECT * FROM secrets WHERE id = %s AND owner_id = %s AND deleted_at IS NULL] *)
Definition select_owned (secret_id uid : Z) (t : tables) : option Row.t :=
  match secrets t !! secret_id with
  | Some r => if (Row.owner_id r =? uid)%Z && is_live r then Some r else None
  | None => None
  end.

(** [SELECT s.*, u.email as owner_email FROM secrets s JOIN users u
    ON s.owner_id = u.id WHERE s.id = %s AND s.deleted_at IS NULL] *)
Definition select_any_joined (secret_id : Z) (t : tables) : option (Row.t * string) :=
  match secrets t !! secret_id with
  | Some r =>
    match users t !! Row.owner_id r with
    | Some u => if is_live r then Some (r, UserRow.email u) else None
    | None => None
    end
  | None => None
  end.

(** The same with [AND s.owner_id = %s]. *)
Definition select_owned_joined (secret_id uid : Z) (t : tables)
  : option (Row.t * string) :=
  match secrets t !! secret_id with
  | Some r =>
    match users t !! Row.owner_id r with
    | Some u =>
      if (Row.owner_id r =? uid)%Z && is_live r then Some (r, UserRow.email u)
      else None
    | None => None
    end
  | None => None
  end.

(** Modelled from the spec: the table definitions are not among the
    sources.  [id] is drawn from the sequence of the table and is its
    primary key, [created_at] and [updated_at] default to [NOW()], and
    [deleted_at] defaults to NULL.

    [INSERT INTO secrets (name, type, encrypted_value, description, tags,
    owner_id, version) VALUES (%s, %s, %s, %s, %s, %s, 1) RETURNING ...] *)
Definition insert_secret (now : Z) (name type encrypted_value : string)
    (description : option string) (tags : string) (owner_id : Z)
  : M (Z * Row.t) :=
  fun st =>
    let t := pending st in
    let id := secrets_seq t in
    match secrets t !! id with
    | Some _ => (Raised UniqueViolation, st)
    | None =>
      let row := Row.mk name type encrypted_value description (PyStr tags)
                        owner_id 1 now now None in
      (Ok (id, row),
       mk_state (committed st)
                (mk_tables (<[id := row]> (secrets t)) (id + 1)
                           (secret_versions t) (users t))
                (sink st) (posts st))
    end.

(** [INSERT INTO secret_versions (secret_id, version, encrypted_value,
    updated_by) VALUES (%s, %s, %s, %s)]; the row is appended, and no
    constraint on the pair of secret and version is taken to exist. *)
Definition insert_version (now secret_id version : Z)
    (encrypted_value : string) (updated_by : Z) : M unit :=
  execute (fun t =>
    mk_tables (secrets t) (secrets_seq t)
              (secret_versions t
                 ++ [VersionRow.mk secret_id version encrypted_value updated_by now])
              (users t)).

(** The assignments of an [UPDATE ... SET]. *)
Definition set_encrypted_value (v : string) (r : Row.t) : Row.t :=
  Row.mk (Row.name r) (Row.type r) v (Row.description r) (Row.tags r)
         (Row.owner_id r) (Row.version r) (Row.created_at r) (Row.updated_at r)
         (Row.deleted_at r).
Definition bump_version (r : Row.t) : Row.t :=
  Row.mk (Row.name r) (Row.type r) (Row.encrypted_value r) (Row.description r)
         (Row.tags r) (Row.owner_id r) (Row.version r + 1) (Row.created_at r)
         (Row.updated_at r) (Row.deleted_at r).
Definition set_description (d : string) (r : Row.t) : Row.t :=
  Row.mk (Row.name r) (Row.type r) (Row.encrypted_value r) (Some d) (Row.tags r)
         (Row.owner_id r) (Row.version r) (Row.created_at r) (Row.updated_at r)
         (Row.deleted_at r).
Definition set_tags (v : string) (r : Row.t) : Row.t :=
  Row.mk (Row.name r) (Row.type r) (Row.encrypted_value r) (Row.description r)
         (PyStr v) (Row.owner_id r) (Row.version r) (Row.created_at r)
         (Row.updated_at r) (Row.deleted_at r).
Definition set_updated_at (now : Z) (r : Row.t) : Row.t :=
  Row.mk (Row.name r) (Row.type r) (Row.encrypted_value r) (Row.description r)
         (Row.tags r) (Row.owner_id r) (Row.version r) (Row.created_at r) now
         (Row.deleted_at r).
Definition set_deleted_at (now : Z) (r : Row.t) : Row.t :=
  Row.mk (Row.name r) (Row.type r) (Row.encrypted_value r) (Row.description r)
         (Row.tags r) (Row.owner_id r) (Row.version r) (Row.created_at r)
         (Row.updated_at r) (Some now).

Definition apply_updates (updates : list (Row.t -> Row.t)) (r : Row.t) : Row.t :=
  fold_left (fun acc f => f acc) updates r.

(** [UPDATE secrets SET <updates> WHERE id = %s AND owner_id = %s RETURNING *]
    followed by [cursor.fetchone()]. *)
Definition update_returning (updates : list (Row.t -> Row.t))
    (secret_id uid : Z) : M (option Row.t) :=
  fun st =>
    let t := pending st in
    match secrets t !! secret_id with
    | Some r =>
      if (Row.owner_id r =? uid)%Z then
        let r' := apply_updates updates r in
        (Ok (Some r'),
         mk_state (committed st)
                  (mk_tables (<[secret_id := r']> (secrets t)) (secrets_seq t)
                             (secret_versions t) (users t))
                  (sink st) (posts st))
      else (Ok None, st)
    | None => (Ok None, st)
    end.

(** [UPDATE secrets SET deleted_at = NOW() WHERE id = %s AND owner_id = %s
    AND deleted_at IS NULL], giving [cursor.rowcount]. *)
Definition mark_deleted (now secret_id uid : Z) : M Z :=
  fun st =>
    let t := pending st in
    match select_owned secret_id uid t with
    | Some r =>
      (Ok 1%Z,
       mk_state (committed st)
                (mk_tables (<[secret_id := set_deleted_at now r]> (secrets t))
                           (secrets_seq t) (secret_versions t) (users t))
                (sink st) (posts st))
    | None => (Ok 0%Z, st)
    end.

(** ** The service

    The handlers of [main.py], each as a computation over the connection of
    one request.  The caller's identity is the payload that [verify_token]
    has already checked.  Left out: failures of the database connection
    itself, and the conversion FastAPI applies to a returned dict that has a
    [response_model]. *)

Definition alphabet : string :=
  "abcdefghijklmnopqrstuvwxyzABCDEFGHIJKLMNOPQRSTUVWXYZ" +:+ "0123456789"
  +:+ "!@#$%^&*".

(** [secrets.choice(seq)] is [seq[randbelow(len(seq))]]; [draw] is what the
    system source of randomness yields, reduced below the length. *)
Definition secrets_choice (draw : nat) (seq : string) : ascii :=
  nth (draw mod String.length seq) (list_ascii_of_string seq) "000"%char.

Definition masked : string := "••••••••••••".

Section Service.

(** The process-wide [cipher = Fernet(key)].  [entropy] is what one call
    of [cipher.encrypt] draws from the system (initialisation vector and
    clock); [fernet_decrypt] gives [None] where the library raises
    [InvalidToken]. *)
Variable entropy : Type.
Variable fernet_encrypt : entropy -> bytes -> bytes.
Variable fernet_decrypt : bytes -> option bytes.

(** What a request takes from its surroundings: [NOW()] of the database,
    the cipher's entropy, and for the n-th audit post of the request the
    behaviour of the network and the wall clock, and the random draws of
    a rotation. *)
Record env := mk_env
  { now : Z; iv : entropy; network : nat -> attempt;
    wall_clock : nat -> Z; draws : nat -> nat }.

Definition encrypt_value (i : entropy) (value : string) : result string :=
  match str_encode value with
  | Ok data => bytes_decode (fernet_encrypt i data)
  | HTTPException c d => HTTPException c d
  | Raised x => Raised x
  end.

Definition decrypt_value (encrypted_value : string) : result string :=
  match str_encode encrypted_value with
  | Ok token =>
    match fernet_decrypt token with
    | Some data => bytes_decode data
    | None => Raised InvalidToken
    end
  | HTTPException c d => HTTPException c d
  | Raised x => Raised x
  end.

(** [requests.post(url, json=event, timeout=2)] *)
Definition requests_post (a : attempt) (event : AuditEvent) : M unit :=
  fun st =>
    let st' := mk_state (committed st) (pending st)
                        (if received a then sink st ++ [event] else sink st)
                        (S (posts st)) in
    match raises a with
    | Some e => (Raised e, st')
    | None => (Ok tt, st')
    end.

Definition log_audit (e : env) (user_id : Z) (action : string)
    (secret_id : Z) (user_email : string) : M unit :=
  try_pass (fun st =>
    requests_post (network e (posts st))
      (mk_event user_id user_email action secret_id (wall_clock e (posts st)))
      st).

#[local] Open Scope handler_scope.

Definition create_secret (e : env) (secret : SecretCreate.t)
    (user : Identity.t) : M SecretResponse.t :=
  if String.eqb (Identity.role user) "user"
  then raise 403 "Users cannot create secrets. Contact your administrator."
  else
    let* encrypted_value :=
      lift (encrypt_value (iv e) (SecretCreate.value secret)) in
    let* result :=
      insert_secret (now e) (SecretCreate.name secret)
        (SecretCreate.type secret) encrypted_value
        (SecretCreate.description secret)
        (Json.json_dumps (SecretCreate.tags secret))
        (Identity.user_id user) in
    exec commit in
    exec log_audit e (Identity.user_id user) "CREATE" (fst result)
                   (Identity.email user) in
    let* tags := lift (parse_tags (Row.tags (snd result))) in
    ret (SecretResponse.mk (fst result) (Row.name (snd result))
           (Row.type (snd result)) (Row.description (snd result)) tags
           (Row.created_at (snd result)) (Row.updated_at (snd result))
           (Row.version (snd result)) (Identity.email user)).

Definition get_secret (e : env) (secret_id : Z) (show_value : bool)
    (user : Identity.t) : M SecretDetail.t :=
  let* result :=
    if String.eqb (Identity.role user) "admin"
    then query (select_any_joined secret_id)
    else query (select_owned_joined secret_id (Identity.user_id user)) in
  match result with
  | None => raise 404 "Secret not found"
  | Some (row, owner_email) =>
    exec log_audit e (Identity.user_id user) "VIEW" secret_id
                   (Identity.email user) in
    let* tags := lift (parse_tags (Row.tags row)) in
    let* value :=
      if show_value then lift (decrypt_value (Row.encrypted_value row))
      else ret masked in
    ret (SecretDetail.mk secret_id (Row.name row) (Row.type row)
           (Row.description row) tags (Row.owner_id row) (Row.version row)
           (Row.created_at row) (Row.updated_at row) (Row.deleted_at row)
           owner_email value)
  end.

(** The truth value of [secret_update.value]: present and not empty. *)
Definition truthy (v : option string) : option string :=
  match v with
  | Some EmptyString | None => None
  | Some s => Some s
  end.

Definition update_secret (e : env) (secret_id : Z)
    (secret_update : SecretUpdate.t) (user : Identity.t) : M Updated.t :=
  let* existing := query (select_owned secret_id (Identity.user_id user)) in
  match existing with
  | None => raise 404 "Secret not found"
  | Some existing =>
    exec insert_version (now e) secret_id (Row.version existing)
           (Row.encrypted_value existing) (Identity.user_id user) in
    let* updates :=
      match truthy (SecretUpdate.value secret_update) with
      | Some value =>
        let* encrypted := lift (encrypt_value (iv e) value) in
        ret [set_encrypted_value encrypted; bump_version]
      | None => ret []
      end in
    let updates :=
      match SecretUpdate.description secret_update with
      | Some d => updates ++ [set_description d]
      | None => updates
      end in
    let updates :=
      match SecretUpdate.tags secret_update with
      | Some tags => updates ++ [set_tags (Json.json_dumps (Some tags))]
      | None => updates
      end in
    let updates := updates ++ [set_updated_at (now e)] in
    let* result :=
      update_returning updates secret_id (Identity.user_id user) in
    exec commit in
    exec log_audit e (Identity.user_id user) "UPDATE" secret_id
                   (Identity.email user) in
    match result with
    | Some row => ret (Updated.mk "Secret updated successfully" (Row.version row))
    | None => lift (Raised TypeError)
    end
  end.

Definition delete_secret (e : env) (secret_id : Z) (user : Identity.t)
  : M string :=
  let* rowcount := mark_deleted (now e) secret_id (Identity.user_id user) in
  if (rowcount =? 0)%Z then raise 404 "Secret not found"
  else
    exec commit in
    exec log_audit e (Identity.user_id user) "DELETE" secret_id
                   (Identity.email user) in
    ret "Secret deleted successfully".

Definition new_password (e : env) : string :=
  string_of_list_ascii
    (map (fun k => secrets_choice (draws e k) alphabet) (seq 0 20)).

Definition rotate_secret (e : env) (secret_id : Z) (user : Identity.t)
  : M Rotated.t :=
  let secret_update := SecretUpdate.mk (Some (new_password e)) None None in
  exec update_secret e secret_id secret_update user in
  exec log_audit e (Identity.user_id user) "ROTATE" secret_id
                 (Identity.email user) in
  ret (Rotated.mk "Secret rotated successfully" (new_password e)).

End Service.

Arguments mk_env {entropy}.
Arguments now {entropy}.
Arguments iv {entropy}.
Arguments network {entropy}.
Arguments wall_clock {entropy}.
Arguments draws {entropy}.
Arguments encrypt_value {entropy}.
Arguments log_audit {entropy}.
Arguments create_secret {entropy}.
Arguments get_secret {entropy}.
Arguments update_secret {entropy}.
Arguments delete_secret {entropy}.
Arguments new_password {entropy}.
Arguments rotate_secret {entropy}.

(** ** Runs of updates and the archive of one secret *)

(** The rows of [secret_versions] that belong to one secret, oldest first. *)
Definition archived (secret_id : Z) (t : tables) : list VersionRow.t :=
  List.filter (fun v => (VersionRow.secret_id v =? secret_id)%Z) (secret_versions t).

(** An update that carries a (non-empty) new value. *)
Definition value_changing (u : SecretUpdate.t) : bool :=
  match SecretUpdate.value u with
  | Some (String _ _) => true
  | _ => false
  end.

(** The version a secret has before each update of a run that starts at
    version [v]. *)
Fixpoint versions_before (v : Z) (run : list SecretUpdate.t) : list Z :=
  match run with
  | [] => []
  | u :: rest =>
    v :: versions_before (if value_changing u then v + 1 else v)%Z rest
  end.

Definition count_value_changing (run : list SecretUpdate.t) : nat :=
  List.length (List.filter value_changing run).

Section Runs.

Variable entropy : Type.
Variable fernet_encrypt : entropy -> bytes -> bytes.

(** Successive update requests on one secret by one caller, each in its
    own environment; the results are returned in order. *)
Fixpoint run_updates (secret_id : Z) (user : Identity.t)
    (run : list (env entropy * SecretUpdate.t)) (w : world)
  : list (result Updated.t) * world :=
  match run with
  | [] => ([], w)
  | (e, u) :: rest =>
    let '(r, w1) :=
      run_request (update_secret fernet_encrypt e secret_id u user) w in
    let '(rs, w2) := run_updates secret_id user rest w1 in
    (r :: rs, w2)
  end.

End Runs.

Arguments run_updates {entropy}.

(** ** A stand-in cipher

    Two letters per byte and back: enough to run the handlers on concrete
    requests.  It has the two properties of Fernet that the service relies
    on (decryption inverts encryption, tokens are ASCII text) and none of
    its secrecy. *)
Module Standin.

Definition letter (n : N) : byte :=
  default x00 (Byte.of_N (65 + n)).

Definition encrypt (_ : unit) (data : bytes) : bytes :=
  flat_map (fun b => [letter (Byte.to_N b / 16); letter (Byte.to_N b mod 16)]) data.

Definition nibble (b : byte) : option N :=
  let n := Byte.to_N b in
  if ((65 <=? n) && (n <=? 80))%N then Some (n - 65)%N else None.

Fixpoint decrypt (token : bytes) : option bytes :=
  match token with
  | [] => Some []
  | hi :: lo :: rest =>
    h ← nibble hi; l ← nibble lo; b ← Byte.of_N (h * 16 + l);
    cons b <$> decrypt rest
  | [_] => None
  end.

Definition quiet : attempt := mk_attempt true None.
Definition down : attempt := mk_attempt false (Some ConnectionError).

(** An environment at time [t] whose audit service answers. *)
Definition env_at (t : Z) : env unit :=
  mk_env t tt (fun _ => quiet) (fun _ => t) (fun k => 7 * k + 3).

Definition alice : Identity.t := Identity.mk 1 "alice@example.org" "admin".
Definition bob : Identity.t := Identity.mk 2 "bob@example.org" "developer".
Definition carol : Identity.t := Identity.mk 3 "carol@example.org" "user".

Definition people : gmap Z UserRow.t :=
  <[1%Z := UserRow.mk "alice@example.org" "Alice" "admin"]>
  (<[2%Z := UserRow.mk "bob@example.org" "Bob" "developer"]>
  (<[3%Z := UserRow.mk "carol@example.org" "Carol" "user"]> ∅)).

Definition empty_world : world :=
  mk_world (mk_tables ∅ 1 [] people) [].

Definition db_pass : SecretCreate.t :=
  SecretCreate.mk "db-pass" "password" "p@ss1" None (Some ["prod"]).

(** The world after bob has created [db-pass]. *)
Definition world1 : world :=
  snd (run_request (create_secret encrypt (env_at 10) db_pass bob) empty_world).

(** A live secret with id 5 that carol, whose role is "user", owns. *)
Definition carol_row : Row.t :=
  Row.mk "wifi" "password" "HHGJGGGJ" None (PyStr "[]") 3 1 4 4 None.

Definition carol_world : world :=
  mk_world (mk_tables (<[5%Z := carol_row]> ∅) 6 [] people) [].

Definition new_description (d : string) : SecretUpdate.t :=
  SecretUpdate.mk None (Some d) None.
Definition new_value (v : string) : SecretUpdate.t :=
  SecretUpdate.mk (Some v) None None.

End Standin.

(** ** Auxiliary notions for the statements below *)

(** The row an update leaves behind, [enc] being the new ciphertext. *)
Definition row_after (now : Z) (u : SecretUpdate.t) (enc : string)
    (r : Row.t) : Row.t :=
  Row.mk (Row.name r) (Row.type r)
    (if value_changing u then enc else Row.encrypted_value r)
    (match SecretUpdate.description u with
     | Some d => Some d | None => Row.description r end)
    (match SecretUpdate.tags u with
     | Some l => PyStr (Json.json_dumps (Some l)) | None => Row.tags r end)
    (Row.owner_id r)
    (if value_changing u then Row.version r + 1 else Row.version r)
    (Row.created_at r) now (Row.deleted_at r).

(** The value an update encrypts: its own when it carries one. *)
Definition value_of (u : SecretUpdate.t) : string :=
  default EmptyString (SecretUpdate.value u).

(** An update whose value, if it has one, is well-formed text: one that
    [value.encode()] accepts. *)
Definition encodable (u : SecretUpdate.t) : bool :=
  utf8_valid (utf8_bytes (value_of u)).

Section Archive.

Variable entropy : Type.
Variable fernet_encrypt : entropy -> bytes -> bytes.

(** The ciphertext an update stores when the cipher's token is text. *)
Definition token (e : env entropy) (u : SecretUpdate.t) : string :=
  string_of_list_byte (fernet_encrypt (iv e) (utf8_bytes (value_of u))).

(** The rows a run of updates by [uid] adds to the archive of a secret whose
    row is [r] when the run starts: one row per update, holding the version
    and the ciphertext the secret has just before that update. *)
Fixpoint archive_of_run (secret_id uid : Z) (r : Row.t)
    (run : list (env entropy * SecretUpdate.t)) : list VersionRow.t :=
  match run with
  | [] => []
  | (e, u) :: rest =>
    VersionRow.mk secret_id (Row.version r) (Row.encrypted_value r) uid (now e)
    :: archive_of_run secret_id uid (row_after (now e) u (token e u) r) rest
  end.

End Archive.

Arguments token {entropy}.
Arguments archive_of_run {entropy}.

(** The tables once the row [r] has been archived by [uid]. *)
Definition archive_row (now secret_id uid : Z) (r : Row.t) (t : tables) : tables :=
  mk_tables (secrets t) (secrets_seq t)
    (secret_versions t
       ++ [VersionRow.mk secret_id (Row.version r) (Row.encrypted_value r) uid now])
    (users t).

(** The tables after an update of a row [r] of the caller. *)
Definition tables_after_update (now secret_id uid : Z) (r r' : Row.t)
    (t : tables) : tables :=
  mk_tables (<[secret_id := r']> (secrets t)) (secrets_seq t)
    (secret_versions t
       ++ [VersionRow.mk secret_id (Row.version r) (Row.encrypted_value r) uid now])
    (users t).

(** The row, joined with its owner, that [get_secret] selects for a caller. *)
Definition visible_row (secret_id : Z) (user : Identity.t) (t : tables)
  : option (Row.t * string) :=
  if String.eqb (Identity.role user) "admin"
  then select_any_joined secret_id t
  else select_owned_joined secret_id (Identity.user_id user) t.

(** The secret is absent, soft-deleted, or belongs to someone else while
    the caller is not an admin. *)
Definition hidden_from (secret_id : Z) (user : Identity.t) (t : tables) : Prop :=
  secrets t !! secret_id = None
  \/ exists r, secrets t !! secret_id = Some r
               /\ (Row.deleted_at r <> None
                   \/ (Identity.role user <> "admin"
                       /\ Row.owner_id r <> Identity.user_id user)).

(** Two requests in flight see the same database. *)
Definition same_db (st1 st2 : state) : Prop :=
  committed st1 = committed st2 /\ pending st1 = pending st2.

(** Two computations that, on the same database, return the same result
    and leave the same database, whatever the audit service is doing. *)
Definition audit_blind {A} (m1 m2 : M A) : Prop :=
  forall st1 st2, same_db st1 st2 ->
    fst (m1 st1) = fst (m2 st2) /\ same_db (snd (m1 st1)) (snd (m2 st2)).

(** Two requests with the same result and the same committed tables. *)
Definition same_outcome {A} (h1 h2 : M A) (w1 w2 : world) : Prop :=
  fst (run_request h1 w1) = fst (run_request h2 w2)
  /\ store (snd (run_request h1 w1)) = store (snd (run_request h2 w2)).



(** The sequence of [secrets] is ahead of every id in use. *)
Definition seq_ahead (t : tables) : Prop :=
  forall id, is_Some (secrets t !! id) -> (id < secrets_seq t)%Z.

(** The secret is absent, soft-deleted, or not the caller's. *)
Definition not_owned_live (secret_id uid : Z) (t : tables) : Prop :=
  secrets t !! secret_id = None
  \/ exists r, secrets t !! secret_id = Some r
               /\ (Row.owner_id r <> uid \/ Row.deleted_at r <> None).


(** ** The remaining handlers of the secrets service *)

(** The event the [k]-th audit post of a request leaves at the audit
    service, if it arrives there. *)
Definition delivered {entropy} (e : env entropy) (k : nat) (user : Identity.t)
    (action : string) (secret_id : Z) : list AuditEvent :=
  if received (network e k)
  then [mk_event (Identity.user_id user) (Identity.email user) action secret_id
                 (wall_clock e k)]
  else [].

(** A dict display [{k1: v1, k2: v2, ...}]: a key written twice keeps the
    value written last. *)
Definition dict_display (items : list (string * pyval)) : gmap string pyval :=
  fold_left (fun d kv => <[fst kv := snd kv]> d) items ∅.

Definition py_opt_str (o : option string) : pyval :=
  match o with Some s => PyStr s | None => PyNone end.

Definition py_opt_int (o : option Z) : pyval :=
  match o with Some z => PyInt z | None => PyNone end.

(** A row of [SELECT s.*, u.email as owner_email] as the [RealDictCursor]
    hands it over; a timestamp is carried as its number. *)
Definition joined_items (id : Z) (r : Row.t) (owner_email : string)
  : list (string * pyval) :=
  [("id", PyInt id); ("name", PyStr (Row.name r)); ("type", PyStr (Row.type r));
   ("encrypted_value", PyStr (Row.encrypted_value r));
   ("description", py_opt_str (Row.description r)); ("tags", Row.tags r);
   ("owner_id", PyInt (Row.owner_id r)); ("version", PyInt (Row.version r));
   ("created_at", PyInt (Row.created_at r));
   ("updated_at", PyInt (Row.updated_at r));
   ("deleted_at", py_opt_int (Row.deleted_at r));
   ("owner_email", PyStr owner_email)].

(** [[f(x) for x in xs]] where [f] may raise. *)
Fixpoint for_each {A B} (f : A -> result B) (xs : list A) : result (list B) :=
  match xs with
  | [] => Ok []
  | x :: rest =>
    match f x with
    | Ok y =>
      match for_each f rest with
      | Ok ys => Ok (y :: ys)
      | HTTPException c d => HTTPException c d
      | Raised e => Raised e
      end
    | HTTPException c d => HTTPException c d
    | Raised e => Raised e
    end
  end.

Section Listing.

(** [ORDER BY key DESC] as the database carries it out.  SQL leaves the
    order of rows with equal keys open, so the ordering is a parameter; the
    properties below assume of it only that it permutes the rows and puts
    larger keys first. *)
Variable order_by_desc : forall A : Type, (A -> Z) -> list A -> list A.

(** [FROM secrets s JOIN users u ON s.owner_id = u.id] *)
Definition secrets_join_users (t : tables) : list (Z * Row.t * string) :=
  omap (fun entry : Z * Row.t =>
          match users t !! Row.owner_id (snd entry) with
          | Some u => Some (fst entry, snd entry, UserRow.email u)
          | None => None
          end)
       (map_to_list (secrets t)).

Definition updated_at_of (x : Z * Row.t * string) : Z := Row.updated_at (snd (fst x)).

(** [SELECT s.*, u.email as owner_email FROM secrets s JOIN users u
    ON s.owner_id = u.id WHERE s.deleted_at IS NULL
    ORDER BY s.updated_at DESC] *)
Definition select_all_live (t : tables) : list (Z * Row.t * string) :=
  order_by_desc _ updated_at_of
    (List.filter (fun x => is_live (snd (fst x))) (secrets_join_users t)).

(** The same with [WHERE s.owner_id = %s AND s.deleted_at IS NULL]. *)
Definition select_owned_live (uid : Z) (t : tables) : list (Z * Row.t * string) :=
  order_by_desc _ updated_at_of
    (List.filter (fun x => (Row.owner_id (snd (fst x)) =? uid)%Z && is_live (snd (fst x)))
                 (secrets_join_users t)).

#[local] Open Scope handler_scope.

(** The body of [list_secrets]: what it returns, before the framework
    checks it against [List[SecretResponse]]. *)
Definition list_secrets (user : Identity.t) : M (list (gmap string pyval)) :=
  let* results :=
    if String.eqb (Identity.role user) "admin"
    then query select_all_live
    else query (select_owned_live (Identity.user_id user)) in
  lift (for_each
          (fun row : Z * Row.t * string =>
             match parse_tags (Row.tags (snd (fst row))) with
             | Ok tags =>
               Ok (dict_display
                     (("tags", tags)
                      :: joined_items (fst (fst row)) (snd (fst row)) (snd row)))
             | HTTPException c d => HTTPException c d
             | Raised e => Raised e
             end)
          results).

(** The rows [list_secrets] selects for a caller. *)
Definition listed (user : Identity.t) (t : tables) : list (Z * Row.t * string) :=
  if String.eqb (Identity.role user) "admin" then select_all_live t
  else select_owned_live (Identity.user_id user) t.

(** [SELECT sv.*, u.email as updated_by_email FROM secret_versions sv
    JOIN users u ON sv.updated_by = u.id WHERE sv.secret_id = %s
    ORDER BY sv.version DESC] *)
Definition select_versions (secret_id : Z) (t : tables)
  : list (VersionRow.t * string) :=
  order_by_desc _ (fun x : VersionRow.t * string => VersionRow.version (fst x))
    (omap (fun v =>
             if (VersionRow.secret_id v =? secret_id)%Z then
               match users t !! VersionRow.updated_by v with
               | Some u => Some (v, UserRow.email u)
               | None => None
               end
             else None)
          (secret_versions t)).

Definition get_secret_versions (secret_id : Z) (user : Identity.t)
  : M (list (VersionRow.t * string)) :=
  let* found := query (select_owned secret_id (Identity.user_id user)) in
  match found with
  | None => raise 404 "Secret not found"
  | Some _ => query (select_versions secret_id)
  end.

End Listing.

(** *** The bearer token *)

(** [s.split(sep)] for a one-character separator. *)
Fixpoint split_on (sep : ascii) (s : string) : list string :=
  match s with
  | EmptyString => [EmptyString]
  | String c rest =>
    if Ascii.eqb c sep then EmptyString :: split_on sep rest
    else
      match split_on sep rest with
      | field :: fields => String c field :: fields
      | [] => [String c EmptyString]
      end
  end.

(** What [jwt.decode(token, JWT_SECRET, algorithms=["HS256"])] does: it
    returns the payload, or raises [ExpiredSignatureError], or raises
    another [InvalidTokenError], or fails in some other way. *)
Inductive jwt_outcome (P : Type) : Type :=
| Decoded (payload : P)
| ExpiredSignatureError
| InvalidTokenError
| JwtCrash (e : exn).
Arguments Decoded {P} payload.
Arguments ExpiredSignatureError {P}.
Arguments InvalidTokenError {P}.
Arguments JwtCrash {P} e.

Section Token.

Variable payload : Type.
Variable jwt_decode : string -> jwt_outcome payload.

(** [authorization] is the header, [None] when the request has none. *)
Definition verify_token (authorization : option string) : result payload :=
  match authorization with
  | None | Some EmptyString => HTTPException 401 "Missing or invalid token"
  | Some header =>
    if negb (String.prefix "Bearer " header)
    then HTTPException 401 "Missing or invalid token"
    else
      match nth_error (split_on " " header) 1 with
      | None => Raised (OtherError "IndexError")
      | Some token =>
        match jwt_decode token with
        | Decoded p => Ok p
        | ExpiredSignatureError => HTTPException 401 "Token expired"
        | InvalidTokenError => HTTPException 401 "Invalid token"
        | JwtCrash e => Raised e
        end
      end
  end.

End Token.

Arguments verify_token {payload}.

(** What [verify_token] makes of the outcome of [jwt.decode]: the payload,
    or the 401 of the matching [except] clause. *)
Definition token_answer {payload : Type} (o : jwt_outcome payload) :
    result payload :=
  match o with
  | Decoded p => Ok p
  | ExpiredSignatureError => HTTPException 401 "Token expired"
  | InvalidTokenError => HTTPException 401 "Invalid token"
  | JwtCrash e => Raised e
  end.

(** The dict of one selected row, as the cursor gives it. *)
Definition row_dict (row : Z * Row.t * string) : gmap string pyval :=
  dict_display (joined_items (fst (fst row)) (snd (fst row)) (snd row)).

(** The archived rows of a secret, each with the email of who wrote it;
    a row whose writer has no row in [users] is dropped by the join. *)
Definition archived_with_email (secret_id : Z) (t : tables)
  : list (VersionRow.t * string) :=
  omap (fun v =>
          match users t !! VersionRow.updated_by v with
          | Some u => Some (v, UserRow.email u)
          | None => None
          end)
       (archived secret_id t).

(** ** The audit service ([services/audit-service/main.py]) *)

Module AuditLogCreate.
Record t := mk
  { user_id : Z; user_email : string; action : string; secret_id : Z;
    timestamp : string; ip_address : option string; user_agent : option string }.
End AuditLogCreate.

(** A row of [audit_logs] with the columns the INSERT names (its surrogate
    key is left out).  The table definition is not among the sources:
    [created_at] is not given by the INSERT and is taken to be filled in by
    the database with the time of the insertion, as the
    [ORDER BY created_at] of the reader supposes. *)
Module AuditRow.
Record t := mk
  { user_id : Z; user_email : string; action : string; secret_id : Z;
    ip_address : option string; user_agent : option string; created_at : Z }.
End AuditRow.

(** What the audit service keeps: its table and the lines of
    [/app/logs/audit.log]. *)
Record audit_store := mk_audit_store
  { audit_logs : list AuditRow.t; audit_file : list string }.

(** What one call takes from outside: [NOW()] of the database, the text of
    [datetime.now().isoformat()], and whether the log file can be opened
    and written. *)
Record audit_env := mk_audit_env
  { audit_now : Z; audit_stamp : string; file_writable : bool }.

(** [str(n)] of an integer. *)
Definition py_str_int (n : Z) : string := NilZero.string_of_int (Z.to_int n).

Definition newline : string := String "010"%char EmptyString.

Definition create_audit_log (e : audit_env) (log : AuditLogCreate.t)
    (s : audit_store) : result string * audit_store :=
  let row := AuditRow.mk (AuditLogCreate.user_id log) (AuditLogCreate.user_email log)
               (AuditLogCreate.action log) (AuditLogCreate.secret_id log)
               (AuditLogCreate.ip_address log) (AuditLogCreate.user_agent log)
               (audit_now e) in
  let logs := audit_logs s ++ [row] in
  let line := audit_stamp e +:+ " | " +:+ AuditLogCreate.user_email log +:+ " | "
              +:+ AuditLogCreate.action log +:+ " | Secret ID: "
              +:+ py_str_int (AuditLogCreate.secret_id log) +:+ newline in
  let file := if file_writable e then audit_file s ++ [line] else audit_file s in
  (Ok "Audit log created", mk_audit_store logs file).

(** The filters that [get_audit_logs] adds to its query: a filter that is
    absent, empty or zero adds nothing. *)
Definition matches_filters (action user_email : option string)
    (secret_id : option Z) (row : AuditRow.t) : bool :=
  match action with
  | Some (String c a) => String.eqb (AuditRow.action row) (String c a)
  | _ => true
  end
  && match user_email with
     | Some (String c m) => String.eqb (AuditRow.user_email row) (String c m)
     | _ => true
     end
  && match secret_id with
     | Some 0%Z | None => true
     | Some id => (AuditRow.secret_id row =? id)%Z
     end.

(** What the filters ask of a row, one by one. *)
Definition asked_for (action user_email : option string) (secret_id : option Z)
    (row : AuditRow.t) : Prop :=
  (forall a, action = Some a -> a <> EmptyString -> AuditRow.action row = a)
  /\ (forall m, user_email = Some m -> m <> EmptyString -> AuditRow.user_email row = m)
  /\ (forall i, secret_id = Some i -> i <> 0%Z -> AuditRow.secret_id row = i).

Section AuditReader.

Variable order_by_desc : forall A : Type, (A -> Z) -> list A -> list A.

(** The body of [get_audit_logs]; the bound [le=1000] on [limit] is checked
    by the framework before the body runs.  A negative [LIMIT] is refused
    by the database. *)
Definition get_audit_logs (action user_email : option string)
    (secret_id : option Z) (limit : Z) (s : audit_store)
  : result (list AuditRow.t) :=
  if (limit <? 0)%Z then Raised (OtherError "InvalidRowCountInLimitClause")
  else
    Ok (firstn (Z.to_nat limit)
          (order_by_desc _ AuditRow.created_at
             (List.filter (matches_filters action user_email secret_id)
                          (audit_logs s)))).

End AuditReader.

(** The body [log_audit] posts, as the audit service parses it. *)
Definition audit_request (event : AuditEvent) (stamp : string) : AuditLogCreate.t :=
  AuditLogCreate.mk (ev_user_id event) (ev_user_email event) (ev_action event)
    (ev_secret_id event) stamp None None.

(** ** The authentication service ([services/auth-service/main.py]) *)

Module UserRegister.
Record t := mk
  { email : string; password : string; full_name : string; role : string }.
(** The request as parsed: [role] is "user" when the request has none. *)
Definition parse (email password full_name : string) (role : option string) : t :=
  mk email password full_name (default "user" role).
End UserRegister.

Module UserLogin.
Record t := mk { email : string; password : string }.
End UserLogin.

Module TokenResponse.
Record t := mk
  { access_token : string; token_type : string; expires_in : Z; user_id : Z;
    email : string; role : string; full_name : string }.
End TokenResponse.

(** The claims [create_token] signs. *)
Module Claims.
Record t := mk { user_id : Z; email : string; role : string; exp : Z; iat : Z }.
End Claims.

(** A row of [users] as the statements of the authentication service read
    and write it; its primary key [id] is the key of the table map.  The
    table definition is not among the sources: the INSERT gives neither
    [id] nor [created_at] and reads both back with RETURNING, so [id] is
    taken from the sequence of the table and [created_at] from [NOW()];
    [last_login] is NULL until the first login. *)
Module Account.
Record t := mk
  { email : string; password_hash : string; full_name : string; role : string;
    created_at : Z; last_login : option Z }.
End Account.

(** The table and the next value of its sequence. *)
Record auth_store := mk_auth_store
  { accounts : gmap Z Account.t; accounts_seq : Z }.


(** No two accounts have the same email. *)
Definition unique_emails (s : auth_store) : Prop :=
  forall id1 id2 a1 a2,
    accounts s !! id1 = Some a1 -> accounts s !! id2 = Some a2 ->
    Account.email a1 = Account.email a2 -> id1 = id2.

(** Some account has this email. *)
Definition email_taken (email : string) (s : auth_store) : Prop :=
  exists id a, accounts s !! id = Some a /\ Account.email a = email.

Section Auth.

(** [bcrypt] and [jwt] are libraries: [salt] is what [bcrypt.gensalt()]
    draws, [bcrypt_checkpw] may raise (on a malformed hash), and
    [JWT_EXPIRATION] comes from the environment of the process. *)
Variable salt : Type.
Variable bcrypt_hashpw : bytes -> salt -> bytes.
Variable bcrypt_checkpw : bytes -> bytes -> result bool.
Variable jwt_encode : Claims.t -> string.
Variable JWT_EXPIRATION : Z.

(** What a request takes from outside: [NOW()] of the database, what the
    n-th reading of [datetime.utcnow()] in the request gives, in seconds,
    and the salt. *)
Record auth_env := mk_auth_env { db_now : Z; utcnow : nat -> Z; gensalt : salt }.

Definition hash_password (e : auth_env) (password : string) : result string :=
  match str_encode password with
  | Ok data => bytes_decode (bcrypt_hashpw data (gensalt e))
  | HTTPException c d => HTTPException c d
  | Raised x => Raised x
  end.

Definition verify_password (password hashed : string) : result bool :=
  match str_encode password with
  | Ok data =>
    match str_encode hashed with
    | Ok hash => bcrypt_checkpw data hash
    | HTTPException c d => HTTPException c d
    | Raised x => Raised x
    end
  | HTTPException c d => HTTPException c d
  | Raised x => Raised x
  end.

(** The clock is read twice, for [exp] first and then for [iat]. *)
Definition create_token (e : auth_env) (user_id : Z) (email role : string) : string :=
  jwt_encode (Claims.mk user_id email role (utcnow e 0 + JWT_EXPIRATION)
                        (utcnow e 1)).

(** [SELECT ... FROM users WHERE email = %s] followed by
    [cursor.fetchone()]; were several rows to have the email, which comes
    first is the choice of the database, here the order of the table map. *)
Definition select_by_email (email : string) (s : auth_store) : option (Z * Account.t) :=
  List.find (fun entry : Z * Account.t => String.eqb (Account.email (snd entry)) email)
            (map_to_list (accounts s)).

Definition register (e : auth_env) (user : UserRegister.t) (s : auth_store)
  : result TokenResponse.t * auth_store :=
  match select_by_email (UserRegister.email user) s with
  | Some _ => (HTTPException 400 "Email already registered", s)
  | None =>
    match hash_password e (UserRegister.password user) with
    | Ok password_hash =>
      let id := accounts_seq s in
      match accounts s !! id with
      | Some _ => (Raised UniqueViolation, s)
      | None =>
        let new_user :=
          Account.mk (UserRegister.email user) password_hash
            (UserRegister.full_name user) (UserRegister.role user) (db_now e) None in
        let token := create_token e id (Account.email new_user) (Account.role new_user) in
        (Ok (TokenResponse.mk token "bearer" JWT_EXPIRATION id
               (Account.email new_user) (Account.role new_user)
               (Account.full_name new_user)),
         mk_auth_store (<[id := new_user]> (accounts s)) (id + 1))
      end
    | HTTPException c d => (HTTPException c d, s)
    | Raised x => (Raised x, s)
    end
  end.

Definition set_last_login (now : Z) (a : Account.t) : Account.t :=
  Account.mk (Account.email a) (Account.password_hash a) (Account.full_name a)
    (Account.role a) (Account.created_at a) (Some now).

Definition login (e : auth_env) (credentials : UserLogin.t) (s : auth_store)
  : result TokenResponse.t * auth_store :=
  let denied := (HTTPException 401 "Invalid email or password", s) in
  match select_by_email (UserLogin.email credentials) s with
  | None => denied
  | Some (id, user) =>
    match verify_password (UserLogin.password credentials) (Account.password_hash user) with
    | Ok true =>
      let token := create_token e id (Account.email user) (Account.role user) in
      (Ok (TokenResponse.mk token "bearer" JWT_EXPIRATION id (Account.email user)
             (Account.role user) (Account.full_name user)),
       mk_auth_store (<[id := set_last_login (db_now e) user]> (accounts s))
                     (accounts_seq s))
    | Ok false => denied
    | HTTPException c d => (HTTPException c d, s)
    | Raised x => (Raised x, s)
    end
  end.

End Auth.

Arguments mk_auth_env {salt}.
Arguments db_now {salt}.
Arguments utcnow {salt}.
Arguments gensalt {salt}.
Arguments hash_password {salt}.
Arguments create_token {salt}.
Arguments register {salt}.
Arguments login {salt}.

(** [verify_token_endpoint]: the same check as [verify_token] of the
    secrets service, on a parameter that the framework requires, answering
    [{"valid": True, "user": payload}]. *)
Definition verify_token_endpoint {payload : Type}
    (jwt_decode : string -> jwt_outcome payload) (authorization : string)
  : result (bool * payload) :=
  match authorization with
  | EmptyString => HTTPException 401 "Missing token"
  | _ =>
    if negb (String.prefix "Bearer " authorization)
    then HTTPException 401 "Missing token"
    else
      match nth_error (split_on " " authorization) 1 with
      | None => Raised (OtherError "IndexError")
      | Some token =>
        match jwt_decode token with
        | Decoded p => Ok (true, p)
        | ExpiredSignatureError => HTTPException 401 "Token expired"
        | InvalidTokenError => HTTPException 401 "Invalid token"
        | JwtCrash e => Raised e
        end
      end
  end.

(** ** The web interface ([services/web-ui/app.py]) *)

(** The header the pages send: [f'Bearer {session["token"]}']. *)
Definition bearer (token : string) : string := "Bearer " +:+ token.

(** [session.get('user', {}).get('role') in ['admin', 'developer']] of
    [dashboard]: whether the page offers to create a secret. *)
Definition can_create (role : option string) : bool :=
  match role with
  | Some r => String.eqb r "admin" || String.eqb r "developer"
  | None => false
  end.

(** The identity the handlers of the secrets service read from the payload
    of the token: [user["user_id"]], [user["email"]], [user["role"]]. *)
Definition identity_of (c : Claims.t) : Identity.t :=
  Identity.mk (Claims.user_id c) (Claims.email c) (Claims.role c).

(** [str.strip()] on the UTF-8 bytes of a text.  The white space of Python
    is U+0009..U+000D, U+001C..U+0020 (one byte each), U+0085 and U+00A0
    (two bytes), U+1680, U+2000..U+200A, U+2028, U+2029, U+202F, U+205F and
    U+3000 (three bytes). *)
Definition space1 (c : ascii) : bool :=
  let n := N_of_ascii c in
  (((9 <=? n) && (n <=? 13)) || ((28 <=? n) && (n <=? 32)))%N.

Definition space2 (c0 c1 : ascii) : bool :=
  let b0 := N_of_ascii c0 in
  let b1 := N_of_ascii c1 in
  ((b0 =? 194) && ((b1 =? 133) || (b1 =? 160)))%N.

Definition space3 (c0 c1 c2 : ascii) : bool :=
  let b0 := N_of_ascii c0 in
  let b1 := N_of_ascii c1 in
  let b2 := N_of_ascii c2 in
  (((b0 =? 225) && (b1 =? 154) && (b2 =? 128))
   || ((b0 =? 226) && (b1 =? 128)
       && (((128 <=? b2) && (b2 <=? 138)) || (b2 =? 168) || (b2 =? 169)
           || (b2 =? 175)))
   || ((b0 =? 226) && (b1 =? 129) && (b2 =? 159))
   || ((b0 =? 227) && (b1 =? 128) && (b2 =? 128)))%N.

(** Dropping the white space at the head of the bytes; with [fwd] false the
    bytes are read from the end of the text, so every character has its
    bytes in reverse. *)
Fixpoint lstrip_with (fwd : bool) (l : list ascii) : list ascii :=
  match l with
  | [] => []
  | c0 :: r0 =>
    if space1 c0 then lstrip_with fwd r0
    else
      match r0 with
      | [] => l
      | c1 :: r1 =>
        if (if fwd then space2 c0 c1 else space2 c1 c0) then lstrip_with fwd r1
        else
          match r1 with
          | [] => l
          | c2 :: r2 =>
            if (if fwd then space3 c0 c1 c2 else space3 c2 c1 c0)
            then lstrip_with fwd r2
            else l
          end
      end
  end.

Definition py_strip (s : string) : string :=
  string_of_list_ascii
    (rev (lstrip_with false (rev (lstrip_with true (list_ascii_of_string s))))).

(** Lines 91-92 of [create_secret] of the web interface:
    [tags = request.form.get('tags', '').split(',')] and
    [[tag.strip() for tag in tags if tag.strip()]], on the text of the form
    field (empty when the form has none). *)
Definition form_tags (field : string) : list string :=
  map py_strip
    (List.filter (fun tag => negb (String.eqb (py_strip tag) EmptyString))
                 (split_on "," field)).

(** Whether the bytes begin with a white space character (read from the end
    when [fwd] is false). *)
Definition starts_space (fwd : bool) (l : list ascii) : bool :=
  match l with
  | [] => false
  | c0 :: r0 =>
    space1 c0
    || match r0 with
       | [] => false
       | c1 :: r1 =>
         (if fwd then space2 c0 c1 else space2 c1 c0)
         || match r1 with
            | [] => false
            | c2 :: _ => if fwd then space3 c0 c1 c2 else space3 c2 c1 c0
            end
       end
  end.

(** A tag as [form_tags] gives them: not empty, with no white space around
    it and no comma in it. *)
Definition clean_tag (t : string) : Prop :=
  t <> EmptyString /\ py_strip t = t /\ ~ In ","%char (list_ascii_of_string t).

(** ** Stand-ins for the database order, bcrypt and jwt

    Enough to run the services on concrete requests: a merge sort for
    [ORDER BY ... DESC], a hash that is the stand-in cipher's text, and a
    token service that knows one set of claims. *)
Module Sample.

Definition order_by_desc (A : Type) (key : A -> Z) (l : list A) : list A :=
  @merge_sort A (fun x y => (key y <= key x)%Z)
    (fun x y => decide (key y <= key x)%Z) l.

Definition hashpw (password : bytes) (_ : unit) : bytes :=
  Standin.encrypt tt password.

Definition checkpw (password hashed : bytes) : result bool :=
  Ok (String.eqb (string_of_list_byte (Standin.encrypt tt password))
                 (string_of_list_byte hashed)).

Definition claims_eqb (c c' : Claims.t) : bool :=
  (Claims.user_id c =? Claims.user_id c')%Z
  && String.eqb (Claims.email c) (Claims.email c')
  && String.eqb (Claims.role c) (Claims.role c')
  && (Claims.exp c =? Claims.exp c')%Z
  && (Claims.iat c =? Claims.iat c')%Z.

Definition dana_claims : Claims.t :=
  Claims.mk 1 "dana@example.org" "developer" 3700 101.

Definition jwt_encode (c : Claims.t) : string :=
  if claims_eqb c dana_claims then "dana.token" else "other.token".

Definition jwt_decode (token : string) : jwt_outcome Claims.t :=
  if String.eqb token "dana.token" then Decoded dana_claims
  else InvalidTokenError.

(** A request at time [t] whose clock advances by one between readings. *)
Definition auth_at (t : Z) : auth_env unit :=
  mk_auth_env t (fun k => (t + Z.of_nat k)%Z) tt.

Definition dana : UserRegister.t :=
  UserRegister.mk "dana@example.org" "s3cret" "Dana" "developer".

Definition dana_login : UserLogin.t := UserLogin.mk "dana@example.org" "s3cret".

Definition no_accounts : auth_store := mk_auth_store ∅ 1.

(** The accounts after dana has registered. *)
Definition dana_store : auth_store :=
  snd (register hashpw jwt_encode 3600 (auth_at 50) dana no_accounts).

Definition audit_at (t : Z) : audit_env :=
  mk_audit_env t "2024-05-01T10:00:00" true.

Definition view_by_carol : AuditLogCreate.t :=
  AuditLogCreate.mk 3 "carol@example.org" "VIEW" 5 "2024-05-01T09:59:59" None None.

Definition no_logs : audit_store := mk_audit_store [] [].

(** The log after carol's VIEW has been recorded. *)
Definition one_log : audit_store :=
  snd (create_audit_log (audit_at 7) view_by_carol no_logs).

(** The log after that VIEW, a DELETE and a second VIEW. *)
Definition delete_by_carol : AuditLogCreate.t :=
  AuditLogCreate.mk 3 "carol@example.org" "DELETE" 5 "2024-05-01T10:00:01" None None.

Definition three_logs : audit_store :=
  snd (create_audit_log (audit_at 9) view_by_carol
         (snd (create_audit_log (audit_at 8) delete_by_carol one_log))).

(** A second person, and the accounts after both have registered. *)
Definition erin : UserRegister.t :=
  UserRegister.mk "erin@example.org" "pa55word" "Erin" "user".

Definition two_accounts : auth_store :=
  snd (register hashpw jwt_encode 3600 (auth_at 60) erin dana_store).

(** A world with carol's secret and a secret of bob that has been updated
    once. *)
Definition bob_secret : Row.t :=
  Row.mk "deploy-key" "ssh_key" "GBGC" (Some "CI") (PyStr "[]") 2 2 3 8 None.

Definition bob_archived : VersionRow.t := VersionRow.mk 6 1 "GBGB" 2 8.

Definition shared_world : world :=
  mk_world (mk_tables (<[6%Z := bob_secret]> (<[5%Z := Standin.carol_row]> ∅)) 7
                      [bob_archived] Standin.people)
           [].

Definition bob_row : UserRow.t := UserRow.mk "bob@example.org" "Bob" "developer".
Definition carol_user : UserRow.t := UserRow.mk "carol@example.org" "Carol" "user".

(** Two updates of the value, one after the other. *)
Definition two_updates : list (env unit * SecretUpdate.t) :=
  [(Standin.env_at 11, Standin.new_value "hunter2");
   (Standin.env_at 12, Standin.new_value "hunter3")].

(** A text that is one lone surrogate, U+D800, as a JSON body can carry
    it. *)
Definition lone_surrogate : string :=
  String "237" (String "160" (String "128" EmptyString)).

(** Carol's secret after these two updates. *)
Definition updated_world : world :=
  snd (run_updates Standin.encrypt 5 Standin.carol two_updates Standin.carol_world).

Definition updated_row : Row.t :=
  default Standin.carol_row (secrets (store updated_world) !! 5%Z).

End Sample.

(** * Properties *)

(** ** Text and the cipher wrappers *)

Lemma ascii_utf8_decode (bs : bytes) :
  is_ascii_bytes bs = true ->
  utf8_decode (map Byte.to_N bs) = Some (map Byte.to_N bs).
Proof.
  induction bs as [|b bs IH]; simpl; [reflexivity|].
  intros [Hb Hbs]%andb_true_iff.
  rewrite Hb, (IH Hbs). reflexivity.
Qed.

Lemma ascii_utf8_valid (bs : bytes) :
  is_ascii_bytes bs = true -> utf8_valid bs = true.
Proof.
  intros H. unfold utf8_valid. rewrite (ascii_utf8_decode _ H).
  apply bool_decide_eq_true. eexists; reflexivity.
Qed.

Lemma bytes_decode_ascii (bs : bytes) :
  is_ascii_bytes bs = true -> bytes_decode bs = Ok (string_of_list_byte bs).
Proof. intros H. unfold bytes_decode. now rewrite (ascii_utf8_valid _ H). Qed.

Lemma decode_encode (s : string) :
  utf8_valid (utf8_bytes s) = true -> bytes_decode (utf8_bytes s) = Ok s.
Proof.
  intros H. unfold bytes_decode. rewrite H. unfold utf8_bytes.
  now rewrite string_of_list_byte_of_string.
Qed.

Lemma str_encode_ok (s : string) :
  utf8_valid (utf8_bytes s) = true -> str_encode s = Ok (utf8_bytes s).
Proof. intros H. unfold str_encode. now rewrite H. Qed.

Lemma str_encode_bad (s : string) :
  utf8_valid (utf8_bytes s) = false -> str_encode s = Raised UnicodeEncodeError.
Proof. intros H. unfold str_encode. now rewrite H. Qed.

(** Text decoded from bytes encodes to those bytes. *)
Lemma str_encode_decoded (bs : bytes) :
  utf8_valid bs = true -> str_encode (string_of_list_byte bs) = Ok bs.
Proof.
  intros H. unfold str_encode, utf8_bytes.
  rewrite list_byte_of_string_of_list_byte. now rewrite H.
Qed.

Lemma str_encode_ascii (bs : bytes) :
  is_ascii_bytes bs = true -> str_encode (string_of_list_byte bs) = Ok bs.
Proof. intros H. apply str_encode_decoded, ascii_utf8_valid, H. Qed.

Section Cipher.

Variable entropy : Type.
Variable fernet_encrypt : entropy -> bytes -> bytes.
Variable fernet_decrypt : bytes -> option bytes.

(** Fernet tokens are URL-safe base64 text. *)
Hypothesis token_ascii :
  forall i data, is_ascii_bytes (fernet_encrypt i data) = true.

Lemma encrypt_value_ok (i : entropy) (value : string) :
  utf8_valid (utf8_bytes value) = true ->
  encrypt_value fernet_encrypt i value
  = Ok (string_of_list_byte (fernet_encrypt i (utf8_bytes value))).
Proof.
  intros Hv. unfold encrypt_value. rewrite (str_encode_ok _ Hv).
  apply bytes_decode_ascii, token_ascii.
Qed.

(** Decrypting under the key that encrypted gives the data back. *)
Hypothesis decrypt_encrypt :
  forall i data, fernet_decrypt (fernet_encrypt i data) = Some data.

(** C8.  For every plaintext string [p] (a well-formed text, whatever the
    entropy the cipher draws), [encrypt_value] returns a ciphertext and
    [decrypt_value] of that ciphertext returns [p]. *)
Theorem decrypt_encrypt_value (i : entropy) (p : string) :
  utf8_valid (utf8_bytes p) = true ->
  exists c, encrypt_value fernet_encrypt i p = Ok c
            /\ decrypt_value fernet_decrypt c = Ok p.
Proof.
  intros Hp. eexists. split; [now apply encrypt_value_ok|].
  unfold decrypt_value.
  rewrite (str_encode_ascii _ (token_ascii i (utf8_bytes p))), decrypt_encrypt.
  now apply decode_encode.
Qed.

End Cipher.

Lemma standin_decrypt_encrypt (i : unit) (data : bytes) :
  Standin.decrypt (Standin.encrypt i data) = Some data.
Proof.
  induction data as [|b data IH]; [reflexivity|].
  change (Standin.encrypt i (b :: data))
    with (Standin.letter (Byte.to_N b / 16) :: Standin.letter (Byte.to_N b mod 16)
          :: Standin.encrypt i data).
  cbn [Standin.decrypt]. rewrite IH. destruct b; reflexivity.
Qed.

Lemma standin_token_ascii (i : unit) (data : bytes) :
  is_ascii_bytes (Standin.encrypt i data) = true.
Proof.
  induction data as [|b data IH]; [reflexivity|].
  change (Standin.encrypt i (b :: data))
    with (Standin.letter (Byte.to_N b / 16) :: Standin.letter (Byte.to_N b mod 16)
          :: Standin.encrypt i data).
  cbn [is_ascii_bytes forallb]. fold (is_ascii_bytes (Standin.encrypt i data)).
  rewrite IH. destruct b; reflexivity.
Qed.

(** The round trip of C8 on the value of the example scenario. *)
Lemma decrypt_encrypt_value_witness :
  exists c, encrypt_value Standin.encrypt tt "p@ss1" = Ok c
            /\ decrypt_value Standin.decrypt c = Ok "p@ss1".
Proof.
  apply (decrypt_encrypt_value unit Standin.encrypt Standin.decrypt
           standin_token_ascii standin_decrypt_encrypt tt "p@ss1").
  vm_compute. reflexivity.
Defined.

(** ** Tag decoding *)

Lemma parse_tags_ok (tags : pyval) : exists v, parse_tags tags = Ok v.
Proof.
  destruct tags; simpl; eauto.
  unfold try_except. destruct (json_loads s); eauto.
Qed.

(** C2 as amended.  [parse_tags] never raises; a stored list or tuple comes
    back as the list of its items; a string that [json.loads] rejects, be it
    a bare tag or a malformed serialisation, comes back as the one-element
    list holding that string; a string holding a JSON array comes back as
    the decoded list; [None] and every value that is neither a string, a
    list nor a tuple come back as the empty list. *)
Theorem parse_tags_normalizes (tags : pyval) :
  (exists v, parse_tags tags = Ok v)
  /\ (forall items, tags = PyList items \/ tags = PyTuple items ->
        parse_tags tags = Ok (PyList items))
  /\ (forall s, tags = PyStr s -> (forall v, json_loads s <> Ok v) ->
        parse_tags tags = Ok (PyList [PyStr s]))
  /\ (forall s items, tags = PyStr s -> json_loads s = Ok (PyList items) ->
        parse_tags tags = Ok (PyList items))
  /\ ((forall s, tags <> PyStr s) ->
      (forall items, tags <> PyList items /\ tags <> PyTuple items) ->
        parse_tags tags = Ok (PyList [])).
Proof.
  repeat split.
  - apply parse_tags_ok.
  - intros items [-> | ->]; reflexivity.
  - intros s -> Hbad. simpl. unfold try_except.
    destruct (json_loads s) as [v| |]; [now destruct (Hbad v)|reflexivity..].
  - intros s items -> Hs. simpl. now rewrite Hs.
  - intros Hstr Hseq. destruct tags; try reflexivity.
    + now destruct (Hstr s).
    + now destruct (Hseq items) as [? _].
    + now destruct (Hseq items) as [_ ?].
Qed.

Lemma parse_tags_normalizes_witness :
  parse_tags (PyStr "prod") = Ok (PyList [PyStr "prod"]).
Proof.
  apply (proj1 (proj2 (proj2 (parse_tags_normalizes (PyStr "prod")))) "prod" eq_refl).
  intros v. vm_compute. discriminate.
Defined.

(** C2 as stated fails on a malformed serialisation: an array that is never
    closed is rejected by [json.loads], and the decoder then answers the
    one-element list holding the text, not the empty list.  Nor is the
    answer always a list of strings: a stored text that is JSON but not an
    array is answered as decoded. *)
Lemma parse_tags_malformed_kept :
  (json_loads "[prod,db" = Raised JSONDecodeError
   /\ parse_tags (PyStr "[prod,db") = Ok (PyList [PyStr "[prod,db"])
   /\ parse_tags (PyStr "[prod,db") <> Ok (PyList []))
  /\ (parse_tags (PyStr "123") = Ok (PyInt 123)
      /\ is_str_list (PyInt 123) = false).
Proof. repeat split. vm_compute. discriminate. Qed.

(** The usual path: what [create_secret] stores is read back as stored. *)
Example parse_tags_of_dumps :
  parse_tags (PyStr (Json.json_dumps (Some ["prod"; "db team"])))
  = Ok (PyList [PyStr "prod"; PyStr "db team"]).
Proof. reflexivity. Qed.

(** ** Rotation values *)

Lemma secrets_choice_in (draw : nat) :
  In (secrets_choice draw alphabet) (list_ascii_of_string alphabet).
Proof.
  unfold secrets_choice. apply nth_In.
  change (String.length alphabet) with 70%nat.
  change (List.length (list_ascii_of_string alphabet)) with 70%nat.
  apply Nat.mod_upper_bound. discriminate.
Qed.


Lemma new_password_ascii {entropy} (e : env entropy) :
  is_ascii_bytes (utf8_bytes (new_password e)) = true.
Proof.
  unfold utf8_bytes, new_password, list_byte_of_string, is_ascii_bytes.
  rewrite list_ascii_of_string_of_list_ascii, forallb_forall.
  intros b [c [<- [k [<- _]]%in_map_iff]]%in_map_iff.
  assert (Hall : forallb (fun c => (Byte.to_N (byte_of_ascii c) <? 128)%N)
                         (list_ascii_of_string alphabet) = true) by reflexivity.
  rewrite forallb_forall in Hall. apply Hall, secrets_choice_in.
Qed.


(** ** The statements read and written by the handlers *)

Lemma select_owned_Some (secret_id uid : Z) (t : tables) (r : Row.t) :
  select_owned secret_id uid t = Some r
  <-> secrets t !! secret_id = Some r /\ Row.owner_id r = uid
      /\ Row.deleted_at r = None.
Proof.
  unfold select_owned, is_live. split.
  - destruct (secrets t !! secret_id) as [r0|]; [|discriminate].
    destruct (Z.eqb_spec (Row.owner_id r0) uid); [|discriminate].
    destruct (Row.deleted_at r0) eqn:Hd; [discriminate|].
    simpl. intros [= <-]. auto.
  - intros (-> & <- & ->). now rewrite Z.eqb_refl.
Qed.

Lemma select_owned_None (secret_id uid : Z) (t : tables) :
  select_owned secret_id uid t = None
  <-> secrets t !! secret_id = None
      \/ exists r, secrets t !! secret_id = Some r
                   /\ (Row.owner_id r <> uid \/ Row.deleted_at r <> None).
Proof.
  unfold select_owned, is_live.
  destruct (secrets t !! secret_id) as [r|]; [|intuition].
  destruct (Z.eqb_spec (Row.owner_id r) uid) as [Ho|Ho];
    destruct (Row.deleted_at r) eqn:Hd; simpl; split;
    try discriminate; try (intros _; right; eexists; split; [reflexivity|]);
    try (now left); try (now right; rewrite Hd);
    intros [[=] | (r0 & [= <-] & [H | H])]; congruence.
Qed.

Section Handlers.

Variable entropy : Type.
Variable fernet_encrypt : entropy -> bytes -> bytes.
Variable fernet_decrypt : bytes -> option bytes.

Implicit Types (e : env entropy) (st : state) (w : world) (user : Identity.t).

(** The audit emitter always returns, and touches nothing but the audit
    service and the count of posts. *)
Lemma log_audit_eq e uid action sid mail st :
  log_audit e uid action sid mail st
  = (Ok tt,
     mk_state (committed st) (pending st)
       (if received (network e (posts st))
        then sink st ++ [mk_event uid mail action sid (wall_clock e (posts st))]
        else sink st)
       (S (posts st))).
Proof.
  unfold log_audit, try_pass, requests_post.
  destruct (raises _); reflexivity.
Qed.

(** *** update_secret *)

Lemma update_secret_missing e secret_id u user st :
  select_owned secret_id (Identity.user_id user) (pending st) = None ->
  update_secret fernet_encrypt e secret_id u user st = (NotFoundError, st).
Proof.
  intros Hsel. unfold update_secret, bind, query. now rewrite Hsel.
Qed.

(** What [update_secret] does on a live secret of the caller, in terms of
    the outcome of the one encryption it may perform. *)
Lemma update_secret_owned e secret_id u user st r :
  select_owned secret_id (Identity.user_id user) (pending st) = Some r ->
  exists snk,
    update_secret fernet_encrypt e secret_id u user st
    = match (if value_changing u
             then encrypt_value fernet_encrypt (iv e) (value_of u)
             else Ok EmptyString) with
      | Ok enc =>
        let t' := tables_after_update (now e) secret_id (Identity.user_id user)
                    r (row_after (now e) u enc r) (pending st) in
        (Ok (Updated.mk "Secret updated successfully"
                        (Row.version (row_after (now e) u enc r))),
         mk_state t' t' snk (S (posts st)))
      | HTTPException c d =>
        (HTTPException c d,
         mk_state (committed st)
           (archive_row (now e) secret_id (Identity.user_id user) r (pending st))
           (sink st) (posts st))
      | Raised x =>
        (Raised x,
         mk_state (committed st)
           (archive_row (now e) secret_id (Identity.user_id user) r (pending st))
           (sink st) (posts st))
      end.
Proof.
  intros Hsel.
  pose proof (proj1 (select_owned_Some _ _ _ _) Hsel) as (Hr & Ho & Hd).
  unfold update_secret, tables_after_update, archive_row.
  cbv beta iota zeta delta [bind query lift ret execute commit insert_version
                            update_returning].
  rewrite Hsel. cbn [pending secrets committed sink posts].
  destruct u as [[[|c v]|] d tgs];
    cbn [truthy value_changing value_of default SecretUpdate.value
         SecretUpdate.description SecretUpdate.tags].
  all: try (destruct (encrypt_value _ _ _) as [enc| |];
            [|exists []; reflexivity..]).
  all: destruct d, tgs; eexists; cbn [pending secrets committed sink posts];
    rewrite Hr, Ho, Z.eqb_refl, log_audit_eq; reflexivity.
Qed.

(** *** delete_secret *)

Lemma delete_secret_missing e secret_id user st :
  select_owned secret_id (Identity.user_id user) (pending st) = None ->
  delete_secret e secret_id user st = (NotFoundError, st).
Proof.
  intros Hsel. unfold delete_secret, bind, mark_deleted. now rewrite Hsel.
Qed.

Lemma delete_secret_owned e secret_id user st r :
  select_owned secret_id (Identity.user_id user) (pending st) = Some r ->
  exists snk,
    let t' := mk_tables (<[secret_id := set_deleted_at (now e) r]> (secrets (pending st)))
                (secrets_seq (pending st)) (secret_versions (pending st))
                (users (pending st)) in
    delete_secret e secret_id user st
    = (Ok "Secret deleted successfully", mk_state t' t' snk (S (posts st))).
Proof.
  intros Hsel. eexists. unfold delete_secret.
  cbv beta iota zeta delta [bind mark_deleted commit ret].
  rewrite Hsel. cbn [Z.eqb]. rewrite log_audit_eq. reflexivity.
Qed.

(** *** rotate_secret *)

Lemma rotate_secret_eq e secret_id user st :
  rotate_secret fernet_encrypt e secret_id user st
  = match update_secret fernet_encrypt e secret_id
            (SecretUpdate.mk (Some (new_password e)) None None) user st with
    | (Ok _, st') =>
      (Ok (Rotated.mk "Secret rotated successfully" (new_password e)),
       snd (log_audit e (Identity.user_id user) "ROTATE" secret_id
                      (Identity.email user) st'))
    | (HTTPException c d, st') => (HTTPException c d, st')
    | (Raised x, st') => (Raised x, st')
    end.
Proof.
  unfold rotate_secret, bind at 1.
  destruct (update_secret _ _ _ _ _ _) as [[r | c d | x] st']; try reflexivity.
  unfold bind, ret. now rewrite log_audit_eq.
Qed.

(** *** create_secret *)

Lemma create_secret_user e secret user st :
  Identity.role user = "user" ->
  create_secret fernet_encrypt e secret user st = (ForbiddenError, st).
Proof. intros Hrole. unfold create_secret. now rewrite Hrole. Qed.

Lemma create_secret_other e secret user st :
  Identity.role user <> "user" ->
  create_secret fernet_encrypt e secret user st
  = match encrypt_value fernet_encrypt (iv e) (SecretCreate.value secret) with
    | Ok enc =>
      let t := pending st in
      let id := secrets_seq t in
      match secrets t !! id with
      | Some _ => (Raised UniqueViolation, st)
      | None =>
        let row := Row.mk (SecretCreate.name secret) (SecretCreate.type secret)
                     enc (SecretCreate.description secret)
                     (PyStr (Json.json_dumps (SecretCreate.tags secret)))
                     (Identity.user_id user) 1 (now e) (now e) None in
        let t' := mk_tables (<[id := row]> (secrets t)) (id + 1)
                    (secret_versions t) (users t) in
        let st' := snd (log_audit e (Identity.user_id user) "CREATE" id
                          (Identity.email user)
                          (mk_state t' t' (sink st) (posts st))) in
        match parse_tags (PyStr (Json.json_dumps (SecretCreate.tags secret))) with
        | Ok tags =>
          (Ok (SecretResponse.mk id (SecretCreate.name secret)
                 (SecretCreate.type secret) (SecretCreate.description secret)
                 tags (now e) (now e) 1 (Identity.email user)), st')
        | HTTPException c d => (HTTPException c d, st')
        | Raised x => (Raised x, st')
        end
      end
    | HTTPException c d => (HTTPException c d, st)
    | Raised x => (Raised x, st)
    end.
Proof.
  intros Hrole. unfold create_secret.
  destruct (String.eqb_spec (Identity.role user) "user") as [|_]; [easy|].
  cbv beta iota zeta delta [bind lift ret insert_secret commit].
  destruct (encrypt_value _ _ _) as [enc| |]; try reflexivity.
  destruct (secrets (pending st) !! secrets_seq (pending st)); [reflexivity|].
  cbn [fst snd pending committed sink posts Row.tags Row.name Row.type
       Row.description Row.created_at Row.updated_at Row.version].
  rewrite log_audit_eq. cbn [snd].
  destruct (parse_tags _); reflexivity.
Qed.

(** *** get_secret *)

Lemma get_secret_hidden e secret_id show user st :
  visible_row secret_id user (pending st) = None ->
  get_secret fernet_decrypt e secret_id show user st = (NotFoundError, st).
Proof.
  unfold visible_row, get_secret, bind at 1. intros H.
  destruct (String.eqb _ _); unfold query; now rewrite H.
Qed.

Lemma get_secret_visible e secret_id show user st row mail :
  visible_row secret_id user (pending st) = Some (row, mail) ->
  fst (get_secret fernet_decrypt e secret_id show user st) <> NotFoundError.
Proof.
  unfold visible_row, get_secret, bind at 1. intros H.
  assert (Hq : (if String.eqb (Identity.role user) "admin"
                then query (select_any_joined secret_id)
                else query (select_owned_joined secret_id (Identity.user_id user))) st
               = (Ok (Some (row, mail)), st)).
  { destruct (String.eqb _ _); unfold query; now rewrite H. }
  rewrite Hq. cbv beta iota zeta delta [bind lift ret].
  rewrite log_audit_eq.
  destruct (parse_tags_ok (Row.tags row)) as [tags ->].
  destruct show; [|discriminate].
  unfold decrypt_value, bytes_decode, str_encode.
  destruct (utf8_valid (utf8_bytes _)); [|discriminate].
  destruct (fernet_decrypt _) as [data|]; [|discriminate].
  destruct (utf8_valid data); discriminate.
Qed.

(** *** Whole requests *)

Lemma run_request_eq {A} (h : M A) w r st :
  h (mk_state (store w) (store w) (audit_sink w) 0) = (r, st) ->
  run_request h w = (r, mk_world (committed st) (sink st)).
Proof. unfold run_request. now intros ->. Qed.

Lemma encrypt_value_cases (i : entropy) (v : string) :
  (exists c, encrypt_value fernet_encrypt i v = Ok c)
  \/ encrypt_value fernet_encrypt i v = Raised UnicodeDecodeError
  \/ encrypt_value fernet_encrypt i v = Raised UnicodeEncodeError.
Proof.
  unfold encrypt_value, bytes_decode, str_encode.
  destruct (utf8_valid (utf8_bytes v)); [|auto].
  destruct (utf8_valid _); eauto.
Qed.

(** C3.  Whoever calls, an admin included, [update_secret] answers
    [NotFoundError] and changes nothing when the secret is absent,
    soft-deleted or owned by somebody else; and it answers that error in
    no other case, so only the owner can update. *)
Theorem update_only_by_owner e secret_id u user w :
  (not_owned_live secret_id (Identity.user_id user) (store w) ->
     run_request (update_secret fernet_encrypt e secret_id u user) w
     = (NotFoundError, w))
  /\ (fst (run_request (update_secret fernet_encrypt e secret_id u user) w)
        = NotFoundError ->
      not_owned_live secret_id (Identity.user_id user) (store w)).
Proof.
  split.
  - intros H%select_owned_None.
    rewrite (run_request_eq _ _ _ _ (update_secret_missing e _ u user
               (mk_state (store w) (store w) (audit_sink w) 0) H)).
    now destruct w.
  - intros Hres. apply select_owned_None.
    destruct (select_owned secret_id (Identity.user_id user) (store w))
      as [r|] eqn:Hsel; [exfalso|reflexivity].
    destruct (update_secret_owned e secret_id u user
                (mk_state (store w) (store w) (audit_sink w) 0) r Hsel)
      as [snk Heq].
    revert Hres. unfold run_request. rewrite Heq.
    destruct (value_changing u); [|discriminate].
    destruct (encrypt_value_cases (iv e) (value_of u)) as [[c ->] | [-> | ->]];
      discriminate.
Qed.

Lemma visible_row_None secret_id user (t : tables) :
  (forall r, secrets t !! secret_id = Some r ->
             is_Some (users t !! Row.owner_id r)) ->
  visible_row secret_id user t = None <-> hidden_from secret_id user t.
Proof.
  intros Hfk. unfold visible_row, hidden_from, select_any_joined,
    select_owned_joined, is_live.
  destruct (secrets t !! secret_id) as [r|] eqn:Hr.
  2: { destruct (String.eqb _ _); intuition. }
  destruct (Hfk r eq_refl) as [owner ->]. split.
  - intros H. right. exists r. split; [reflexivity|].
    destruct (Row.deleted_at r); [left; discriminate|right].
    destruct (String.eqb_spec (Identity.role user) "admin"); [discriminate|].
    destruct (Z.eqb_spec (Row.owner_id r) (Identity.user_id user));
      [discriminate|auto].
  - intros [[=] | (r0 & [= <-] & [Hd | [Hadm Ho]])].
    + destruct (Row.deleted_at r); [|congruence].
      destruct (String.eqb _ _); [reflexivity|]. now rewrite andb_false_r.
    + apply String.eqb_neq in Hadm. apply Z.eqb_neq in Ho.
      now rewrite Hadm, Ho.
Qed.

(** C4.  With every owner present in [users], [get_secret] answers
    [NotFoundError], one and the same value, exactly when the secret is
    absent, or soft-deleted, or owned by somebody else while the caller
    is not an admin; in these cases nothing changes and nothing is
    audited. *)
Theorem get_not_found_iff e secret_id show user w :
  (forall r, secrets (store w) !! secret_id = Some r ->
             is_Some (users (store w) !! Row.owner_id r)) ->
  (hidden_from secret_id user (store w) ->
     run_request (get_secret fernet_decrypt e secret_id show user) w
     = (HTTPException 404 "Secret not found", w))
  /\ (fst (run_request (get_secret fernet_decrypt e secret_id show user) w)
        = NotFoundError ->
      hidden_from secret_id user (store w)).
Proof.
  intros Hfk. split.
  - intros H%(visible_row_None _ _ _ Hfk).
    rewrite (run_request_eq _ _ _ _ (get_secret_hidden e _ show user
               (mk_state (store w) (store w) (audit_sink w) 0) H)).
    now destruct w.
  - intros Hres. apply (visible_row_None _ _ _ Hfk).
    destruct (visible_row secret_id user (store w)) as [[row mail]|] eqn:Hv;
      [exfalso|reflexivity].
    apply (get_secret_visible e secret_id show user
             (mk_state (store w) (store w) (audit_sink w) 0) row mail Hv).
    revert Hres. unfold run_request.
    now destruct (get_secret _ _ _ _ _ _).
Qed.

(** C5.  [create_secret] answers [ForbiddenError] exactly when the role of
    the caller is "user".  For an admin or a developer whose value is
    well-formed text (one that [value.encode()] accepts), the cipher giving
    text tokens and the sequence of the table giving an unused id, it
    returns a secret with version 1 and stores it as a live row of the
    caller with version 1.  A value that [value.encode()] refuses is
    answered with that error, whatever the role but "user", and nothing is
    stored. *)
Theorem create_forbidden_iff_user e secret user w :
  (fst (run_request (create_secret fernet_encrypt e secret user) w)
     = ForbiddenError <-> Identity.role user = "user")
  /\ (Identity.role user = "admin" \/ Identity.role user = "developer" ->
      (forall i data, is_ascii_bytes (fernet_encrypt i data) = true) ->
      utf8_valid (utf8_bytes (SecretCreate.value secret)) = true ->
      secrets (store w) !! secrets_seq (store w) = None ->
      exists resp row,
        fst (run_request (create_secret fernet_encrypt e secret user) w) = Ok resp
        /\ SecretResponse.version resp = 1%Z
        /\ secrets (store (snd (run_request
               (create_secret fernet_encrypt e secret user) w)))
             !! SecretResponse.id resp = Some row
        /\ Row.version row = 1%Z
        /\ Row.owner_id row = Identity.user_id user
        /\ Row.deleted_at row = None)
  /\ (Identity.role user <> "user" ->
      utf8_valid (utf8_bytes (SecretCreate.value secret)) = false ->
      run_request (create_secret fernet_encrypt e secret user) w
      = (Raised UnicodeEncodeError, w)).
Proof.
  set (st0 := mk_state (store w) (store w) (audit_sink w) 0).
  split; [split|split].
  - intros Hres.
    destruct (String.eqb_spec (Identity.role user) "user") as [|Hrole]; [easy|].
    exfalso. revert Hres. unfold run_request. fold st0.
    rewrite (create_secret_other e secret user st0 Hrole).
    destruct (encrypt_value_cases (iv e) (SecretCreate.value secret))
      as [[c ->] | [-> | ->]]; [|discriminate..].
    cbv zeta. subst st0. cbn [pending sink posts committed].
    destruct (secrets (store w) !! secrets_seq (store w)); [discriminate|].
    destruct (parse_tags_ok (PyStr (Json.json_dumps (SecretCreate.tags secret))))
      as [tags ->].
    discriminate.
  - intros Hrole. unfold run_request. fold st0.
    now rewrite (create_secret_user e secret user st0 Hrole).
  - intros Hrole Hascii Hvalue Hfresh.
    assert (Hnot : Identity.role user <> "user")
      by (destruct Hrole as [-> | ->]; discriminate).
    unfold run_request. fold st0.
    rewrite (create_secret_other e secret user st0 Hnot).
    rewrite (encrypt_value_ok entropy fernet_encrypt Hascii _ _ Hvalue).
    cbv zeta. subst st0. cbn [pending sink posts committed]. rewrite Hfresh.
    destruct (parse_tags_ok (PyStr (Json.json_dumps (SecretCreate.tags secret))))
      as [tags ->].
    rewrite log_audit_eq. cbn [fst snd store committed pending].
    eexists _, _. split; [reflexivity|]. split; [reflexivity|].
    cbn [SecretResponse.id secrets].
    rewrite lookup_insert_eq. repeat split; reflexivity.
  - intros Hnot Hvalue. unfold run_request. fold st0.
    rewrite (create_secret_other e secret user st0 Hnot).
    unfold encrypt_value. rewrite (str_encode_bad _ Hvalue).
    subst st0. now destruct w.
Qed.

(** *** Rows are never removed *)



Lemma store_run_request {A} (h : M A) w :
  store (snd (run_request h w))
  = committed (snd (h (mk_state (store w) (store w) (audit_sink w) 0))).
Proof. unfold run_request. now destruct (h _). Qed.

Lemma fst_run_request {A} (h : M A) w :
  fst (run_request h w)
  = fst (h (mk_state (store w) (store w) (audit_sink w) 0)).
Proof. unfold run_request. now destruct (h _). Qed.




(** A rotation leaves the tables as the update with the generated value
    does, and succeeds when that update does. *)
Lemma rotate_as_update e secret_id user w :
  let u := SecretUpdate.mk (Some (new_password e)) None None in
  store (snd (run_request (rotate_secret fernet_encrypt e secret_id user) w))
  = store (snd (run_request (update_secret fernet_encrypt e secret_id u user) w))
  /\ match fst (run_request (update_secret fernet_encrypt e secret_id u user) w) with
     | Ok _ =>
       fst (run_request (rotate_secret fernet_encrypt e secret_id user) w)
       = Ok (Rotated.mk "Secret rotated successfully" (new_password e))
     | HTTPException c d =>
       fst (run_request (rotate_secret fernet_encrypt e secret_id user) w)
       = HTTPException c d
     | Raised x =>
       fst (run_request (rotate_secret fernet_encrypt e secret_id user) w)
       = Raised x
     end.
Proof.
  cbv zeta. rewrite !store_run_request, !fst_run_request, rotate_secret_eq.
  destruct (update_secret _ _ _ _ _ _) as [[r | c d | x] st'];
    rewrite ?log_audit_eq; split; reflexivity.
Qed.


Lemma get_reads_only e secret_id show user w :
  store (snd (run_request (get_secret fernet_decrypt e secret_id show user) w))
  = store w.
Proof.
  rewrite store_run_request.
  set (st0 := mk_state (store w) (store w) (audit_sink w) 0).
  unfold get_secret, bind at 1.
  assert (Hq : (if String.eqb (Identity.role user) "admin"
                then query (select_any_joined secret_id)
                else query (select_owned_joined secret_id (Identity.user_id user)))
                 st0
               = (Ok (visible_row secret_id user (store w)), st0)).
  { unfold visible_row. now destruct (String.eqb _ _). }
  rewrite Hq. destruct (visible_row _ _ _) as [[row mail]|]; [|reflexivity].
  cbv beta iota zeta delta [bind lift ret]. rewrite log_audit_eq.
  destruct (parse_tags _); try reflexivity.
  destruct show; [|reflexivity].
  destruct (decrypt_value _ _); reflexivity.
Qed.


(** *** The sequence stays ahead of the ids in use

    so that the id [create_secret] draws is never taken: the assumption of
    C5 holds in every state reached from empty tables. *)

Lemma seq_ahead_empty (seq : Z) vs us : seq_ahead (mk_tables ∅ seq vs us).
Proof. intros id [r Hr]. cbn in Hr. now rewrite lookup_empty in Hr. Qed.

Lemma seq_ahead_fresh (t : tables) :
  seq_ahead t -> secrets t !! secrets_seq t = None.
Proof.
  intros H. destruct (secrets t !! secrets_seq t) as [r|] eqn:Hr; [|reflexivity].
  assert (secrets_seq t < secrets_seq t)%Z by (apply H; eauto). lia.
Qed.

Lemma seq_ahead_overwrite (t : tables) id r vs us :
  seq_ahead t -> is_Some (secrets t !! id) ->
  seq_ahead (mk_tables (<[id := r]> (secrets t)) (secrets_seq t) vs us).
Proof.
  intros H Hid id'. cbn [secrets secrets_seq].
  destruct (decide (id = id')) as [<-|Hne].
  - intros _. now apply H.
  - rewrite lookup_insert_ne by assumption. apply H.
Qed.

Lemma seq_ahead_append (t : tables) r vs us :
  seq_ahead t ->
  seq_ahead (mk_tables (<[secrets_seq t := r]> (secrets t)) (secrets_seq t + 1) vs us).
Proof.
  intros H id'. cbn [secrets secrets_seq].
  destruct (decide (secrets_seq t = id')) as [<-|Hne]; [lia|].
  rewrite lookup_insert_ne by assumption. intros Hid. specialize (H _ Hid). lia.
Qed.

Lemma handlers_keep_seq_ahead e secret_id secret u show user w :
  seq_ahead (store w) ->
  seq_ahead (store (snd (run_request (create_secret fernet_encrypt e secret user) w)))
  /\ seq_ahead (store (snd (run_request
                  (update_secret fernet_encrypt e secret_id u user) w)))
  /\ seq_ahead (store (snd (run_request (delete_secret e secret_id user) w)))
  /\ seq_ahead (store (snd (run_request
                  (rotate_secret fernet_encrypt e secret_id user) w)))
  /\ seq_ahead (store (snd (run_request
                  (get_secret fernet_decrypt e secret_id show user) w))).
Proof.
  intros Hw.
  assert (Hupd : forall u',
           seq_ahead (store (snd (run_request
                        (update_secret fernet_encrypt e secret_id u' user) w)))).
  { intros u'. rewrite store_run_request.
    destruct (select_owned secret_id (Identity.user_id user) (store w))
      as [r|] eqn:Hsel.
    - destruct (update_secret_owned e secret_id u' user
                  (mk_state (store w) (store w) (audit_sink w) 0) r Hsel)
        as [snk ->].
      apply select_owned_Some in Hsel as (Hr & _ & _).
      destruct (if value_changing u' then _ else _); [|assumption..].
      apply seq_ahead_overwrite; eauto.
    - now rewrite (update_secret_missing e secret_id u' user
                     (mk_state (store w) (store w) (audit_sink w) 0) Hsel). }
  repeat split.
  - rewrite store_run_request.
    destruct (String.eqb_spec (Identity.role user) "user") as [Hrole|Hrole].
    + now rewrite (create_secret_user e secret user _ Hrole).
    + rewrite (create_secret_other e secret user _ Hrole).
      destruct (encrypt_value _ _ _); [|assumption..].
      cbv zeta. cbn [pending sink posts committed].
      rewrite (seq_ahead_fresh _ Hw), log_audit_eq.
      destruct (parse_tags _); now apply seq_ahead_append.
  - apply Hupd.
  - rewrite store_run_request.
    destruct (select_owned secret_id (Identity.user_id user) (store w))
      as [r|] eqn:Hsel.
    + destruct (delete_secret_owned e secret_id user
                  (mk_state (store w) (store w) (audit_sink w) 0) r Hsel)
        as [snk ->].
      apply select_owned_Some in Hsel as (Hr & _ & _).
      apply seq_ahead_overwrite; eauto.
    + now rewrite (delete_secret_missing e secret_id user
                     (mk_state (store w) (store w) (audit_sink w) 0) Hsel).
  - rewrite (proj1 (rotate_as_update e secret_id user w)). apply Hupd.
  - now rewrite get_reads_only.
Qed.

End Handlers.

(** ** Updates by the owner, and the version history *)

Lemma versions_before_all_changing (v : Z) (run : list SecretUpdate.t) :
  forallb value_changing run = true ->
  versions_before v run = map (fun k => (v + Z.of_nat k)%Z) (seq 0 (List.length run))
  /\ count_value_changing run = List.length run.
Proof.
  unfold count_value_changing. revert v.
  induction run as [|u run IH]; intros v; simpl; [auto|].
  intros [Hu Hrun]%andb_true_iff. rewrite Hu.
  destruct (IH (v + 1)%Z Hrun) as [-> Hcount]. simpl. split.
  - rewrite Z.add_0_r. f_equal. rewrite <- seq_shift, map_map.
    apply map_ext. intros k. lia.
  - now rewrite Hcount.
Qed.

Lemma count_value_changing_cons (u : SecretUpdate.t) (run : list SecretUpdate.t) :
  Z.of_nat (count_value_changing (u :: run))
  = ((if value_changing u then 1 else 0) + Z.of_nat (count_value_changing run))%Z.
Proof.
  unfold count_value_changing. simpl. destruct (value_changing u); simpl; lia.
Qed.

Lemma archived_after_update now secret_id uid r r' (t : tables) :
  archived secret_id (tables_after_update now secret_id uid r r' t)
  = archived secret_id t
    ++ [VersionRow.mk secret_id (Row.version r) (Row.encrypted_value r) uid now].
Proof.
  unfold archived, tables_after_update. cbn [secret_versions].
  rewrite List.filter_app. cbn. now rewrite Z.eqb_refl.
Qed.

Lemma select_owned_after_update now secret_id uid r u enc (t : tables) :
  Row.owner_id r = uid -> Row.deleted_at r = None ->
  select_owned secret_id uid
    (tables_after_update now secret_id uid r (row_after now u enc r) t)
  = Some (row_after now u enc r).
Proof.
  intros Ho Hd. apply select_owned_Some. unfold tables_after_update.
  cbn [secrets]. rewrite lookup_insert_eq. auto.
Qed.

Section Owner.

Variable entropy : Type.
Variable fernet_encrypt : entropy -> bytes -> bytes.

(** Fernet tokens are URL-safe base64 text. *)
Hypothesis token_ascii :
  forall i data, is_ascii_bytes (fernet_encrypt i data) = true.

Implicit Types (e : env entropy) (w : world) (user : Identity.t).

(** One update of a live secret by its owner, with a value that can be
    encoded. *)
Lemma update_step e secret_id u user w r :
  select_owned secret_id (Identity.user_id user) (store w) = Some r ->
  encodable u = true ->
  let r' := row_after (now e) u (token fernet_encrypt e u) r in
  exists snk,
    run_request (update_secret fernet_encrypt e secret_id u user) w
    = (Ok (Updated.mk "Secret updated successfully" (Row.version r')),
       mk_world (tables_after_update (now e) secret_id (Identity.user_id user)
                   r r' (store w)) snk).
Proof.
  intros Hsel Hu. cbv zeta.
  destruct (update_secret_owned entropy fernet_encrypt e secret_id u user
              (mk_state (store w) (store w) (audit_sink w) 0) r Hsel)
    as [snk Heq].
  unfold run_request. rewrite Heq.
  rewrite (encrypt_value_ok entropy fernet_encrypt token_ascii _ _ Hu).
  exists snk. unfold row_after, token.
  destruct (value_changing u); reflexivity.
Qed.


Lemma versions_of_archive_of_run secret_id uid
    (run : list (env entropy * SecretUpdate.t)) :
  forall r,
    map VersionRow.version (archive_of_run fernet_encrypt secret_id uid r run)
    = versions_before (Row.version r) (map snd run).
Proof.
  induction run as [|[e u] run IH]; intros r; [reflexivity|].
  cbn [archive_of_run map snd versions_before VersionRow.version].
  now rewrite IH.
Qed.

Lemma run_updates_history secret_id user (run : list (env entropy * SecretUpdate.t)) :
  forallb encodable (map snd run) = true ->
  forall w r,
    select_owned secret_id (Identity.user_id user) (store w) = Some r ->
    let out := run_updates fernet_encrypt secret_id user run w in
    Forall (fun x => is_ok x = true) (fst out)
    /\ List.length (fst out) = List.length run
    /\ exists r',
        select_owned secret_id (Identity.user_id user) (store (snd out)) = Some r'
        /\ Row.version r'
           = (Row.version r + Z.of_nat (count_value_changing (map snd run)))%Z
        /\ archived secret_id (store (snd out))
           = archived secret_id (store w)
             ++ archive_of_run fernet_encrypt secret_id (Identity.user_id user) r run.
Proof.
  induction run as [|[e u] run IH]; intros Henc w r Hsel; cbn zeta.
  - cbn. repeat split; [constructor|]. exists r.
    rewrite app_nil_r. repeat split; [assumption|lia].
  - cbn [run_updates]. cbn [map snd forallb] in Henc.
    apply andb_true_iff in Henc as [Hu Henc]. specialize (IH Henc).
    destruct (update_step e secret_id u user w r Hsel Hu) as (snk & ->).
    pose proof (proj1 (select_owned_Some _ _ _ _) Hsel) as (Hr & Ho & Hd).
    set (r1 := row_after (now e) u (token fernet_encrypt e u) r).
    specialize (IH (mk_world (tables_after_update (now e) secret_id
                                (Identity.user_id user) r r1 (store w)) snk)
                   _ (select_owned_after_update (now e) secret_id _ r u _
                        (store w) Ho Hd)).
    cbn zeta in IH. cbn [store] in IH.
    destruct (run_updates _ _ _ _ _) as [rs w2].
    destruct IH as (Hok & Hlen & r' & Hsel' & Hver & Harch).
    cbn [fst snd] in *. repeat split.
    + constructor; [reflexivity|assumption].
    + cbn. now rewrite Hlen.
    + exists r'. split; [assumption|]. split.
      * rewrite Hver. cbn [map snd]. rewrite count_value_changing_cons.
        unfold r1, row_after. cbn [Row.version].
        destruct (value_changing u); lia.
      * rewrite Harch, archived_after_update, <- app_assoc. reflexivity.
Qed.

(** C1 as amended.  On a live secret, every update of a run by its owner
    whose values are well-formed text (text that [value.encode()] accepts)
    succeeds and archives exactly one row, carrying the version and the
    ciphertext the secret had just before it, be the update value-changing
    or metadata-only; after the run the version is the starting one plus
    the number of value-changing updates.  Hence, for a secret at version 1
    with an empty archive and a run of N updates that are all
    value-changing, the version is N+1 and the archive holds exactly N
    rows, with the versions 1..N. *)
Theorem update_version_history secret_id user
    (run : list (env entropy * SecretUpdate.t)) w r :
  secrets (store w) !! secret_id = Some r ->
  Row.owner_id r = Identity.user_id user ->
  Row.deleted_at r = None ->
  forallb encodable (map snd run) = true ->
  let updates := map snd run in
  let out := run_updates fernet_encrypt secret_id user run w in
  Forall (fun x => is_ok x = true) (fst out)
  /\ List.length (fst out) = List.length run
  /\ exists r',
      secrets (store (snd out)) !! secret_id = Some r'
      /\ Row.version r'
         = (Row.version r + Z.of_nat (count_value_changing updates))%Z
      /\ archived secret_id (store (snd out))
         = archived secret_id (store w)
           ++ archive_of_run fernet_encrypt secret_id (Identity.user_id user) r run
      /\ map VersionRow.version
           (archive_of_run fernet_encrypt secret_id (Identity.user_id user) r run)
         = versions_before (Row.version r) updates
      /\ (Row.version r = 1%Z -> archived secret_id (store w) = [] ->
          forallb value_changing updates = true ->
          Row.version r' = (Z.of_nat (List.length run) + 1)%Z
          /\ List.length (archived secret_id (store (snd out))) = List.length run
          /\ map VersionRow.version (archived secret_id (store (snd out)))
             = map Z.of_nat (seq 1 (List.length run))).
Proof.
  intros Hr Ho Hd Henc updates out.
  pose proof (proj2 (select_owned_Some _ _ (store w) _) (conj Hr (conj Ho Hd)))
    as Hsel.
  destruct (run_updates_history secret_id user run Henc w r Hsel)
    as (Hok & Hlen & r' & Hsel' & Hver & Harch).
  fold out in Hok, Hlen, Hsel', Harch. fold updates in Hver.
  apply select_owned_Some in Hsel' as (Hr' & _ & _).
  pose proof (versions_of_archive_of_run secret_id (Identity.user_id user) run r)
    as Hvs. fold updates in Hvs.
  split; [assumption|]. split; [assumption|].
  exists r'. split; [assumption|]. split; [assumption|].
  split; [assumption|]. split; [assumption|].
  intros Hone Hnil Hall.
  destruct (versions_before_all_changing (Row.version r) updates Hall)
    as [Hseq Hcount].
  assert (Hmap : map VersionRow.version (archived secret_id (store (snd out)))
                 = map Z.of_nat (seq 1 (List.length run))).
  { rewrite Harch, Hnil, app_nil_l, Hvs, Hseq, Hone. unfold updates.
    rewrite length_map, <- seq_shift, map_map.
    apply map_ext. intros k. lia. }
  split; [|split; [|assumption]].
  - rewrite Hver, Hcount, Hone. unfold updates. rewrite length_map. lia.
  - apply (f_equal (@List.length Z)) in Hmap.
    now rewrite !length_map, length_seq in Hmap.
Qed.





End Owner.

(** ** Rotation *)




(** ** The audit emitter *)

Lemma same_db_refl (st : state) : same_db st st.
Proof. now split. Qed.

Lemma blind_ret {A} (a : A) : audit_blind (ret a) (ret a).
Proof. intros st1 st2 H. now split. Qed.

Lemma blind_lift {A} (r : result A) : audit_blind (lift r) (lift r).
Proof. intros st1 st2 H. now split. Qed.

Lemma blind_raise {A} (c : Z) (d : string) : audit_blind (@raise A c d) (raise c d).
Proof. intros st1 st2 H. now split. Qed.

Lemma blind_bind {A B} (m1 m2 : M A) (k1 k2 : A -> M B) :
  audit_blind m1 m2 -> (forall a, audit_blind (k1 a) (k2 a)) ->
  audit_blind (bind m1 k1) (bind m2 k2).
Proof.
  intros Hm Hk st1 st2 Hst. unfold bind.
  destruct (Hm st1 st2 Hst) as [Hres Hdb].
  destruct (m1 st1) as [r1 st1'], (m2 st2) as [r2 st2']. cbn [fst snd] in *.
  subst r2. destruct r1 as [a| |]; [now apply Hk|now split..].
Qed.

(** A statement whose result and effect depend on the database only. *)
Lemma blind_statement {A} (m : M A) (f : tables -> tables -> result A * (tables * tables)) :
  (forall st, m st = (fst (f (committed st) (pending st)),
                      mk_state (fst (snd (f (committed st) (pending st))))
                               (snd (snd (f (committed st) (pending st))))
                               (sink st) (posts st))) ->
  audit_blind m m.
Proof.
  intros Hm st1 st2 [Hc Hp]. rewrite (Hm st1), (Hm st2), Hc, Hp.
  now split.
Qed.

Lemma blind_query {A} (q : tables -> A) : audit_blind (query q) (query q).
Proof.
  apply (blind_statement _ (fun c p => (Ok (q p), (c, p)))).
  now intros [c p s n].
Qed.

Lemma blind_execute (f : tables -> tables) : audit_blind (execute f) (execute f).
Proof. now apply (blind_statement _ (fun c p => (Ok tt, (c, f p)))). Qed.

Lemma blind_commit : audit_blind commit commit.
Proof. now apply (blind_statement _ (fun c p => (Ok tt, (p, p)))). Qed.

Lemma blind_insert_secret now name type enc description tags owner :
  audit_blind (insert_secret now name type enc description tags owner)
              (insert_secret now name type enc description tags owner).
Proof.
  apply (blind_statement _ (fun c p =>
    match secrets p !! secrets_seq p with
    | Some _ => (Raised UniqueViolation, (c, p))
    | None =>
      let row := Row.mk name type enc description (PyStr tags) owner 1 now now None in
      (Ok (secrets_seq p, row),
       (c, mk_tables (<[secrets_seq p := row]> (secrets p)) (secrets_seq p + 1)
             (secret_versions p) (users p)))
    end)).
  intros [c p s n]. unfold insert_secret. cbn [pending committed sink posts].
  now destruct (secrets p !! secrets_seq p).
Qed.

Lemma blind_update_returning updates secret_id uid :
  audit_blind (update_returning updates secret_id uid)
              (update_returning updates secret_id uid).
Proof.
  apply (blind_statement _ (fun c p =>
    match secrets p !! secret_id with
    | Some r =>
      if (Row.owner_id r =? uid)%Z then
        (Ok (Some (apply_updates updates r)),
         (c, mk_tables (<[secret_id := apply_updates updates r]> (secrets p))
               (secrets_seq p) (secret_versions p) (users p)))
      else (Ok None, (c, p))
    | None => (Ok None, (c, p))
    end)).
  intros [c p s n]. unfold update_returning. cbn [pending committed sink posts].
  destruct (secrets p !! secret_id) as [r|]; [|reflexivity].
  now destruct (Row.owner_id r =? uid)%Z.
Qed.

Lemma blind_mark_deleted now secret_id uid :
  audit_blind (mark_deleted now secret_id uid) (mark_deleted now secret_id uid).
Proof.
  apply (blind_statement _ (fun c p =>
    match select_owned secret_id uid p with
    | Some r =>
      (Ok 1%Z,
       (c, mk_tables (<[secret_id := set_deleted_at now r]> (secrets p))
             (secrets_seq p) (secret_versions p) (users p)))
    | None => (Ok 0%Z, (c, p))
    end)).
  intros [c p s n]. unfold mark_deleted. cbn [pending committed sink posts].
  now destruct (select_owned secret_id uid p).
Qed.

Ltac blind_step :=
  first
    [ apply blind_ret | apply blind_lift | apply blind_raise | apply blind_query
    | apply blind_execute | apply blind_commit | apply blind_insert_secret
    | apply blind_update_returning | apply blind_mark_deleted
    | apply blind_bind; [|intros ?]
    | match goal with
      | |- audit_blind (match ?x with _ => _ end) _ => destruct x
      | |- audit_blind (if ?b then _ else _) _ => destruct b
      end ].

Section Audit.

Variable entropy : Type.
Variable fernet_encrypt : entropy -> bytes -> bytes.

Implicit Types (e : env entropy) (user : Identity.t).

Lemma blind_log_audit e1 e2 uid action sid mail :
  audit_blind (log_audit e1 uid action sid mail) (log_audit e2 uid action sid mail).
Proof.
  intros st1 st2 [Hc Hp]. rewrite !log_audit_eq. now repeat split.
Qed.

Lemma blind_run {A} (h1 h2 : M A) (t : tables) (s1 s2 : list AuditEvent) :
  audit_blind h1 h2 -> same_outcome h1 h2 (mk_world t s1) (mk_world t s2).
Proof.
  intros H. unfold same_outcome, run_request. cbn [store audit_sink].
  destruct (H (mk_state t t s1 0) (mk_state t t s2 0) (same_db_refl _))
    as [Hres [Hc _]].
  destruct (h1 _), (h2 _). now cbn in *.
Qed.

Section SameRequest.

Variables e1 e2 : env entropy.
Hypothesis same_now : now e1 = now e2.
Hypothesis same_iv : iv e1 = iv e2.
Hypothesis same_draws : forall k, draws e1 k = draws e2 k.

Lemma blind_create secret user :
  audit_blind (create_secret fernet_encrypt e1 secret user)
              (create_secret fernet_encrypt e2 secret user).
Proof.
  unfold create_secret. rewrite same_now, same_iv.
  repeat (blind_step || apply blind_log_audit).
Qed.

Lemma blind_update secret_id u user :
  audit_blind (update_secret fernet_encrypt e1 secret_id u user)
              (update_secret fernet_encrypt e2 secret_id u user).
Proof.
  unfold update_secret, insert_version. rewrite same_now, same_iv.
  repeat (blind_step || apply blind_log_audit || cbv zeta).
Qed.

Lemma blind_delete secret_id user :
  audit_blind (delete_secret e1 secret_id user) (delete_secret e2 secret_id user).
Proof.
  unfold delete_secret. rewrite same_now.
  repeat (blind_step || apply blind_log_audit).
Qed.

Lemma same_new_password : new_password e1 = new_password e2.
Proof.
  unfold new_password. f_equal. apply map_ext. intros k.
  now rewrite same_draws.
Qed.

Lemma blind_rotate secret_id user :
  audit_blind (rotate_secret fernet_encrypt e1 secret_id user)
              (rotate_secret fernet_encrypt e2 secret_id user).
Proof.
  unfold rotate_secret. rewrite same_new_password. cbv zeta.
  apply blind_bind; [apply blind_update|intros _].
  apply blind_bind; [apply blind_log_audit|intros _]. apply blind_ret.
Qed.

End SameRequest.

(** C9.  Take any two runs of one mutation on the same tables that differ
    only in what the audit service does (for each post: whether the event
    arrives and which exception, if any, the call raises), in the clock
    of the emitter and in what the audit service already holds.  The two
    runs return the same result and commit the same tables; in particular
    every failing delivery gives what a successful one gives. *)
Theorem audit_never_affects_operation
    (n : Z) (i : entropy) (d : nat -> nat) (net1 net2 : nat -> attempt)
    (clk1 clk2 : nat -> Z) (t : tables) (s1 s2 : list AuditEvent)
    (secret : SecretCreate.t) (secret_id : Z) (u : SecretUpdate.t)
    (user : Identity.t) :
  let e1 := mk_env n i net1 clk1 d in
  let e2 := mk_env n i net2 clk2 d in
  let w1 := mk_world t s1 in
  let w2 := mk_world t s2 in
  same_outcome (create_secret fernet_encrypt e1 secret user)
               (create_secret fernet_encrypt e2 secret user) w1 w2
  /\ same_outcome (update_secret fernet_encrypt e1 secret_id u user)
                  (update_secret fernet_encrypt e2 secret_id u user) w1 w2
  /\ same_outcome (delete_secret e1 secret_id user)
                  (delete_secret e2 secret_id user) w1 w2
  /\ same_outcome (rotate_secret fernet_encrypt e1 secret_id user)
                  (rotate_secret fernet_encrypt e2 secret_id user) w1 w2.
Proof.
  cbv zeta. split; [|split; [|split]]; apply blind_run.
  - now apply blind_create.
  - now apply blind_update.
  - now apply blind_delete.
  - now apply blind_rotate.
Qed.

End Audit.

(** ** The statements above on concrete requests *)

(** C1 as stated fails: after a metadata-only update followed by one
    value-changing update of a fresh secret, the version is 2 but the
    archive holds two rows, both with version 1. *)
Lemma metadata_update_archives_too :
  let run := [(Standin.env_at 11, Standin.new_description "rotated weekly");
              (Standin.env_at 12, Standin.new_value "p@ss2")] in
  let out := run_updates Standin.encrypt 1 Standin.bob run Standin.world1 in
  archived 1 (store Standin.world1) = []
  /\ (Row.version <$> secrets (store Standin.world1) !! 1%Z) = Some 1%Z
  /\ count_value_changing (map snd run) = 1%nat
  /\ Forall (fun x => is_ok x = true) (fst out)
  /\ (Row.version <$> secrets (store (snd out)) !! 1%Z) = Some 2%Z
  /\ map VersionRow.version (archived 1 (store (snd out))) = [1%Z; 1%Z]
  /\ ~ NoDup (map VersionRow.version (archived 1 (store (snd out)))).
Proof.
  cbv zeta. repeat split; try (vm_compute; reflexivity).
  - repeat constructor.
  - intros H. apply NoDup_cons in H as [H _]. apply H. vm_compute. now left.
Qed.

Lemma update_version_history_witness :
  let run := [(Standin.env_at 11, Standin.new_value "p@ss2");
              (Standin.env_at 12, Standin.new_value "p@ss3")] in
  let out := run_updates Standin.encrypt 5 Standin.carol run Standin.carol_world in
  Forall (fun x => is_ok x = true) (fst out)
  /\ List.length (fst out) = 2%nat
  /\ exists r',
      secrets (store (snd out)) !! 5%Z = Some r'
      /\ Row.version r' = (1 + Z.of_nat (count_value_changing (map snd run)))%Z
      /\ archived 5 (store (snd out))
         = [] ++ archive_of_run Standin.encrypt 5 3 Standin.carol_row run
      /\ map VersionRow.version
           (archive_of_run Standin.encrypt 5 3 Standin.carol_row run)
         = versions_before 1 (map snd run)
      /\ (1 = 1 -> archived 5 (store Standin.carol_world) = [] ->
          forallb value_changing (map snd run) = true ->
          Row.version r' = (Z.of_nat 2 + 1)%Z
          /\ List.length (archived 5 (store (snd out))) = 2%nat
          /\ map VersionRow.version (archived 5 (store (snd out)))
             = map Z.of_nat (seq 1 2))%Z.
Proof.
  exact (update_version_history unit Standin.encrypt standin_token_ascii
           5 Standin.carol
           [(Standin.env_at 11, Standin.new_value "p@ss2");
            (Standin.env_at 12, Standin.new_value "p@ss3")]
           Standin.carol_world Standin.carol_row eq_refl eq_refl eq_refl eq_refl).
Defined.

Lemma update_only_by_owner_witness :
  run_request (update_secret Standin.encrypt (Standin.env_at 11) 5
                 (Standin.new_value "mine now") Standin.alice) Standin.carol_world
  = (NotFoundError, Standin.carol_world).
Proof.
  apply (proj1 (update_only_by_owner unit Standin.encrypt (Standin.env_at 11) 5
                  (Standin.new_value "mine now") Standin.alice Standin.carol_world)).
  right. exists Standin.carol_row. split; [reflexivity|]. left. discriminate.
Defined.

Lemma get_not_found_iff_witness :
  run_request (get_secret Standin.decrypt (Standin.env_at 11) 5 true Standin.bob)
              Standin.carol_world
  = (HTTPException 404 "Secret not found", Standin.carol_world).
Proof.
  apply (proj1 (get_not_found_iff unit Standin.decrypt (Standin.env_at 11) 5 true
                  Standin.bob Standin.carol_world
                  ltac:(intros r [= <-]; vm_compute; eauto))).
  right. exists Standin.carol_row. split; [reflexivity|].
  right. split; discriminate.
Defined.

Lemma create_forbidden_iff_user_witness :
  exists resp row,
    fst (run_request (create_secret Standin.encrypt (Standin.env_at 10)
                        Standin.db_pass Standin.bob) Standin.empty_world) = Ok resp
    /\ SecretResponse.version resp = 1%Z
    /\ secrets (store Standin.world1) !! SecretResponse.id resp = Some row
    /\ Row.version row = 1%Z
    /\ Row.owner_id row = 2%Z
    /\ Row.deleted_at row = None.
Proof.
  apply (proj1 (proj2 (create_forbidden_iff_user unit Standin.encrypt
                         (Standin.env_at 10) Standin.db_pass Standin.bob
                         Standin.empty_world))).
  - right. reflexivity.
  - apply standin_token_ascii.
  - reflexivity.
  - reflexivity.
Defined.




(** The example scenario of the specification. *)
Example scenario :
  let w1 := Standin.world1 in
  let '(r2, w2) := run_request (update_secret Standin.encrypt (Standin.env_at 11) 1
                                  (Standin.new_value "p@ss2") Standin.bob) w1 in
  let '(masked_view, _) := run_request (get_secret Standin.decrypt (Standin.env_at 12)
                                          1 false Standin.bob) w2 in
  let '(plain_view, _) := run_request (get_secret Standin.decrypt (Standin.env_at 12)
                                         1 true Standin.bob) w2 in
  let '(_, w3) := run_request (delete_secret (Standin.env_at 13) 1 Standin.bob) w2 in
  let '(gone, _) := run_request (get_secret Standin.decrypt (Standin.env_at 14)
                                   1 true Standin.bob) w3 in
  archived 1 (store w1) = []
  /\ Updated.new_version <$> (match r2 with Ok x => Some x | _ => None end) = Some 2%Z
  /\ map (fun v => decrypt_value Standin.decrypt (VersionRow.encrypted_value v))
         (archived 1 (store w2)) = [Ok "p@ss1"]
  /\ SecretDetail.value <$> (match masked_view with Ok x => Some x | _ => None end)
     = Some masked
  /\ SecretDetail.value <$> (match plain_view with Ok x => Some x | _ => None end)
     = Some "p@ss2"
  /\ gone = NotFoundError.
Proof. vm_compute. repeat split. Qed.

(** With the audit service down, an update does what it does with the
    service up. *)
Example update_with_audit_down :
  let up := Standin.env_at 11 in
  let down := mk_env 11 tt (fun _ => Standin.down) (fun _ => 99%Z) (draws up) in
  let u := Standin.new_value "p@ss2" in
  fst (run_request (update_secret Standin.encrypt down 1 u Standin.bob) Standin.world1)
  = fst (run_request (update_secret Standin.encrypt up 1 u Standin.bob) Standin.world1)
  /\ store (snd (run_request (update_secret Standin.encrypt down 1 u Standin.bob)
                             Standin.world1))
     = store (snd (run_request (update_secret Standin.encrypt up 1 u Standin.bob)
                               Standin.world1))
  /\ List.length (audit_sink (snd (run_request
        (update_secret Standin.encrypt down 1 u Standin.bob) Standin.world1))) = 1%nat
  /\ List.length (audit_sink (snd (run_request
        (update_secret Standin.encrypt up 1 u Standin.bob) Standin.world1))) = 2%nat.
Proof. vm_compute. repeat split. Qed.

(** * Further properties of the services *)

(** ** Reading a secret *)

Section Reading.

Variable entropy : Type.
Variable fernet_encrypt : entropy -> bytes -> bytes.
Variable fernet_decrypt : bytes -> option bytes.

Implicit Types (e : env entropy) (st : state) (w : world) (user : Identity.t).

(** What [get_secret] does on a row the caller may see. *)
Lemma get_secret_visible_eq e secret_id show user w row mail :
  visible_row secret_id user (store w) = Some (row, mail) ->
  exists tags,
    parse_tags (Row.tags row) = Ok tags
    /\ run_request (get_secret fernet_decrypt e secret_id show user) w
       = (match (if show then decrypt_value fernet_decrypt (Row.encrypted_value row)
                 else Ok masked) with
          | Ok value =>
            Ok (SecretDetail.mk secret_id (Row.name row) (Row.type row)
                  (Row.description row) tags (Row.owner_id row) (Row.version row)
                  (Row.created_at row) (Row.updated_at row) (Row.deleted_at row)
                  mail value)
          | HTTPException c d => HTTPException c d
          | Raised x => Raised x
          end,
          mk_world (store w) (audit_sink w ++ delivered e 0 user "VIEW" secret_id)).
Proof.
  intros Hv. destruct (parse_tags_ok (Row.tags row)) as [tags Htags].
  exists tags. split; [assumption|].
  unfold run_request, get_secret, bind at 1.
  set (st0 := mk_state (store w) (store w) (audit_sink w) 0).
  assert (Hq : (if String.eqb (Identity.role user) "admin"
                then query (select_any_joined secret_id)
                else query (select_owned_joined secret_id (Identity.user_id user))) st0
               = (Ok (Some (row, mail)), st0)).
  { unfold visible_row in Hv. destruct (String.eqb _ _); unfold query;
      cbn [pending st0]; now rewrite Hv. }
  rewrite Hq. cbv beta iota zeta delta [bind lift ret].
  rewrite log_audit_eq, Htags. unfold delivered. cbn [posts st0 sink committed].
  destruct show.
  - destruct (decrypt_value _ _); destruct (received _);
      rewrite ?app_nil_r; reflexivity.
  - destruct (received _); rewrite ?app_nil_r; reflexivity.
Qed.


(** ** Whole requests, with what they leave at the audit service *)

Lemma sink_delivered e (k : nat) user action secret_id (snk : list AuditEvent) :
  (if received (network e k)
   then snk ++ [mk_event (Identity.user_id user) (Identity.email user) action
                         secret_id (wall_clock e k)]
   else snk)
  = snk ++ delivered e k user action secret_id.
Proof. unfold delivered. destruct (received _); now rewrite ?app_nil_r. Qed.

Lemma update_secret_owned_eq e secret_id u user st r :
  select_owned secret_id (Identity.user_id user) (pending st) = Some r ->
  update_secret fernet_encrypt e secret_id u user st
  = match (if value_changing u
           then encrypt_value fernet_encrypt (iv e) (value_of u)
           else Ok EmptyString) with
    | Ok enc =>
      let t' := tables_after_update (now e) secret_id (Identity.user_id user)
                  r (row_after (now e) u enc r) (pending st) in
      (Ok (Updated.mk "Secret updated successfully"
                      (Row.version (row_after (now e) u enc r))),
       mk_state t' t'
         (sink st ++ delivered e (posts st) user "UPDATE" secret_id)
         (S (posts st)))
    | HTTPException c d =>
      (HTTPException c d,
       mk_state (committed st)
         (archive_row (now e) secret_id (Identity.user_id user) r (pending st))
         (sink st) (posts st))
    | Raised x =>
      (Raised x,
       mk_state (committed st)
         (archive_row (now e) secret_id (Identity.user_id user) r (pending st))
         (sink st) (posts st))
    end.
Proof.
  intros Hsel.
  pose proof (proj1 (select_owned_Some _ _ _ _) Hsel) as (Hr & Ho & Hd).
  unfold update_secret, tables_after_update, archive_row.
  cbv beta iota zeta delta [bind query lift ret execute commit insert_version
                            update_returning].
  rewrite Hsel. cbn [pending secrets committed sink posts].
  destruct u as [[[|c v]|] d tgs];
    cbn [truthy value_changing value_of default SecretUpdate.value
         SecretUpdate.description SecretUpdate.tags].
  all: try (destruct (encrypt_value _ _ _) as [enc| |]; [|reflexivity..]).
  all: destruct d, tgs; cbn [pending secrets committed sink posts];
    rewrite Hr, Ho, Z.eqb_refl, log_audit_eq, sink_delivered; reflexivity.
Qed.

Lemma update_secret_run e secret_id u user w r :
  select_owned secret_id (Identity.user_id user) (store w) = Some r ->
  run_request (update_secret fernet_encrypt e secret_id u user) w
  = match (if value_changing u
           then encrypt_value fernet_encrypt (iv e) (value_of u)
           else Ok EmptyString) with
    | Ok enc =>
      (Ok (Updated.mk "Secret updated successfully"
                      (Row.version (row_after (now e) u enc r))),
       mk_world (tables_after_update (now e) secret_id (Identity.user_id user)
                   r (row_after (now e) u enc r) (store w))
                (audit_sink w ++ delivered e 0 user "UPDATE" secret_id))
    | HTTPException c d => (HTTPException c d, w)
    | Raised x => (Raised x, w)
    end.
Proof.
  intros Hsel. unfold run_request.
  rewrite (update_secret_owned_eq e secret_id u user
             (mk_state (store w) (store w) (audit_sink w) 0) r Hsel).
  destruct (if value_changing u then _ else _); destruct w; reflexivity.
Qed.

Lemma update_secret_run_missing e secret_id u user w :
  select_owned secret_id (Identity.user_id user) (store w) = None ->
  run_request (update_secret fernet_encrypt e secret_id u user) w
  = (NotFoundError, w).
Proof.
  intros Hsel.
  rewrite (run_request_eq _ _ _ _
             (update_secret_missing entropy fernet_encrypt e secret_id u user
                (mk_state (store w) (store w) (audit_sink w) 0) Hsel)).
  now destruct w.
Qed.

Lemma delete_secret_run e secret_id user w r :
  select_owned secret_id (Identity.user_id user) (store w) = Some r ->
  run_request (delete_secret e secret_id user) w
  = (Ok "Secret deleted successfully",
     mk_world (mk_tables (<[secret_id := set_deleted_at (now e) r]> (secrets (store w)))
                 (secrets_seq (store w)) (secret_versions (store w))
                 (users (store w)))
              (audit_sink w ++ delivered e 0 user "DELETE" secret_id)).
Proof.
  intros Hsel. unfold run_request, delete_secret.
  cbv beta iota zeta delta [bind mark_deleted commit ret].
  cbn [pending]. rewrite Hsel. cbn [Z.eqb].
  rewrite log_audit_eq, sink_delivered. reflexivity.
Qed.

Lemma delete_secret_run_missing e secret_id user w :
  select_owned secret_id (Identity.user_id user) (store w) = None ->
  run_request (delete_secret e secret_id user) w = (NotFoundError, w).
Proof.
  intros Hsel.
  rewrite (run_request_eq _ _ _ _
             (delete_secret_missing entropy e secret_id user
                (mk_state (store w) (store w) (audit_sink w) 0) Hsel)).
  now destruct w.
Qed.

Lemma new_password_changing e :
  value_changing (SecretUpdate.mk (Some (new_password e)) None None) = true.
Proof. reflexivity. Qed.

Lemma rotate_secret_run e secret_id user w :
  run_request (rotate_secret fernet_encrypt e secret_id user) w
  = match run_request (update_secret fernet_encrypt e secret_id
                         (SecretUpdate.mk (Some (new_password e)) None None) user) w with
    | (Ok _, w1) =>
      (Ok (Rotated.mk "Secret rotated successfully" (new_password e)),
       mk_world (store w1) (audit_sink w1 ++ delivered e 1 user "ROTATE" secret_id))
    | (HTTPException c d, w1) => (HTTPException c d, w1)
    | (Raised x, w1) => (Raised x, w1)
    end.
Proof.
  destruct (select_owned secret_id (Identity.user_id user) (store w)) as [r|] eqn:Hsel.
  - rewrite (update_secret_run e secret_id _ user w r Hsel).
    unfold run_request. rewrite rotate_secret_eq.
    rewrite (update_secret_owned_eq e secret_id _ user
               (mk_state (store w) (store w) (audit_sink w) 0) r Hsel).
    rewrite new_password_changing.
    destruct (encrypt_value _ _ _); [|destruct w; reflexivity..].
    cbv beta iota zeta. rewrite log_audit_eq, sink_delivered. reflexivity.
  - rewrite (update_secret_run_missing e secret_id _ user w Hsel).
    unfold run_request. rewrite rotate_secret_eq.
    rewrite (update_secret_missing entropy fernet_encrypt e secret_id _ user
               (mk_state (store w) (store w) (audit_sink w) 0) Hsel).
    now destruct w.
Qed.

Lemma create_secret_run e secret user w :
  Identity.role user <> "user" ->
  run_request (create_secret fernet_encrypt e secret user) w
  = match encrypt_value fernet_encrypt (iv e) (SecretCreate.value secret) with
    | Ok enc =>
      let id := secrets_seq (store w) in
      match secrets (store w) !! id with
      | Some _ => (Raised UniqueViolation, w)
      | None =>
        let row := Row.mk (SecretCreate.name secret) (SecretCreate.type secret)
                     enc (SecretCreate.description secret)
                     (PyStr (Json.json_dumps (SecretCreate.tags secret)))
                     (Identity.user_id user) 1 (now e) (now e) None in
        let w' := mk_world
                    (mk_tables (<[id := row]> (secrets (store w))) (id + 1)
                       (secret_versions (store w)) (users (store w)))
                    (audit_sink w ++ delivered e 0 user "CREATE" id) in
        match parse_tags (PyStr (Json.json_dumps (SecretCreate.tags secret))) with
        | Ok tags =>
          (Ok (SecretResponse.mk id (SecretCreate.name secret)
                 (SecretCreate.type secret) (SecretCreate.description secret)
                 tags (now e) (now e) 1 (Identity.email user)), w')
        | HTTPException c d => (HTTPException c d, w')
        | Raised x => (Raised x, w')
        end
      end
    | HTTPException c d => (HTTPException c d, w)
    | Raised x => (Raised x, w)
    end.
Proof.
  intros Hrole. unfold run_request.
  rewrite (create_secret_other entropy fernet_encrypt e secret user _ Hrole).
  destruct (encrypt_value _ _ _); [|destruct w; reflexivity..].
  cbv zeta. cbn [pending sink posts committed].
  destruct (secrets (store w) !! secrets_seq (store w)); [destruct w; reflexivity|].
  rewrite log_audit_eq, sink_delivered. cbn [snd committed sink posts].
  destruct (parse_tags _); reflexivity.
Qed.

Lemma encrypt_value_not_http (i : entropy) (v : string) c d :
  encrypt_value fernet_encrypt i v <> HTTPException c d.
Proof.
  destruct (encrypt_value_cases entropy fernet_encrypt i v)
    as [[x ->] | [-> | ->]];
    discriminate.
Qed.

(** X2.  A mutation that does not succeed changes nothing: the tables and
    what the audit service holds are as before the request, whatever the
    cipher does.  This holds for [create_secret], [update_secret],
    [delete_secret] and [rotate_secret]. *)
Theorem failed_mutation_changes_nothing e secret secret_id u user w :
  (is_ok (fst (run_request (create_secret fernet_encrypt e secret user) w)) = false ->
     snd (run_request (create_secret fernet_encrypt e secret user) w) = w)
  /\ (is_ok (fst (run_request (update_secret fernet_encrypt e secret_id u user) w))
       = false ->
      snd (run_request (update_secret fernet_encrypt e secret_id u user) w) = w)
  /\ (is_ok (fst (run_request (delete_secret e secret_id user) w)) = false ->
      snd (run_request (delete_secret e secret_id user) w) = w)
  /\ (is_ok (fst (run_request (rotate_secret fernet_encrypt e secret_id user) w))
       = false ->
      snd (run_request (rotate_secret fernet_encrypt e secret_id user) w) = w).
Proof.
  assert (Hupd : forall u',
    is_ok (fst (run_request (update_secret fernet_encrypt e secret_id u' user) w))
      = false ->
    snd (run_request (update_secret fernet_encrypt e secret_id u' user) w) = w).
  { intros u'.
    destruct (select_owned secret_id (Identity.user_id user) (store w))
      as [r|] eqn:Hsel.
    - rewrite (update_secret_run e secret_id u' user w r Hsel).
      destruct (if value_changing u' then _ else _); [discriminate|reflexivity..].
    - now rewrite (update_secret_run_missing e secret_id u' user w Hsel). }
  split; [|split; [|split]].
  - destruct (String.eqb_spec (Identity.role user) "user") as [Hrole|Hrole].
    + intros _. unfold run_request.
      rewrite (create_secret_user entropy fernet_encrypt e secret user _ Hrole).
      now destruct w.
    + rewrite (create_secret_run e secret user w Hrole).
      destruct (encrypt_value _ _ _); [|reflexivity..]. cbv zeta.
      destruct (secrets (store w) !! secrets_seq (store w)); [reflexivity|].
      destruct (parse_tags_ok (PyStr (Json.json_dumps (SecretCreate.tags secret))))
        as [tags ->].
      discriminate.
  - apply Hupd.
  - destruct (select_owned secret_id (Identity.user_id user) (store w))
      as [r|] eqn:Hsel.
    + rewrite (delete_secret_run e secret_id user w r Hsel). discriminate.
    + now rewrite (delete_secret_run_missing e secret_id user w Hsel).
  - rewrite rotate_secret_run.
    specialize (Hupd (SecretUpdate.mk (Some (new_password e)) None None)).
    destruct (run_request (update_secret _ _ _ _ _) w) as [[x | c d | x] w1];
      [discriminate|exact (fun _ => Hupd eq_refl)..].
Qed.

(** X3.  A mutation that succeeds posts its audit event: [create_secret]
    one CREATE event for the new id, [update_secret] one UPDATE event,
    [delete_secret] one DELETE event, and [rotate_secret] an UPDATE event
    followed by a ROTATE event; each carries the caller's id and email and
    reaches the audit service when the post is received there. *)
Theorem mutations_post_their_events e secret secret_id u user w :
  (forall resp,
     fst (run_request (create_secret fernet_encrypt e secret user) w) = Ok resp ->
     audit_sink (snd (run_request (create_secret fernet_encrypt e secret user) w))
     = audit_sink w ++ delivered e 0 user "CREATE" (SecretResponse.id resp))
  /\ (is_ok (fst (run_request (update_secret fernet_encrypt e secret_id u user) w))
       = true ->
      audit_sink (snd (run_request (update_secret fernet_encrypt e secret_id u user) w))
      = audit_sink w ++ delivered e 0 user "UPDATE" secret_id)
  /\ (is_ok (fst (run_request (delete_secret e secret_id user) w)) = true ->
      audit_sink (snd (run_request (delete_secret e secret_id user) w))
      = audit_sink w ++ delivered e 0 user "DELETE" secret_id)
  /\ (is_ok (fst (run_request (rotate_secret fernet_encrypt e secret_id user) w))
       = true ->
      audit_sink (snd (run_request (rotate_secret fernet_encrypt e secret_id user) w))
      = audit_sink w ++ delivered e 0 user "UPDATE" secret_id
        ++ delivered e 1 user "ROTATE" secret_id).
Proof.
  assert (Hupd : forall u',
    is_ok (fst (run_request (update_secret fernet_encrypt e secret_id u' user) w))
      = true ->
    audit_sink (snd (run_request (update_secret fernet_encrypt e secret_id u' user) w))
    = audit_sink w ++ delivered e 0 user "UPDATE" secret_id).
  { intros u'.
    destruct (select_owned secret_id (Identity.user_id user) (store w))
      as [r|] eqn:Hsel.
    - rewrite (update_secret_run e secret_id u' user w r Hsel).
      destruct (if value_changing u' then _ else _); [reflexivity|discriminate..].
    - rewrite (update_secret_run_missing e secret_id u' user w Hsel). discriminate. }
  split; [|split; [|split]].
  - intros resp.
    destruct (String.eqb_spec (Identity.role user) "user") as [Hrole|Hrole].
    + unfold run_request.
      rewrite (create_secret_user entropy fernet_encrypt e secret user _ Hrole).
      discriminate.
    + rewrite (create_secret_run e secret user w Hrole).
      destruct (encrypt_value _ _ _); [|discriminate..]. cbv zeta.
      destruct (secrets (store w) !! secrets_seq (store w)); [discriminate|].
      destruct (parse_tags _); [|discriminate..].
      now intros [= <-].
  - apply Hupd.
  - destruct (select_owned secret_id (Identity.user_id user) (store w))
      as [r|] eqn:Hsel.
    + now rewrite (delete_secret_run e secret_id user w r Hsel).
    + rewrite (delete_secret_run_missing e secret_id user w Hsel). discriminate.
  - rewrite rotate_secret_run.
    specialize (Hupd (SecretUpdate.mk (Some (new_password e)) None None)).
    destruct (run_request (update_secret _ _ _ _ _) w) as [[x | c d | x] w1];
      [|discriminate..].
    intros _. cbn [fst snd audit_sink] in *. rewrite (Hupd eq_refl).
    now rewrite <- app_assoc.
Qed.

(** X4.  [update_secret], [delete_secret] and [rotate_secret] on one secret
    touch nothing else: every other row of [secrets] and the archive of
    every other secret are as before, and so are [users] and the sequence
    of the table.  [create_secret] leaves every row that exists, the whole
    archive and [users] as they are. *)
Theorem mutations_are_local e secret secret_id u user w :
  let untouched (w' : world) :=
    (forall id', id' <> secret_id ->
       secrets (store w') !! id' = secrets (store w) !! id'
       /\ archived id' (store w') = archived id' (store w))
    /\ users (store w') = users (store w)
    /\ secrets_seq (store w') = secrets_seq (store w) in
  untouched (snd (run_request (update_secret fernet_encrypt e secret_id u user) w))
  /\ untouched (snd (run_request (delete_secret e secret_id user) w))
  /\ untouched (snd (run_request (rotate_secret fernet_encrypt e secret_id user) w))
  /\ (let w' := snd (run_request (create_secret fernet_encrypt e secret user) w) in
      (forall id', is_Some (secrets (store w) !! id') ->
         secrets (store w') !! id' = secrets (store w) !! id')
      /\ secret_versions (store w') = secret_versions (store w)
      /\ users (store w') = users (store w)).
Proof.
  intros untouched.
  assert (Hsame : untouched w) by (repeat split; reflexivity).
  unfold untouched in *. clear untouched.
  assert (Hupd : forall u',
    let w' := snd (run_request (update_secret fernet_encrypt e secret_id u' user) w) in
    (forall id', id' <> secret_id ->
       secrets (store w') !! id' = secrets (store w) !! id'
       /\ archived id' (store w') = archived id' (store w))
    /\ users (store w') = users (store w)
    /\ secrets_seq (store w') = secrets_seq (store w)).
  { intros u'. cbv zeta.
    destruct (select_owned secret_id (Identity.user_id user) (store w))
      as [r|] eqn:Hsel.
    - rewrite (update_secret_run e secret_id u' user w r Hsel).
      destruct (if value_changing u' then _ else _); [|exact Hsame..].
      cbn [snd store]. split; [|split; reflexivity].
      intros id' Hne. unfold tables_after_update, archived.
      cbn [secrets secret_versions]. split.
      + now rewrite lookup_insert_ne.
      + rewrite List.filter_app. cbn [List.filter VersionRow.secret_id].
        destruct (Z.eqb_spec secret_id id'); [congruence|]. apply app_nil_r.
    - now rewrite (update_secret_run_missing e secret_id u' user w Hsel). }
  cbv zeta in Hupd. split; [apply Hupd|]. split; [|split].
  - destruct (select_owned secret_id (Identity.user_id user) (store w))
      as [r|] eqn:Hsel.
    + rewrite (delete_secret_run e secret_id user w r Hsel).
      cbn [snd store]. split; [|split; reflexivity].
      intros id' Hne. unfold archived. cbn [secrets secret_versions].
      split; [now rewrite lookup_insert_ne|reflexivity].
    + now rewrite (delete_secret_run_missing e secret_id user w Hsel).
  - rewrite rotate_secret_run.
    specialize (Hupd (SecretUpdate.mk (Some (new_password e)) None None)).
    destruct (run_request (update_secret _ _ _ _ _) w) as [[x | c d | x] w1];
      exact Hupd.
  - cbv zeta.
    destruct (String.eqb_spec (Identity.role user) "user") as [Hrole|Hrole].
    + unfold run_request.
      rewrite (create_secret_user entropy fernet_encrypt e secret user _ Hrole).
      now cbn.
    + rewrite (create_secret_run e secret user w Hrole).
      destruct (encrypt_value _ _ _); [|now cbn..]. cbv zeta.
      destruct (secrets (store w) !! secrets_seq (store w)) eqn:Hfresh; [now cbn|].
      destruct (parse_tags _); cbn [snd store secrets secret_versions users];
        (split; [|split; reflexivity]); intros id' [r' Hr'];
        (rewrite lookup_insert_ne; [reflexivity|]); intros <-; congruence.
Qed.

End Reading.

(** ** What is written can be read back *)

Lemma visible_row_owned secret_id user (t : tables) r urow :
  secrets t !! secret_id = Some r ->
  users t !! Row.owner_id r = Some urow ->
  Row.deleted_at r = None ->
  Row.owner_id r = Identity.user_id user ->
  visible_row secret_id user t = Some (r, UserRow.email urow).
Proof.
  intros Hr Hu Hd Ho. unfold visible_row, select_any_joined, select_owned_joined,
    is_live.
  rewrite Hr, Hu, Hd, Ho, Z.eqb_refl. now destruct (String.eqb _ _).
Qed.

Section RoundTrips.

Variable entropy : Type.
Variable fernet_encrypt : entropy -> bytes -> bytes.
Variable fernet_decrypt : bytes -> option bytes.

(** Fernet tokens are URL-safe base64 text. *)
Hypothesis token_ascii :
  forall i data, is_ascii_bytes (fernet_encrypt i data) = true.

(** Decrypting under the key that encrypted gives the data back. *)
Hypothesis decrypt_encrypt :
  forall i data, fernet_decrypt (fernet_encrypt i data) = Some data.

Implicit Types (e : env entropy) (w : world) (user : Identity.t).

Lemma decrypt_value_token (i : entropy) (p : string) :
  utf8_valid (utf8_bytes p) = true ->
  decrypt_value fernet_decrypt
    (string_of_list_byte (fernet_encrypt i (utf8_bytes p))) = Ok p.
Proof.
  intros Hp. unfold decrypt_value.
  rewrite (str_encode_ascii _ (token_ascii i (utf8_bytes p))), decrypt_encrypt.
  now apply decode_encode.
Qed.

(** Reading, with [show_value], a live secret whose ciphertext is the
    token of [p]. *)
Lemma get_secret_reveals e secret_id user w r urow (i : entropy) (p : string) :
  secrets (store w) !! secret_id = Some r ->
  users (store w) !! Row.owner_id r = Some urow ->
  Row.deleted_at r = None ->
  Row.owner_id r = Identity.user_id user ->
  Row.encrypted_value r = string_of_list_byte (fernet_encrypt i (utf8_bytes p)) ->
  utf8_valid (utf8_bytes p) = true ->
  exists detail,
    fst (run_request (get_secret fernet_decrypt e secret_id true user) w) = Ok detail
    /\ SecretDetail.value detail = p
    /\ SecretDetail.version detail = Row.version r
    /\ SecretDetail.name detail = Row.name r
    /\ SecretDetail.description detail = Row.description r
    /\ SecretDetail.owner_email detail = UserRow.email urow.
Proof.
  intros Hr Hu Hd Ho Henc Hp.
  destruct (get_secret_visible_eq entropy fernet_decrypt e secret_id true user w r _
              (visible_row_owned secret_id user (store w) r urow Hr Hu Hd Ho))
    as (tags & _ & ->).
  rewrite Henc, (decrypt_value_token i p Hp). cbn [fst].
  eexists. repeat split; reflexivity.
Qed.

(** X5.  What [create_secret] stores, its creator reads back: after a
    successful creation by a caller who has a row in [users], [get_secret]
    with [show_value] on the returned id answers the value, name and
    description of the request, version 1 and the creator's email. *)
Theorem create_then_get e e' secret user w urow :
  Identity.role user <> "user" ->
  utf8_valid (utf8_bytes (SecretCreate.value secret)) = true ->
  secrets (store w) !! secrets_seq (store w) = None ->
  users (store w) !! Identity.user_id user = Some urow ->
  let out := run_request (create_secret fernet_encrypt e secret user) w in
  exists resp detail,
    fst out = Ok resp
    /\ fst (run_request
             (get_secret fernet_decrypt e' (SecretResponse.id resp) true user)
             (snd out)) = Ok detail
    /\ SecretDetail.value detail = SecretCreate.value secret
    /\ SecretDetail.version detail = 1%Z
    /\ SecretDetail.name detail = SecretCreate.name secret
    /\ SecretDetail.description detail = SecretCreate.description secret
    /\ SecretDetail.owner_email detail = UserRow.email urow.
Proof.
  intros Hrole Hp Hfresh Hu out. subst out.
  rewrite (create_secret_run entropy fernet_encrypt e secret user w Hrole).
  rewrite (encrypt_value_ok entropy fernet_encrypt token_ascii _ _ Hp).
  cbv zeta. rewrite Hfresh.
  destruct (parse_tags_ok (PyStr (Json.json_dumps (SecretCreate.tags secret))))
    as [tags ->].
  cbn [fst snd SecretResponse.id].
  set (row := Row.mk (SecretCreate.name secret) (SecretCreate.type secret)
                (string_of_list_byte
                   (fernet_encrypt (iv e) (utf8_bytes (SecretCreate.value secret))))
                (SecretCreate.description secret)
                (PyStr (Json.json_dumps (SecretCreate.tags secret)))
                (Identity.user_id user) 1 (now e) (now e) None).
  set (w' := mk_world _ _).
  destruct (get_secret_reveals e' (secrets_seq (store w)) user w' row urow (iv e)
              (SecretCreate.value secret))
    as (detail & Hget & Hrest);
    [apply lookup_insert_eq | exact Hu | reflexivity | reflexivity | reflexivity
    | exact Hp |].
  eexists. exists detail. split; [reflexivity|]. cbn [SecretResponse.id].
  split; [exact Hget|]. exact Hrest.
Qed.

(** X6.  What the owner writes with [update_secret], the owner reads back:
    after an update that carries a non-empty value, [get_secret] with
    [show_value] answers that value and the next version, and the version
    returned by the update is that version. *)
Theorem update_then_get e e' secret_id u user w r urow (v : string) :
  secrets (store w) !! secret_id = Some r ->
  Row.owner_id r = Identity.user_id user ->
  Row.deleted_at r = None ->
  users (store w) !! Identity.user_id user = Some urow ->
  SecretUpdate.value u = Some v -> v <> EmptyString ->
  utf8_valid (utf8_bytes v) = true ->
  let out := run_request (update_secret fernet_encrypt e secret_id u user) w in
  exists detail,
    fst out = Ok (Updated.mk "Secret updated successfully" (Row.version r + 1))
    /\ fst (run_request (get_secret fernet_decrypt e' secret_id true user) (snd out))
       = Ok detail
    /\ SecretDetail.value detail = v
    /\ SecretDetail.version detail = (Row.version r + 1)%Z.
Proof.
  intros Hr Ho Hd Hu Hv Hne Hp out. subst out.
  pose proof (proj2 (select_owned_Some _ _ (store w) _) (conj Hr (conj Ho Hd)))
    as Hsel.
  assert (Hvc : value_changing u = true).
  { unfold value_changing. rewrite Hv. now destruct v. }
  assert (Hval : value_of u = v) by (unfold value_of; now rewrite Hv).
  rewrite (update_secret_run entropy fernet_encrypt e secret_id u user w r Hsel).
  rewrite Hvc, Hval, (encrypt_value_ok entropy fernet_encrypt token_ascii _ _ Hp).
  cbn [fst snd].
  set (row := row_after (now e) u _ r).
  set (w' := mk_world _ _).
  assert (Hrow : row = Row.mk (Row.name r) (Row.type r)
                         (string_of_list_byte (fernet_encrypt (iv e) (utf8_bytes v)))
                         (match SecretUpdate.description u with
                          | Some d => Some d | None => Row.description r end)
                         (match SecretUpdate.tags u with
                          | Some l => PyStr (Json.json_dumps (Some l))
                          | None => Row.tags r end)
                         (Row.owner_id r) (Row.version r + 1) (Row.created_at r)
                         (now e) (Row.deleted_at r)).
  { unfold row, row_after. now rewrite Hvc. }
  destruct (get_secret_reveals e' secret_id user w' row urow (iv e) v)
    as (detail & Hget & Hval' & Hver & _);
    [apply lookup_insert_eq | | | | | exact Hp |];
    try (rewrite Hrow; cbn; congruence).
  exists detail. rewrite Hrow in Hver |- *. cbn [Row.version] in *. auto.
Qed.

(** X7.  The value [rotate_secret] returns is the value stored: after a
    rotation by the owner, [get_secret] with [show_value] answers the
    generated value and the next version. *)
Theorem rotate_then_get e e' secret_id user w r urow :
  secrets (store w) !! secret_id = Some r ->
  Row.owner_id r = Identity.user_id user ->
  Row.deleted_at r = None ->
  users (store w) !! Identity.user_id user = Some urow ->
  let out := run_request (rotate_secret fernet_encrypt e secret_id user) w in
  exists rotated detail,
    fst out = Ok rotated
    /\ fst (run_request (get_secret fernet_decrypt e' secret_id true user) (snd out))
       = Ok detail
    /\ SecretDetail.value detail = Rotated.new_value rotated
    /\ SecretDetail.version detail = (Row.version r + 1)%Z.
Proof.
  intros Hr Ho Hd Hu out. subst out.
  pose proof (proj2 (select_owned_Some _ _ (store w) _) (conj Hr (conj Ho Hd)))
    as Hsel.
  rewrite rotate_secret_run.
  rewrite (update_secret_run entropy fernet_encrypt e secret_id _ user w r Hsel).
  rewrite new_password_changing,
    (encrypt_value_ok entropy fernet_encrypt token_ascii _ _
       (ascii_utf8_valid _ (new_password_ascii e))).
  cbn [fst snd store audit_sink Rotated.new_value].
  set (u := SecretUpdate.mk (Some (new_password e)) None None).
  set (row := row_after (now e) u _ r).
  set (w' := mk_world _ _).
  assert (Hrow : row = Row.mk (Row.name r) (Row.type r)
                         (string_of_list_byte
                            (fernet_encrypt (iv e) (utf8_bytes (new_password e))))
                         (Row.description r) (Row.tags r)
                         (Row.owner_id r) (Row.version r + 1) (Row.created_at r)
                         (now e) (Row.deleted_at r)).
  { unfold row, row_after, u. now rewrite new_password_changing. }
  destruct (get_secret_reveals e' secret_id user w' row urow (iv e) (new_password e))
    as (detail & Hget & Hval' & Hver & _);
    [apply lookup_insert_eq | | | | | exact (ascii_utf8_valid _ (new_password_ascii e)) |];
    try (rewrite Hrow; cbn; congruence).
  eexists. exists detail. split; [reflexivity|]. split; [exact Hget|].
  rewrite Hrow in Hver. cbn [Row.version Rotated.new_value] in *. auto.
Qed.

End RoundTrips.

(** ** Listing secrets and versions *)

Lemma for_each_ok {A B} (f : A -> result B) (g : A -> B) (xs : list A) :
  (forall x, f x = Ok (g x)) -> for_each f xs = Ok (map g xs).
Proof.
  intros Hf. induction xs as [|x xs IH]; [reflexivity|].
  cbn [for_each map]. now rewrite Hf, IH.
Qed.

(** In [{"tags": v, **row}] the row's own [tags] wins. *)
Lemma tags_overridden (v : pyval) (row : Z * Row.t * string) :
  dict_display (("tags", v) :: joined_items (fst (fst row)) (snd (fst row)) (snd row))
  = row_dict row.
Proof.
  unfold row_dict, dict_display, joined_items. cbn [fold_left fst snd].
  apply map_eq. intros k.
  repeat match goal with
         | |- context [<[?a := _]> _ !! k] =>
           destruct (decide (a = k)) as [<-|?];
           [rewrite !lookup_insert_eq || (rewrite !lookup_insert_ne by discriminate);
            repeat (rewrite lookup_insert_eq || rewrite lookup_insert_ne by discriminate);
            reflexivity
           |rewrite !(lookup_insert_ne _ a k) by assumption]
         end.
  rewrite ?lookup_insert_ne by assumption. reflexivity.
Qed.

Lemma row_dict_tags (row : Z * Row.t * string) :
  row_dict row !! "tags" = Some (Row.tags (snd (fst row)))
  /\ row_dict row !! "id" = Some (PyInt (fst (fst row)))
  /\ row_dict row !! "version" = Some (PyInt (Row.version (snd (fst row))))
  /\ row_dict row !! "owner_email" = Some (PyStr (snd row)).
Proof.
  unfold row_dict, dict_display, joined_items. cbn [fold_left fst snd].
  repeat split;
    repeat (rewrite lookup_insert_eq || rewrite lookup_insert_ne by discriminate);
    reflexivity.
Qed.

Lemma secrets_join_users_spec (t : tables) id r mail :
  (id, r, mail) ∈ secrets_join_users t
  <-> secrets t !! id = Some r
      /\ exists u, users t !! Row.owner_id r = Some u /\ UserRow.email u = mail.
Proof.
  unfold secrets_join_users. rewrite list_elem_of_omap. split.
  - intros ([id' r'] & Hin%elem_of_map_to_list & Hf). cbn [fst snd] in Hf.
    destruct (users t !! Row.owner_id r') as [u|] eqn:Hu; [|discriminate].
    injection Hf as -> -> <-. eauto.
  - intros (Hr & u & Hu & <-). exists (id, r). split.
    + now apply elem_of_map_to_list.
    + cbn [fst snd]. now rewrite Hu.
Qed.



Section ListingProperties.

Variable order_by_desc : forall A : Type, (A -> Z) -> list A -> list A.

(** The database returns the selected rows, each once, ... *)
Hypothesis order_perm :
  forall A (key : A -> Z) (l : list A), order_by_desc A key l ≡ₚ l.

(** ... with larger keys first. *)
Hypothesis order_sorted :
  forall A (key : A -> Z) (l : list A),
    StronglySorted (fun x y => (key y <= key x)%Z) (order_by_desc A key l).

Implicit Types (w : world) (user : Identity.t).

Lemma list_secrets_run user w :
  run_request (list_secrets order_by_desc user) w
  = (Ok (map row_dict (listed order_by_desc user (store w))), w).
Proof.
  unfold run_request, list_secrets, listed, bind.
  destruct (String.eqb _ _); unfold query, lift; cbn [pending committed sink];
    (rewrite (for_each_ok _ row_dict);
     [now destruct w
     |intros row; destruct (parse_tags_ok (Row.tags (snd (fst row)))) as [v ->];
      now rewrite tags_overridden]).
Qed.

Lemma listed_spec user (t : tables) id r mail :
  (id, r, mail) ∈ listed order_by_desc user t
  <-> secrets t !! id = Some r
      /\ (exists u, users t !! Row.owner_id r = Some u /\ UserRow.email u = mail)
      /\ Row.deleted_at r = None
      /\ (Identity.role user = "admin" \/ Row.owner_id r = Identity.user_id user).
Proof.
  unfold listed, select_all_live, select_owned_live.
  destruct (String.eqb_spec (Identity.role user) "admin") as [Hadm|Hadm];
    rewrite order_perm, list_elem_of_In, filter_In, <- list_elem_of_In,
      secrets_join_users_spec; cbn [fst snd]; unfold is_live.
  - destruct (Row.deleted_at r); intuition congruence.
  - destruct (Row.deleted_at r); destruct (Z.eqb_spec (Row.owner_id r) (Identity.user_id user));
      cbn; intuition congruence.
Qed.



(** X9.  In the dicts [list_secrets] answers, [tags] is the stored column
    as it is: the row's own key overrides the decoded tags in the dict
    display, so what [parse_tags] computes never reaches the answer. *)
Theorem list_secrets_tags_are_stored user w :
  exists dicts,
    fst (run_request (list_secrets order_by_desc user) w) = Ok dicts
    /\ Forall2 (fun (row : Z * Row.t * string) (d : gmap string pyval) =>
                  d !! "tags" = Some (Row.tags (snd (fst row)))
                  /\ d !! "id" = Some (PyInt (fst (fst row))))
               (listed order_by_desc user (store w)) dicts.
Proof.
  rewrite list_secrets_run. eexists. split; [reflexivity|].
  induction (listed order_by_desc user (store w)) as [|row rows IH];
    cbn [map]; constructor; [|exact IH].
  destruct (row_dict_tags row) as (Ht & Hi & _). auto.
Qed.

Lemma select_versions_perm secret_id (t : tables) :
  select_versions order_by_desc secret_id t ≡ₚ archived_with_email secret_id t.
Proof.
  unfold select_versions, archived_with_email, archived. rewrite order_perm.
  induction (secret_versions t) as [|v vs IH]; [reflexivity|].
  cbn [omap list_omap List.filter].
  change (list_omap ?f ?l) with (omap f l) in *.
  destruct (VersionRow.secret_id v =? secret_id)%Z; [|exact IH].
  cbn [omap list_omap]. change (list_omap ?f ?l) with (omap f l) in *.
  destruct (users t !! VersionRow.updated_by v); [|exact IH].
  now rewrite IH.
Qed.

Lemma get_secret_versions_run secret_id user w :
  run_request (get_secret_versions order_by_desc secret_id user) w
  = match select_owned secret_id (Identity.user_id user) (store w) with
    | Some _ => (Ok (select_versions order_by_desc secret_id (store w)), w)
    | None => (NotFoundError, w)
    end.
Proof.
  unfold run_request, get_secret_versions, bind, query. cbn [pending].
  destruct (select_owned _ _ _); destruct w; reflexivity.
Qed.

(** X10.  [get_secret_versions] answers [NotFoundError] unless the secret
    is live and the caller's own, an admin not excepted.  For the owner it
    answers the archived rows of that secret whose writer has a row in
    [users], each once and with the writer's email, highest version first;
    it changes nothing and posts no audit event. *)
Theorem get_secret_versions_rule secret_id user w :
  (not_owned_live secret_id (Identity.user_id user) (store w) ->
     run_request (get_secret_versions order_by_desc secret_id user) w
     = (NotFoundError, w))
  /\ (forall r, secrets (store w) !! secret_id = Some r ->
        Row.owner_id r = Identity.user_id user -> Row.deleted_at r = None ->
        exists versions,
          run_request (get_secret_versions order_by_desc secret_id user) w
          = (Ok versions, w)
          /\ versions ≡ₚ archived_with_email secret_id (store w)
          /\ StronglySorted
               (fun x y : VersionRow.t * string =>
                  (VersionRow.version (fst y) <= VersionRow.version (fst x))%Z)
               versions).
Proof.
  rewrite get_secret_versions_run. split.
  - now intros ->%select_owned_None.
  - intros r Hr Ho Hd.
    rewrite (proj2 (select_owned_Some _ _ (store w) _) (conj Hr (conj Ho Hd))).
    eexists. split; [reflexivity|]. split; [apply select_versions_perm|].
    apply order_sorted.
Qed.

End ListingProperties.

(** ** A deleted secret, an empty value, absent tags *)

Lemma visible_row_deleted secret_id user (t : tables) r :
  secrets t !! secret_id = Some r -> Row.deleted_at r <> None ->
  visible_row secret_id user t = None.
Proof.
  intros Hr Hd. unfold visible_row, select_any_joined, select_owned_joined, is_live.
  rewrite Hr. destruct (Row.deleted_at r); [|congruence].
  destruct (users t !! Row.owner_id r); destruct (String.eqb _ _);
    rewrite ?andb_false_r; reflexivity.
Qed.

Lemma select_owned_deleted secret_id uid (t : tables) r :
  secrets t !! secret_id = Some r -> Row.deleted_at r <> None ->
  select_owned secret_id uid t = None.
Proof.
  intros Hr Hd. apply select_owned_None. right. exists r. auto.
Qed.

Section Gone.

Variable entropy : Type.
Variable fernet_encrypt : entropy -> bytes -> bytes.
Variable fernet_decrypt : bytes -> option bytes.
Variable order_by_desc : forall A : Type, (A -> Z) -> list A -> list A.
Hypothesis order_perm :
  forall A (key : A -> Z) (l : list A), order_by_desc A key l ≡ₚ l.

Implicit Types (e : env entropy) (w : world) (user : Identity.t).

(** X11.  Once its owner has deleted a secret, it is gone for everyone and
    on every path: for any caller, an admin and the owner included,
    [get_secret], [update_secret], [rotate_secret], [delete_secret] and
    [get_secret_versions] answer [NotFoundError], and [list_secrets] does
    not show it; the row itself is still in the table. *)
Theorem deleted_secret_is_hidden e secret_id user w r :
  secrets (store w) !! secret_id = Some r ->
  Row.owner_id r = Identity.user_id user ->
  Row.deleted_at r = None ->
  let w' := snd (run_request (delete_secret e secret_id user) w) in
  is_Some (secrets (store w') !! secret_id)
  /\ forall e' anyone show u,
      fst (run_request (get_secret fernet_decrypt e' secret_id show anyone) w')
      = NotFoundError
      /\ fst (run_request (update_secret fernet_encrypt e' secret_id u anyone) w')
         = NotFoundError
      /\ fst (run_request (rotate_secret fernet_encrypt e' secret_id anyone) w')
         = NotFoundError
      /\ fst (run_request (delete_secret e' secret_id anyone) w') = NotFoundError
      /\ fst (run_request (get_secret_versions order_by_desc secret_id anyone) w')
         = NotFoundError
      /\ forall r' mail,
           (secret_id, r', mail) ∉ listed order_by_desc anyone (store w').
Proof.
  intros Hr Ho Hd w'. subst w'.
  rewrite (delete_secret_run entropy e secret_id user w r
             (proj2 (select_owned_Some _ _ (store w) _) (conj Hr (conj Ho Hd)))).
  cbn [snd]. set (w' := mk_world _ _).
  assert (Hr' : secrets (store w') !! secret_id = Some (set_deleted_at (now e) r))
    by apply lookup_insert_eq.
  assert (Hd' : Row.deleted_at (set_deleted_at (now e) r) <> None) by discriminate.
  split; [eauto|]. intros e' anyone show u.
  pose proof (fun uid => select_owned_deleted secret_id uid (store w') _ Hr' Hd') as Hsel.
  split; [|split; [|split; [|split; [|split]]]].
  - unfold run_request.
    now rewrite (get_secret_hidden entropy fernet_decrypt e' secret_id show anyone
                   (mk_state (store w') (store w') (audit_sink w') 0)
                   (visible_row_deleted secret_id anyone (store w') _ Hr' Hd')).
  - now rewrite (update_secret_run_missing entropy fernet_encrypt e' secret_id u anyone
                   w' (Hsel _)).
  - rewrite rotate_secret_run.
    now rewrite (update_secret_run_missing entropy fernet_encrypt e' secret_id _ anyone
                   w' (Hsel _)).
  - now rewrite (delete_secret_run_missing entropy e' secret_id anyone w' (Hsel _)).
  - rewrite get_secret_versions_run. now rewrite (Hsel _).
  - intros r' mail (Hr'' & _ & Hlive & _)%(listed_spec order_by_desc order_perm).
    rewrite Hr' in Hr''. injection Hr'' as <-. now apply Hd'.
Qed.

(** X12.  An update whose value is the empty string is carried out as an
    update without a value: for the owner it succeeds and answers the
    unchanged version; the stored ciphertext and version stay, while
    [updated_at] is stamped and the current version is archived once
    more.  This holds whatever the cipher does, as it is not called. *)
Theorem empty_value_is_no_value e secret_id description tags user w r :
  secrets (store w) !! secret_id = Some r ->
  Row.owner_id r = Identity.user_id user ->
  Row.deleted_at r = None ->
  let u := SecretUpdate.mk (Some EmptyString) description tags in
  let out := run_request (update_secret fernet_encrypt e secret_id u user) w in
  out = run_request (update_secret fernet_encrypt e secret_id
                       (SecretUpdate.mk None description tags) user) w
  /\ fst out = Ok (Updated.mk "Secret updated successfully" (Row.version r))
  /\ (exists r',
        secrets (store (snd out)) !! secret_id = Some r'
        /\ Row.encrypted_value r' = Row.encrypted_value r
        /\ Row.version r' = Row.version r
        /\ Row.updated_at r' = now e)
  /\ archived secret_id (store (snd out))
     = archived secret_id (store w)
       ++ [VersionRow.mk secret_id (Row.version r) (Row.encrypted_value r)
                         (Identity.user_id user) (now e)].
Proof.
  intros Hr Ho Hd u out. subst out u.
  pose proof (proj2 (select_owned_Some _ _ (store w) _) (conj Hr (conj Ho Hd)))
    as Hsel.
  rewrite !(update_secret_run entropy fernet_encrypt e secret_id _ user w r Hsel).
  cbn [value_changing SecretUpdate.value fst snd store].
  split; [reflexivity|]. split; [reflexivity|]. split.
  - eexists. split; [apply lookup_insert_eq|]. repeat split.
  - apply archived_after_update.
Qed.

End Gone.

(** ** The version history as its owner sees it *)

Lemma Sorted_le_seq (a n : nat) : Sorted Z.le (map Z.of_nat (seq a n)).
Proof.
  revert a. induction n as [|n IH]; intros a; cbn [seq map]; constructor.
  - apply IH.
  - destruct n; cbn [seq map]; constructor. lia.
Qed.

Lemma archive_of_run_writer {entropy} (fernet_encrypt : entropy -> bytes -> bytes)
    secret_id uid (run : list (env entropy * SecretUpdate.t)) :
  forall r,
    Forall (fun v => VersionRow.updated_by v = uid)
           (archive_of_run fernet_encrypt secret_id uid r run).
Proof.
  induction run as [|[e u] run IH]; intros r; cbn [archive_of_run];
    constructor; [reflexivity|apply IH].
Qed.

Lemma omap_join_writer (us : gmap Z UserRow.t) uid urow (vs : list VersionRow.t) :
  us !! uid = Some urow ->
  Forall (fun v => VersionRow.updated_by v = uid) vs ->
  omap (fun v => match us !! VersionRow.updated_by v with
                 | Some u => Some (v, UserRow.email u)
                 | None => None
                 end) vs
  = map (fun v => (v, UserRow.email urow)) vs.
Proof.
  intros Hu. induction 1 as [|v vs Hv _ IH]; [reflexivity|].
  cbn [omap list_omap map]. change (list_omap ?f ?l) with (omap f l).
  now rewrite Hv, Hu, IH.
Qed.

Section History.

Variable entropy : Type.
Variable fernet_encrypt : entropy -> bytes -> bytes.
Variable order_by_desc : forall A : Type, (A -> Z) -> list A -> list A.

Hypothesis token_ascii :
  forall i data, is_ascii_bytes (fernet_encrypt i data) = true.
Hypothesis order_perm :
  forall A (key : A -> Z) (l : list A), order_by_desc A key l ≡ₚ l.
Hypothesis order_sorted :
  forall A (key : A -> Z) (l : list A),
    StronglySorted (fun x y => (key y <= key x)%Z) (order_by_desc A key l).

Implicit Types (e : env entropy) (w : world) (user : Identity.t).

Lemma run_updates_users secret_id user (run : list (env entropy * SecretUpdate.t)) :
  forall w,
    users (store (snd (run_updates fernet_encrypt secret_id user run w)))
    = users (store w).
Proof.
  induction run as [|[e u] run IH]; intros w; [reflexivity|].
  cbn [run_updates].
  destruct (run_request (update_secret fernet_encrypt e secret_id u user) w)
    as [res w1] eqn:Hstep.
  specialize (IH w1). destruct (run_updates _ _ _ _ w1) as [rs w2].
  cbn [snd] in *. rewrite IH.
  destruct (select_owned secret_id (Identity.user_id user) (store w)) as [r|] eqn:Hsel.
  - rewrite (update_secret_run entropy fernet_encrypt e secret_id u user w r Hsel)
      in Hstep.
    destruct (if value_changing u then _ else _); injection Hstep as <- <-;
      reflexivity.
  - rewrite (update_secret_run_missing entropy fernet_encrypt e secret_id u user w Hsel)
      in Hstep.
    now injection Hstep as <- <-.
Qed.

(** X13.  After N value-changing updates by its owner, with values that
    are well-formed text, of a secret that started at version 1 with an
    empty archive, [get_secret_versions] answers exactly N entries, with the
    versions N, N-1, ..., 1 in this order and each with the owner's email as
    the writer. *)
Theorem versions_after_updates secret_id user
    (run : list (env entropy * SecretUpdate.t)) w r urow :
  secrets (store w) !! secret_id = Some r ->
  Row.owner_id r = Identity.user_id user ->
  Row.deleted_at r = None ->
  Row.version r = 1%Z ->
  archived secret_id (store w) = [] ->
  forallb value_changing (map snd run) = true ->
  forallb encodable (map snd run) = true ->
  users (store w) !! Identity.user_id user = Some urow ->
  let w' := snd (run_updates fernet_encrypt secret_id user run w) in
  exists versions,
    fst (run_request (get_secret_versions order_by_desc secret_id user) w')
    = Ok versions
    /\ map (fun x : VersionRow.t * string => VersionRow.version (fst x)) versions
       = reverse (map Z.of_nat (seq 1 (List.length run)))
    /\ Forall (fun x : VersionRow.t * string => snd x = UserRow.email urow) versions.
Proof.
  intros Hr Ho Hd Hone Hnil Hall Henc Hu w'.
  pose proof (proj2 (select_owned_Some _ _ (store w) _) (conj Hr (conj Ho Hd)))
    as Hsel.
  destruct (run_updates_history entropy fernet_encrypt token_ascii secret_id user
              run Henc w r Hsel) as (_ & _ & r' & Hsel' & _ & Harch).
  fold w' in Hsel', Harch. rewrite Hnil, app_nil_l in Harch.
  rewrite get_secret_versions_run, Hsel'. eexists. split; [reflexivity|].
  assert (Hjoin : archived_with_email secret_id (store w')
                  = map (fun v => (v, UserRow.email urow))
                        (archive_of_run fernet_encrypt secret_id
                           (Identity.user_id user) r run)).
  { unfold archived_with_email. rewrite Harch.
    apply (omap_join_writer _ (Identity.user_id user)); [|apply archive_of_run_writer].
    unfold w'. now rewrite run_updates_users. }
  pose proof (select_versions_perm order_by_desc order_perm secret_id (store w'))
    as Hperm.
  rewrite Hjoin in Hperm. split.
  - assert (Htr : Transitive (fun x y : Z => (y <= x)%Z))
      by (intros x y z ? ?; lia).
    assert (Has : AntiSymm (=) (fun x y : Z => (y <= x)%Z))
      by (intros x y ? ?; lia).
    apply (Sorted_unique (fun x y : Z => (y <= x)%Z)).
    + apply StronglySorted_Sorted.
      apply (StronglySorted_fmap
               (fun x : VersionRow.t * string => VersionRow.version (fst x))
               (fun x y => (VersionRow.version (fst y) <= VersionRow.version (fst x))%Z));
        [auto|apply order_sorted].
    + apply (Sorted_reverse Z.le), Sorted_le_seq.
    + rewrite reverse_Permutation.
      change (map ?f ?l) with (f <$> l). rewrite Hperm, <- list_fmap_compose.
      change (?f <$> ?l) with (map f l).
      erewrite map_ext; [|intros v; reflexivity].
      rewrite (versions_of_archive_of_run entropy fernet_encrypt).
      destruct (versions_before_all_changing (Row.version r) (map snd run) Hall)
        as [-> _].
      rewrite Hone, length_map, <- seq_shift, map_map.
      erewrite map_ext; [reflexivity|]. intros k. cbn beta. lia.
  - rewrite Hperm. apply Forall_forall. intros x (v & -> & _)%list_elem_of_fmap.
    reflexivity.
Qed.

End History.

(** ** The bearer token *)

Lemma prefix_split (p s : string) :
  String.prefix p s = true -> exists rest, s = p +:+ rest.
Proof.
  revert s. induction p as [|c p IH]; intros s.
  - exists s. reflexivity.
  - destruct s as [|c' s]; simpl; [discriminate|].
    destruct (ascii_dec c c') as [<-|]; [|discriminate].
    intros Hp. destruct (IH _ Hp) as [rest ->]. exists rest. reflexivity.
Qed.

Lemma prefix_app (p rest : string) : String.prefix p (p +:+ rest) = true.
Proof.
  induction p as [|c p IH]; simpl; [now destruct rest|].
  destruct (ascii_dec c c); [exact IH|congruence].
Qed.

Lemma split_on_cons (sep : ascii) (s : string) :
  exists field fields, split_on sep s = field :: fields.
Proof.
  induction s as [|c s (f & fs & IH)]; cbn [split_on]; [eauto|].
  destruct (Ascii.eqb c sep); [eauto|]. rewrite IH. eauto.
Qed.

(** A text without the separator is one field. *)
Lemma split_on_whole (sep : ascii) (s : string) :
  (forall c, In c (list_ascii_of_string s) -> c <> sep) ->
  split_on sep s = [s].
Proof.
  induction s as [|c s IH]; intros Hno; [reflexivity|].
  cbn [split_on]. destruct (Ascii.eqb_spec c sep) as [->|_].
  - exfalso. apply (Hno sep); [now left|reflexivity].
  - rewrite IH; [reflexivity|]. intros c' Hc'. apply Hno. now right.
Qed.

Section TokenProperties.

Variable payload : Type.
Variable jwt_decode : string -> jwt_outcome payload.

Lemma verify_token_bearer (rest : string) :
  verify_token jwt_decode (Some ("Bearer " +:+ rest))
  = token_answer (jwt_decode (hd EmptyString (split_on " " rest))).
Proof.
  destruct (split_on_cons " " rest) as (f & fs & Hsplit).
  unfold verify_token. rewrite prefix_app. simpl.
  change (EmptyString +:+ rest) with rest. rewrite Hsplit.
  reflexivity.
Qed.

(** X15.  [verify_token] answers 401 "Missing or invalid token" when the
    header is absent, empty or does not start with "Bearer "; otherwise it
    hands to [jwt.decode] what follows "Bearer " up to the next space, and
    answers the payload when that is accepted, 401 when it is expired or
    invalid.  Hence it never fails on the index into the split header, a
    token without a space is verified whole, and a payload is answered only
    for a header that starts with "Bearer " and carries an accepted
    token. *)
Theorem verify_token_rule :
  verify_token jwt_decode None = HTTPException 401 "Missing or invalid token"
  /\ (forall header,
        String.prefix "Bearer " header = false ->
        verify_token jwt_decode (Some header)
        = HTTPException 401 "Missing or invalid token")
  /\ (forall rest,
        verify_token jwt_decode (Some ("Bearer " +:+ rest))
        = token_answer (jwt_decode (hd EmptyString (split_on " " rest))))
  /\ (forall token,
        (forall c, In c (list_ascii_of_string token) -> c <> " "%char) ->
        verify_token jwt_decode (Some ("Bearer " +:+ token))
        = token_answer (jwt_decode token))
  /\ (forall authorization p,
        verify_token jwt_decode authorization = Ok p ->
        exists rest,
          authorization = Some ("Bearer " +:+ rest)
          /\ jwt_decode (hd EmptyString (split_on " " rest)) = Decoded p).
Proof.
  assert (Hno : forall header,
    String.prefix "Bearer " header = false ->
    verify_token jwt_decode (Some header)
    = HTTPException 401 "Missing or invalid token").
  { intros header Hp. unfold verify_token. rewrite Hp.
    destruct header; reflexivity. }
  split; [reflexivity|]. split; [exact Hno|]. split; [apply verify_token_bearer|].
  split.
  - intros token Htoken. rewrite verify_token_bearer.
    now rewrite (split_on_whole _ _ Htoken).
  - intros [header|] p; [|discriminate].
    destruct (String.prefix "Bearer " header) eqn:Hp.
    + destruct (prefix_split _ _ Hp) as [rest ->].
      rewrite verify_token_bearer. intros Hok. exists rest. split; [reflexivity|].
      destruct (jwt_decode _); try discriminate. now injection Hok as ->.
    + now rewrite (Hno _ Hp).
Qed.

End TokenProperties.

(** ** The audit service *)

Lemma matches_filters_spec (action user_email : option string)
    (secret_id : option Z) (row : AuditRow.t) :
  matches_filters action user_email secret_id row = true
  <-> asked_for action user_email secret_id row.
Proof.
  unfold matches_filters, asked_for. rewrite !andb_true_iff.
  assert (Htext : forall (filter : option string) (field : string),
    match filter with
    | Some (String c a) => String.eqb field (String c a)
    | _ => true
    end = true
    <-> (forall a, filter = Some a -> a <> EmptyString -> field = a)).
  { intros [[|c a]|] field.
    - split; [intros _ a' Heq Hne; congruence|reflexivity].
    - rewrite String.eqb_eq. split.
      + intros H a' Heq _. congruence.
      + intros H. apply H; [reflexivity|discriminate].
    - split; [intros _ a' Heq Hne; congruence|reflexivity]. }
  rewrite (Htext action), (Htext user_email).
  assert (Hid : match secret_id with
                | Some 0%Z | None => true
                | Some id => (AuditRow.secret_id row =? id)%Z
                end = true
                <-> (forall i, secret_id = Some i -> i <> 0%Z ->
                       AuditRow.secret_id row = i)).
  { destruct secret_id as [[|i|i]|];
      try (split; [intros _ a' Heq Hne; congruence|reflexivity]);
      rewrite Z.eqb_eq; (split; [intros H i' Heq _; congruence
                                |intros H; apply H; [reflexivity|discriminate]]). }
  rewrite Hid. tauto.
Qed.

Lemma StronglySorted_firstn {A} (R : A -> A -> Prop) (k : nat) (l : list A) :
  StronglySorted R l -> StronglySorted R (firstn k l).
Proof.
  intros H. revert k. induction H as [|x l Hl IH Hx]; intros [|k]; cbn;
    try constructor; [apply IH|].
  rewrite List.Forall_forall in *. intros y Hy. apply Hx.
  rewrite <- (firstn_skipn k l). apply in_or_app. now left.
Qed.

Lemma StronglySorted_firstn_skipn {A} (R : A -> A -> Prop) (k : nat) (l : list A) :
  StronglySorted R l ->
  forall x y, In x (firstn k l) -> In y (skipn k l) -> R x y.
Proof.
  intros H. revert k. induction H as [|x l Hl IH Hx]; intros [|k] a b; cbn;
    try tauto.
  intros [<-|Ha] Hb.
  - rewrite List.Forall_forall in Hx. apply Hx.
    rewrite <- (firstn_skipn k l). apply in_or_app. now right.
  - now apply (IH k).
Qed.

Section AuditProperties.

Variable order_by_desc : forall A : Type, (A -> Z) -> list A -> list A.

Hypothesis order_perm :
  forall A (key : A -> Z) (l : list A), order_by_desc A key l ≡ₚ l.

Hypothesis order_sorted :
  forall A (key : A -> Z) (l : list A),
    StronglySorted (fun x y => (key y <= key x)%Z) (order_by_desc A key l).

(** X16.  [get_audit_logs] with a limit that is not negative answers rows of
    the table that satisfy every filter that is given and neither empty nor
    zero (an empty text or a zero filters nothing), the most recent first, as
    many as the limit allows.  The rows answered and the rows left out are
    together the rows of the table that satisfy the filters, each as often
    as the table has it; rows are left out only when the limit is reached,
    and a row left out is not more recent than any row answered. *)
Theorem get_audit_logs_rule (action user_email : option string)
    (secret_id : option Z) (limit : Z) (s : audit_store) :
  (0 <= limit)%Z ->
  exists rows,
    get_audit_logs order_by_desc action user_email secret_id limit s = Ok rows
    /\ (forall row, In row rows ->
          In row (audit_logs s) /\ asked_for action user_email secret_id row)
    /\ length rows
       = Nat.min (Z.to_nat limit)
           (length (List.filter (matches_filters action user_email secret_id)
                                (audit_logs s)))
    /\ StronglySorted
         (fun x y => (AuditRow.created_at y <= AuditRow.created_at x)%Z) rows
    /\ (forall row newer,
          In row (audit_logs s) -> asked_for action user_email secret_id row ->
          ~ In row rows -> In newer rows ->
          (AuditRow.created_at row <= AuditRow.created_at newer)%Z)
    /\ exists rest,
         rows ++ rest
         ≡ₚ List.filter (matches_filters action user_email secret_id) (audit_logs s)
         /\ (rest = [] \/ length rows = Z.to_nat limit)
         /\ (forall older newer,
               In older rest -> In newer rows ->
               (AuditRow.created_at older <= AuditRow.created_at newer)%Z).
Proof.
  intros Hlimit. unfold get_audit_logs.
  destruct (Z.ltb_spec limit 0) as [|_]; [lia|].
  set (wanted := List.filter _ (audit_logs s)).
  set (sorted := order_by_desc _ AuditRow.created_at wanted).
  assert (Hperm : sorted ≡ₚ wanted) by apply order_perm.
  assert (Hsorted : StronglySorted
            (fun x y => (AuditRow.created_at y <= AuditRow.created_at x)%Z) sorted)
    by apply order_sorted.
  eexists. split; [reflexivity|]. split; [|split; [|split; [|split]]].
  - intros row Hrow.
    assert (Hin : In row wanted).
    { apply (Permutation_in _ Hperm).
      rewrite <- (firstn_skipn (Z.to_nat limit) sorted). apply in_or_app.
      now left. }
    apply filter_In in Hin as [Hin Hmatch]. split; [exact Hin|].
    now apply matches_filters_spec.
  - rewrite length_firstn. now rewrite (Permutation_length Hperm).
  - now apply StronglySorted_firstn.
  - intros row newer Hrow Hasked Hout Hnewer.
    apply (StronglySorted_firstn_skipn _ (Z.to_nat limit) sorted Hsorted);
      [exact Hnewer|].
    assert (Hin : In row sorted).
    { apply (Permutation_in _ (Permutation_sym Hperm)).
      apply filter_In. split; [exact Hrow|]. now apply matches_filters_spec. }
    rewrite <- (firstn_skipn (Z.to_nat limit) sorted) in Hin.
    apply in_app_or in Hin. tauto.
  - exists (skipn (Z.to_nat limit) sorted). split; [|split].
    + now rewrite firstn_skipn.
    + destruct (Nat.le_gt_cases (length sorted) (Z.to_nat limit)) as [Hle|Hgt].
      * left. now apply skipn_all2.
      * right. rewrite length_firstn. lia.
    + intros older newer Holder Hnewer.
      now apply (StronglySorted_firstn_skipn _ (Z.to_nat limit) sorted Hsorted).
Qed.

(** A filter that is empty or zero is no filter, and a negative limit is
    refused. *)
Lemma get_audit_logs_falsy (limit : Z) (s : audit_store) :
  get_audit_logs order_by_desc (Some EmptyString) (Some EmptyString) (Some 0%Z) limit s
  = get_audit_logs order_by_desc None None None limit s.
Proof. reflexivity. Qed.

(** X17.  [create_audit_log] adds one row to the end of [audit_logs] and
    leaves the others as they were; the row has the fields of the request
    and the time of the database, so the [timestamp] of the request is not
    kept anywhere in the table, and the row is the same whether the log file
    could be written or not.  The row is found by [get_audit_logs] under
    the filters taken from the request, when the limit is above the number of
    rows. *)
Theorem recorded_event_is_found (e : audit_env) (log : AuditLogCreate.t)
    (s : audit_store) (limit : Z) :
  (Z.of_nat (length (audit_logs s)) < limit)%Z ->
  let out := create_audit_log e log s in
  let row := AuditRow.mk (AuditLogCreate.user_id log) (AuditLogCreate.user_email log)
               (AuditLogCreate.action log) (AuditLogCreate.secret_id log)
               (AuditLogCreate.ip_address log) (AuditLogCreate.user_agent log)
               (audit_now e) in
  fst out = Ok "Audit log created"
  /\ audit_logs (snd out) = audit_logs s ++ [row]
  /\ (forall stamp writable,
        audit_logs (snd (create_audit_log
          (mk_audit_env (audit_now e) stamp writable)
          (AuditLogCreate.mk (AuditLogCreate.user_id log) (AuditLogCreate.user_email log)
             (AuditLogCreate.action log) (AuditLogCreate.secret_id log) stamp
             (AuditLogCreate.ip_address log) (AuditLogCreate.user_agent log)) s))
        = audit_logs (snd out))
  /\ exists rows,
       get_audit_logs order_by_desc (Some (AuditLogCreate.action log))
         (Some (AuditLogCreate.user_email log)) (Some (AuditLogCreate.secret_id log))
         limit (snd out) = Ok rows
       /\ In row rows.
Proof.
  intros Hlimit out row. subst out. cbn [create_audit_log fst snd audit_logs].
  fold row. repeat split.
  unfold get_audit_logs. destruct (Z.ltb_spec limit 0) as [|_]; [lia|].
  eexists. split; [reflexivity|]. cbn [audit_logs].
  set (wanted := List.filter _ (audit_logs s ++ [row])).
  assert (Hperm := order_perm _ AuditRow.created_at wanted).
  rewrite firstn_all2.
  - apply (Permutation_in _ (Permutation_sym Hperm)). apply filter_In. split.
    + apply in_or_app. right. now left.
    + apply matches_filters_spec. unfold asked_for. subst row.
      cbn [AuditRow.action AuditRow.user_email AuditRow.secret_id].
      repeat split; congruence.
  - rewrite (Permutation_length Hperm). unfold wanted.
    pose proof (List.filter_length_le
      (matches_filters (Some (AuditLogCreate.action log))
         (Some (AuditLogCreate.user_email log))
         (Some (AuditLogCreate.secret_id log))) (audit_logs s ++ [row])) as Hle.
    rewrite length_app in Hle. cbn [length] in Hle. lia.
Qed.

End AuditProperties.

(** ** The authentication service *)

Lemma select_by_email_Some (email : string) (s : auth_store) id a :
  select_by_email email s = Some (id, a) ->
  accounts s !! id = Some a /\ Account.email a = email.
Proof.
  unfold select_by_email. intros [Hin Heq]%find_some.
  apply list_elem_of_In, elem_of_map_to_list in Hin.
  apply String.eqb_eq in Heq. auto.
Qed.

Lemma select_by_email_None (email : string) (s : auth_store) :
  select_by_email email s = None <-> ~ email_taken email s.
Proof.
  unfold select_by_email, email_taken. split.
  - intros Hnone (id & a & Hlook & Heq).
    pose proof (find_none _ _ Hnone (id, a)) as Hf. cbn in Hf.
    rewrite (proj2 (String.eqb_eq _ _) Heq) in Hf.
    enough (true = false) by discriminate. apply Hf.
    now apply list_elem_of_In, elem_of_map_to_list.
  - intros Hfree. destruct (List.find _ _) as [[id a]|] eqn:Hfind; [|reflexivity].
    exfalso. apply Hfree. apply find_some in Hfind as [Hin Heq].
    apply list_elem_of_In, elem_of_map_to_list in Hin.
    apply String.eqb_eq in Heq. eauto.
Qed.

Lemma select_by_email_unique (s : auth_store) id a :
  unique_emails s -> accounts s !! id = Some a ->
  select_by_email (Account.email a) s = Some (id, a).
Proof.
  intros Huniq Hlook.
  destruct (select_by_email (Account.email a) s) as [[id' a']|] eqn:Hsel.
  - apply select_by_email_Some in Hsel as [Hlook' Heq].
    assert (id' = id) as -> by (eapply Huniq; eauto). congruence.
  - apply select_by_email_None in Hsel. exfalso. apply Hsel.
    exists id, a. auto.
Qed.

Lemma unique_emails_insert (s : auth_store) id a seq' :
  unique_emails s ->
  (forall id' a', accounts s !! id' = Some a' -> id' <> id ->
                  Account.email a' <> Account.email a) ->
  unique_emails (mk_auth_store (<[id := a]> (accounts s)) seq').
Proof.
  intros Huniq Hother id1 id2 a1 a2. cbn [accounts].
  destruct (decide (id1 = id)) as [->|H1], (decide (id2 = id)) as [->|H2];
    rewrite ?lookup_insert_eq, ?lookup_insert_ne by congruence; try congruence.
  - intros [= <-] H2' Heq. exfalso. eapply Hother; eauto.
  - intros H1' [= <-] Heq. exfalso. eapply Hother; eauto.
  - apply Huniq.
Qed.

Section AuthProperties.

Variable salt : Type.
Variable bcrypt_hashpw : bytes -> salt -> bytes.
Variable bcrypt_checkpw : bytes -> bytes -> result bool.
Variable jwt_encode : Claims.t -> string.
Variable JWT_EXPIRATION : Z.

Implicit Types (e : auth_env salt) (s : auth_store).

Lemma register_taken e user s :
  email_taken (UserRegister.email user) s ->
  register bcrypt_hashpw jwt_encode JWT_EXPIRATION e user s
  = (HTTPException 400 "Email already registered", s).
Proof.
  intros Htaken. unfold register.
  destruct (select_by_email _ s) eqn:Hsel; [reflexivity|].
  now apply select_by_email_None in Hsel.
Qed.

Lemma register_free e user s :
  ~ email_taken (UserRegister.email user) s ->
  utf8_valid (utf8_bytes (UserRegister.password user)) = true ->
  is_ascii_bytes (bcrypt_hashpw (utf8_bytes (UserRegister.password user)) (gensalt e))
  = true ->
  accounts s !! accounts_seq s = None ->
  let hashed := string_of_list_byte
                  (bcrypt_hashpw (utf8_bytes (UserRegister.password user)) (gensalt e)) in
  let new_user := Account.mk (UserRegister.email user) hashed
                    (UserRegister.full_name user) (UserRegister.role user)
                    (db_now e) None in
  let id := accounts_seq s in
  register bcrypt_hashpw jwt_encode JWT_EXPIRATION e user s
  = (Ok (TokenResponse.mk
           (create_token jwt_encode JWT_EXPIRATION e id (UserRegister.email user)
              (UserRegister.role user))
           "bearer" JWT_EXPIRATION id (UserRegister.email user)
           (UserRegister.role user) (UserRegister.full_name user)),
     mk_auth_store (<[id := new_user]> (accounts s)) (id + 1)).
Proof.
  intros Hfree Hpw Hascii Hfresh. cbv zeta. unfold register.
  rewrite (proj2 (select_by_email_None _ _) Hfree).
  unfold hash_password.
  rewrite (str_encode_ok _ Hpw), (bytes_decode_ascii _ Hascii), Hfresh.
  reflexivity.
Qed.

Lemma register_refused e user s :
  ~ email_taken (UserRegister.email user) s ->
  utf8_valid (utf8_bytes (UserRegister.password user)) = false ->
  register bcrypt_hashpw jwt_encode JWT_EXPIRATION e user s
  = (Raised UnicodeEncodeError, s).
Proof.
  intros Hfree Hpw. unfold register.
  rewrite (proj2 (select_by_email_None _ _) Hfree).
  unfold hash_password. now rewrite (str_encode_bad _ Hpw).
Qed.

Lemma login_found e credentials s id a :
  select_by_email (UserLogin.email credentials) s = Some (id, a) ->
  verify_password bcrypt_checkpw (UserLogin.password credentials)
                  (Account.password_hash a) = Ok true ->
  login bcrypt_checkpw jwt_encode JWT_EXPIRATION e credentials s
  = (Ok (TokenResponse.mk
           (create_token jwt_encode JWT_EXPIRATION e id (Account.email a)
              (Account.role a))
           "bearer" JWT_EXPIRATION id (Account.email a) (Account.role a)
           (Account.full_name a)),
     mk_auth_store (<[id := set_last_login (db_now e) a]> (accounts s))
                   (accounts_seq s)).
Proof.
  intros Hsel Hcheck. unfold login. now rewrite Hsel, Hcheck.
Qed.

(** X18.  [register] refuses an email that some account has with 400 and
    leaves the accounts as they were.  For an email that no account has, a
    password that is well-formed text (one that [password.encode()]
    accepts) and a hash that is ASCII text, as those of bcrypt are, it adds
    one account under the next identifier, with the email, the full name
    and the role of the request as they are (any role, also "admin"), no
    plain password, and answers a token made for that identifier, email and
    role, whose expiry is counted from the first reading of the clock and
    whose issue time is the second; the other accounts stay as they were.
    A password that [password.encode()] refuses is answered with that error
    and no account is made. *)
Theorem register_rule e user s :
  (email_taken (UserRegister.email user) s ->
   register bcrypt_hashpw jwt_encode JWT_EXPIRATION e user s
   = (HTTPException 400 "Email already registered", s))
  /\ (~ email_taken (UserRegister.email user) s ->
      utf8_valid (utf8_bytes (UserRegister.password user)) = true ->
      is_ascii_bytes (bcrypt_hashpw (utf8_bytes (UserRegister.password user))
                                    (gensalt e)) = true ->
      accounts s !! accounts_seq s = None ->
      exists resp a,
        let out := register bcrypt_hashpw jwt_encode JWT_EXPIRATION e user s in
        let id := accounts_seq s in
        out = (Ok resp, mk_auth_store (<[id := a]> (accounts s)) (id + 1))
        /\ Account.email a = UserRegister.email user
        /\ Account.role a = UserRegister.role user
        /\ Account.full_name a = UserRegister.full_name user
        /\ utf8_bytes (Account.password_hash a)
           = bcrypt_hashpw (utf8_bytes (UserRegister.password user)) (gensalt e)
        /\ Account.last_login a = None
        /\ TokenResponse.user_id resp = id
        /\ TokenResponse.email resp = UserRegister.email user
        /\ TokenResponse.role resp = UserRegister.role user
        /\ TokenResponse.access_token resp
           = jwt_encode (Claims.mk id (UserRegister.email user)
                           (UserRegister.role user)
                           (utcnow e 0 + JWT_EXPIRATION) (utcnow e 1))
        /\ (forall id', id' <> id ->
              accounts (snd out) !! id' = accounts s !! id'))
  /\ (~ email_taken (UserRegister.email user) s ->
      utf8_valid (utf8_bytes (UserRegister.password user)) = false ->
      register bcrypt_hashpw jwt_encode JWT_EXPIRATION e user s
      = (Raised UnicodeEncodeError, s)).
Proof.
  split; [apply register_taken|]. split; [|apply register_refused].
  intros Hfree Hpw Hascii Hfresh. eexists _, _. cbv zeta.
  rewrite (register_free e user s Hfree Hpw Hascii Hfresh).
  split; [reflexivity|]. cbn.
  repeat split; try reflexivity.
  - apply list_byte_of_string_of_list_byte.
  - intros id' Hne. now apply lookup_insert_ne.
Qed.


(** X20.  The accounts keep distinct emails: when no two accounts have the
    same email before [register] or [login], none have after. *)
Theorem emails_stay_unique e user credentials s :
  unique_emails s ->
  unique_emails (snd (register bcrypt_hashpw jwt_encode JWT_EXPIRATION e user s))
  /\ unique_emails
       (snd (login bcrypt_checkpw jwt_encode JWT_EXPIRATION e credentials s)).
Proof.
  intros Huniq. split.
  - unfold register.
    destruct (select_by_email _ s) eqn:Hsel; [exact Huniq|].
    destruct (hash_password _ _ _); try exact Huniq.
    destruct (accounts s !! accounts_seq s) eqn:Hfresh; [exact Huniq|].
    cbn [snd]. apply unique_emails_insert; [exact Huniq|].
    intros id' a' Hlook _ Heq. cbn [Account.email] in Heq.
    apply select_by_email_None in Hsel. apply Hsel. exists id', a'. auto.
  - unfold login.
    destruct (select_by_email _ s) as [[id a]|] eqn:Hsel; [|exact Huniq].
    destruct (verify_password _ _ _) as [[|]| |]; try exact Huniq.
    cbn [snd]. apply select_by_email_Some in Hsel as [Hlook Hmail].
    apply unique_emails_insert; [exact Huniq|].
    intros id' a' Hlook' Hne Heq. apply Hne.
    apply (Huniq id' id a' a); auto.
Qed.

(** X21.  Registration followed by login: an account that [register] has
    made is opened by [login] with the same email and password, whatever
    happened to other accounts in between, as long as the account is still
    there and emails are distinct; the answer carries the identifier, email
    and role that [register] answered.  The contract of bcrypt is that a
    password passes the check against its own hash. *)
Theorem register_then_login e e' user s s' resp :
  (forall password sl,
      bcrypt_checkpw password (bcrypt_hashpw password sl) = Ok true) ->
  register bcrypt_hashpw jwt_encode JWT_EXPIRATION e user s = (Ok resp, s') ->
  forall later,
    unique_emails later ->
    accounts later !! TokenResponse.user_id resp
    = accounts s' !! TokenResponse.user_id resp ->
    exists resp',
      fst (login bcrypt_checkpw jwt_encode JWT_EXPIRATION e'
             (UserLogin.mk (UserRegister.email user) (UserRegister.password user))
             later) = Ok resp'
      /\ TokenResponse.user_id resp' = TokenResponse.user_id resp
      /\ TokenResponse.email resp' = TokenResponse.email resp
      /\ TokenResponse.role resp' = TokenResponse.role resp
      /\ TokenResponse.full_name resp' = TokenResponse.full_name resp.
Proof.
  intros Hbcrypt Hreg later Huniq Hstill. revert Hreg. unfold register.
  destruct (select_by_email _ s) eqn:Hsel; [discriminate|].
  unfold hash_password, str_encode.
  destruct (utf8_valid (utf8_bytes (UserRegister.password user))) eqn:Hpw;
    [|discriminate].
  unfold bytes_decode.
  destruct (utf8_valid (bcrypt_hashpw _ _)) eqn:Hvalid; [|discriminate].
  destruct (accounts s !! accounts_seq s) eqn:Hfresh; [discriminate|].
  intros [= <- <-]. cbn [TokenResponse.user_id accounts] in Hstill.
  rewrite lookup_insert_eq in Hstill.
  pose proof (select_by_email_unique later _ _ Huniq Hstill) as Hfound.
  cbn [Account.email] in Hfound.
  eexists.
  rewrite (login_found e'
             (UserLogin.mk (UserRegister.email user) (UserRegister.password user))
             later _ _ Hfound).
  - cbn. repeat split; reflexivity.
  - cbn [UserLogin.password Account.password_hash]. unfold verify_password.
    rewrite (str_encode_ok _ Hpw), (str_encode_decoded _ Hvalid).
    apply Hbcrypt.
Qed.

End AuthProperties.

(** ** From the token to the identity *)

Section TokenChain.

Variable salt : Type.
Variable bcrypt_checkpw : bytes -> bytes -> result bool.
Variable jwt_encode : Claims.t -> string.
Variable JWT_EXPIRATION : Z.

(** [jwt.decode] of the secrets service, under the same [JWT_SECRET] as the
    authentication service: a token that it accepts gives the claims that
    were signed; and a token is one word. *)
Variable jwt_decode : string -> jwt_outcome Claims.t.

Hypothesis decode_signed :
  forall c c', jwt_decode (jwt_encode c) = Decoded c' -> c' = c.

Hypothesis token_one_word :
  forall c ch, In ch (list_ascii_of_string (jwt_encode c)) -> ch <> " "%char.

(** X22.  The token that [login] answers, sent by the web interface as
    "Bearer <token>", reaches [jwt.decode] of the secrets service whole;
    when [verify_token] accepts it, the identity of the request is the
    identifier, email and role of the account that logged in, the expiry of
    the token is [JWT_EXPIRATION] seconds after the first reading of the
    clock in [create_token], and its issue time is the second reading. *)
Theorem login_token_is_the_account (e : auth_env salt) (credentials : UserLogin.t)
    (s : auth_store) (resp : TokenResponse.t) :
  fst (login bcrypt_checkpw jwt_encode JWT_EXPIRATION e credentials s) = Ok resp ->
  let header := Some (bearer (TokenResponse.access_token resp)) in
  verify_token jwt_decode header
  = token_answer (jwt_decode (TokenResponse.access_token resp))
  /\ forall c,
       verify_token jwt_decode header = Ok c ->
       exists a,
         accounts s !! Identity.user_id (identity_of c) = Some a
         /\ Identity.email (identity_of c) = Account.email a
         /\ Identity.role (identity_of c) = Account.role a
         /\ Account.email a = UserLogin.email credentials
         /\ Claims.exp c = (utcnow e 0 + JWT_EXPIRATION)%Z
         /\ Claims.iat c = utcnow e 1.
Proof.
  unfold login.
  destruct (select_by_email _ s) as [[id a]|] eqn:Hsel; [|discriminate].
  destruct (verify_password _ _ _) as [[|]| |]; try discriminate.
  cbn [fst]. intros [= <-]. cbv zeta. cbn [TokenResponse.access_token].
  apply select_by_email_Some in Hsel as [Hlook Hmail].
  unfold bearer, create_token.
  set (c := Claims.mk id (Account.email a) (Account.role a)
              (utcnow e 0 + JWT_EXPIRATION) (utcnow e 1)).
  assert (Hverify : verify_token jwt_decode (Some ("Bearer " +:+ jwt_encode c))
                    = token_answer (jwt_decode (jwt_encode c))).
  { rewrite verify_token_bearer.
    now rewrite (split_on_whole _ _ (token_one_word c)). }
  split; [exact Hverify|]. intros c'. rewrite Hverify.
  destruct (jwt_decode (jwt_encode c)) as [c''| | |] eqn:Hdec; try discriminate.
  cbn [token_answer]. intros [= ->].
  apply decode_signed in Hdec as ->. exists a. cbn. repeat split; auto.
Qed.

End TokenChain.

(** X23.  The check of the authentication service and the check of the
    secrets service agree: [verify_token_endpoint] answers that a token is
    valid, with its payload, exactly when [verify_token] answers that payload
    for the same header, and an error when [verify_token] does, the same one
    but for the text of the 401 for a missing token. *)
Theorem token_checks_agree {payload : Type}
    (jwt_decode : string -> jwt_outcome payload) (authorization : string) :
  verify_token_endpoint jwt_decode authorization
  = match verify_token jwt_decode (Some authorization) with
    | Ok p => Ok (true, p)
    | HTTPException status detail =>
      HTTPException status
        (if String.eqb detail "Missing or invalid token" then "Missing token"
         else detail)
    | Raised x => Raised x
    end.
Proof.
  destruct authorization as [|c0 r]; [reflexivity|].
  destruct (String.prefix "Bearer " (String c0 r)) eqn:Hp.
  - destruct (prefix_split _ _ Hp) as [rest Hrest]. rewrite Hrest.
    rewrite verify_token_bearer.
    destruct (split_on_cons " " rest) as (f & fs & Hsplit).
    unfold verify_token_endpoint. rewrite prefix_app. simpl.
    change (EmptyString +:+ rest) with rest. rewrite Hsplit. cbn [hd].
    destruct (jwt_decode f); reflexivity.
  - unfold verify_token_endpoint, verify_token. rewrite Hp. reflexivity.
Qed.

(** ** The web interface *)

Section Offered.

Variable entropy : Type.
Variable fernet_encrypt : entropy -> bytes -> bytes.

Hypothesis token_ascii :
  forall i data, is_ascii_bytes (fernet_encrypt i data) = true.

(** X24.  For a request whose value is well-formed text, the dashboard
    offers to create a secret only to a role for which [create_secret] of
    the secrets service does create it; the service refuses the role "user"
    only, so for every other role that is neither "admin" nor "developer"
    the page does not offer what the service does. *)
Theorem page_offers_what_service_accepts (e : env entropy) (secret : SecretCreate.t)
    (user : Identity.t) (w : world) :
  secrets (store w) !! secrets_seq (store w) = None ->
  utf8_valid (utf8_bytes (SecretCreate.value secret)) = true ->
  let out := run_request (create_secret fernet_encrypt e secret user) w in
  (can_create (Some (Identity.role user)) = true -> exists resp, fst out = Ok resp)
  /\ (Identity.role user = "user" ->
      can_create (Some (Identity.role user)) = false
      /\ exists detail, fst out = HTTPException 403 detail)
  /\ (Identity.role user <> "user" -> Identity.role user <> "admin" ->
      Identity.role user <> "developer" ->
      can_create (Some (Identity.role user)) = false
      /\ exists resp, fst out = Ok resp).
Proof.
  intros Hfresh Hvalue out.
  assert (Hok : Identity.role user <> "user" -> exists resp, fst out = Ok resp).
  { intros Hrole. subst out.
    rewrite (create_secret_run entropy fernet_encrypt e secret user w Hrole).
    rewrite (encrypt_value_ok entropy fernet_encrypt token_ascii _ _ Hvalue).
    cbv zeta. rewrite Hfresh.
    destruct (parse_tags_ok (PyStr (Json.json_dumps (SecretCreate.tags secret))))
      as [tags Htags].
    cbn [Row.tags] in *. rewrite Htags. eexists. reflexivity. }
  split; [|split].
  - intros Hcan. apply Hok. intros Hrole. rewrite Hrole in Hcan. discriminate.
  - intros Hrole. split; [now rewrite Hrole|]. subst out.
    unfold run_request, create_secret. rewrite Hrole. eexists. reflexivity.
  - intros Huser Hadmin Hdev. split; [|now apply Hok].
    unfold can_create.
    destruct (String.eqb_spec (Identity.role user) "admin"); [contradiction|].
    destruct (String.eqb_spec (Identity.role user) "developer"); [contradiction|].
    reflexivity.
Qed.

End Offered.

Lemma lstrip_step (fwd : bool) (l : list ascii) :
  (lstrip_with fwd l = l /\ starts_space fwd l = false)
  \/ exists p r, p <> [] /\ l = p ++ r /\ lstrip_with fwd l = lstrip_with fwd r.
Proof.
  destruct l as [|c0 r0]; [now left|]. cbn [lstrip_with starts_space].
  destruct (space1 c0); [right; exists [c0], r0; repeat split; congruence|].
  destruct r0 as [|c1 r1]; [now left|].
  destruct (if fwd then space2 c0 c1 else space2 c1 c0);
    [right; exists [c0; c1], r1; repeat split; congruence|].
  destruct r1 as [|c2 r2]; [now left|].
  destruct (if fwd then space3 c0 c1 c2 else space3 c2 c1 c0);
    [right; exists [c0; c1; c2], r2; repeat split; congruence|].
  now left.
Qed.

Lemma lstrip_spec (fwd : bool) (l : list ascii) :
  exists p, l = p ++ lstrip_with fwd l
            /\ starts_space fwd (lstrip_with fwd l) = false.
Proof.
  remember (length l) as n eqn:Hn. assert (Hle : length l <= n) by lia.
  clear Hn. revert l Hle. induction n as [|n IH]; intros l Hle.
  - destruct l; [exists []; now split|cbn in Hle; lia].
  - destruct (lstrip_step fwd l) as [[Heq Hs]|(p & r & Hp & -> & Heq)].
    + exists []. rewrite Heq. now split.
    + destruct (IH r) as (p' & Hr & Hs).
      { rewrite length_app in Hle. destruct p; [congruence|cbn in Hle; lia]. }
      exists (p ++ p'). rewrite Heq. split; [|exact Hs].
      rewrite <- app_assoc. now rewrite <- Hr.
Qed.

Lemma lstrip_fixed (fwd : bool) (l : list ascii) :
  starts_space fwd l = false -> lstrip_with fwd l = l.
Proof.
  destruct l as [|c0 [|c1 [|c2 r2]]]; cbn [lstrip_with starts_space];
    try reflexivity.
  - now intros ->%orb_false_elim%proj1.
  - intros [-> H]%orb_false_elim. rewrite orb_false_r in H. now rewrite H.
  - intros [-> [-> ->]%orb_false_elim]%orb_false_elim. reflexivity.
Qed.

Lemma starts_space_app (fwd : bool) (p q : list ascii) :
  starts_space fwd p = true -> starts_space fwd (p ++ q) = true.
Proof.
  destruct p as [|c0 [|c1 [|c2 r2]]]; cbn [starts_space app]; try discriminate.
  - rewrite orb_false_r. now intros ->.
  - rewrite orb_false_r. intros [->| ->]%orb_true_iff; [reflexivity|].
    now rewrite orb_true_r.
  - auto.
Qed.

(** The bytes [py_strip] keeps: those between the white space at the two
    ends. *)
Lemma py_strip_spec (s : string) :
  let kept := list_ascii_of_string (py_strip s) in
  (exists p q, list_ascii_of_string s = p ++ kept ++ q)
  /\ starts_space true kept = false
  /\ starts_space false (rev kept) = false.
Proof.
  cbv zeta. unfold py_strip. rewrite list_ascii_of_string_of_list_ascii.
  destruct (lstrip_spec true (list_ascii_of_string s)) as (p & Hp & Hsp).
  set (a := lstrip_with true (list_ascii_of_string s)) in *.
  destruct (lstrip_spec false (rev a)) as (q & Hq & Hsq).
  set (b := lstrip_with false (rev a)) in *.
  assert (Ha : a = rev b ++ rev q).
  { rewrite <- rev_app_distr, <- Hq. now rewrite rev_involutive. }
  split; [|split].
  - exists p, (rev q). now rewrite <- Ha.
  - destruct (starts_space true (rev b)) eqn:Hs; [|reflexivity].
    apply (starts_space_app true _ (rev q)) in Hs. congruence.
  - now rewrite rev_involutive.
Qed.

Lemma py_strip_fixed (s : string) :
  starts_space true (list_ascii_of_string s) = false ->
  starts_space false (rev (list_ascii_of_string s)) = false ->
  py_strip s = s.
Proof.
  intros Hl Hr. unfold py_strip.
  rewrite (lstrip_fixed true _ Hl), (lstrip_fixed false _ Hr), rev_involutive.
  apply string_of_list_ascii_of_string.
Qed.

Lemma py_strip_idem (s : string) : py_strip (py_strip s) = py_strip s.
Proof.
  destruct (py_strip_spec s) as (_ & Hl & Hr). now apply py_strip_fixed.
Qed.

Lemma py_strip_space (c : ascii) (s : string) :
  space1 c = true -> py_strip (String c s) = py_strip s.
Proof.
  intros Hc. unfold py_strip. cbn [list_ascii_of_string lstrip_with].
  now rewrite Hc.
Qed.

Lemma split_on_no_sep (sep : ascii) (s field : string) :
  In field (split_on sep s) -> ~ In sep (list_ascii_of_string field).
Proof.
  revert field. induction s as [|c s IH]; intros field; cbn [split_on].
  - intros [<-|[]]. intros [].
  - destruct (Ascii.eqb_spec c sep) as [->|Hc].
    + intros [<-|Hin]; [intros []|now apply IH].
    + destruct (split_on sep s) as [|f fs] eqn:Hsplit.
      * intros [<-|[]]. cbn. intros [?|[]]. congruence.
      * intros [<-|Hin].
        -- cbn. intros [?|Hf]; [congruence|]. apply (IH f); [now left|exact Hf].
        -- apply IH. now right.
Qed.

Lemma split_on_app (sep : ascii) (field rest : string) :
  ~ In sep (list_ascii_of_string field) ->
  split_on sep (field +:+ String sep rest) = field :: split_on sep rest.
Proof.
  induction field as [|c f IH]; intros Hno.
  - change (EmptyString +:+ String sep rest) with (String sep rest).
    cbn [split_on]. now rewrite Ascii.eqb_refl.
  - change (String c f +:+ String sep rest)
      with (String c (f +:+ String sep rest)). cbn [split_on].
    destruct (Ascii.eqb_spec c sep) as [->|_]; [exfalso; apply Hno; now left|].
    rewrite IH; [reflexivity|]. intros Hin. apply Hno. now right.
Qed.

Lemma split_on_concat (tags : list string) (t : string) :
  Forall (fun t => ~ In ","%char (list_ascii_of_string t)) (t :: tags) ->
  split_on "," (String.concat ", " (t :: tags)) = t :: map (String " ") tags.
Proof.
  revert t. induction tags as [|t' tags IH]; intros t Hno.
  - cbn [String.concat map]. apply split_on_whole.
    intros c Hc ->. now apply (Forall_inv Hno).
  - change (String.concat ", " (t :: t' :: tags))
      with (t +:+ String "," (String " " (String.concat ", " (t' :: tags)))).
    rewrite split_on_app by apply (Forall_inv Hno).
    cbn [split_on]. change (Ascii.eqb " " ",") with false. cbv iota.
    rewrite (IH t') by apply (Forall_inv_tail Hno). reflexivity.
Qed.

(** X25.  Every tag the web interface sends is the text between two
    commas of the form field with the white space around it taken off: it
    is not empty, has no white space around it and no comma in it. *)
Theorem form_tags_are_clean (field tag : string) :
  In tag (form_tags field) ->
  clean_tag tag
  /\ exists raw before after,
       In raw (split_on "," field)
       /\ tag = py_strip raw
       /\ list_ascii_of_string raw = before ++ list_ascii_of_string tag ++ after.
Proof.
  unfold form_tags. intros (raw & <- & [Hraw Hkeep]%filter_In)%in_map_iff.
  apply negb_true_iff, String.eqb_neq in Hkeep.
  destruct (py_strip_spec raw) as ((before & after & Hkept) & _).
  split; [split; [exact Hkeep|split; [apply py_strip_idem|]]|].
  - intros Hcomma. apply (split_on_no_sep _ _ _ Hraw).
    rewrite Hkept. apply in_or_app. right. apply in_or_app. now left.
  - exists raw, before, after. auto.
Qed.

(** X26.  A form field that lists tags separated by ", " gives back those
    tags, in order, when each is a tag as [form_tags] gives them; the empty
    field gives no tag. *)
Theorem form_tags_of_listed (tags : list string) :
  Forall clean_tag tags ->
  form_tags (String.concat ", " tags) = tags.
Proof.
  intros Hclean. destruct tags as [|t tags]; [reflexivity|].
  unfold form_tags. rewrite split_on_concat.
  - assert (Hfields : forall raws ts,
      Forall clean_tag ts ->
      Forall2 (fun raw t => py_strip raw = t) raws ts ->
      map py_strip
        (List.filter (fun tag => negb (String.eqb (py_strip tag) EmptyString)) raws)
      = ts).
    { intros raws ts Hts Hraws. induction Hraws as [|raw t0 raws ts Hraw _ IH];
        [reflexivity|].
      cbn [List.filter]. rewrite Hraw.
      destruct (Forall_inv Hts) as (Hne & _).
      apply String.eqb_neq in Hne. rewrite Hne. cbn [negb map].
      rewrite Hraw. f_equal. apply IH. exact (Forall_inv_tail Hts). }
    apply Hfields; [exact Hclean|].
    constructor; [apply (Forall_inv Hclean)|].
    pose proof (Forall_inv_tail Hclean) as Htail. clear -Htail.
    induction Htail as [|t' ts Ht' _ IH]; constructor; [|exact IH].
    rewrite py_strip_space by reflexivity. apply Ht'.
  - eapply List.Forall_impl; [|exact Hclean]. intros t' Ht'. apply Ht'.
Qed.

(** ** The properties on the example scenario *)

Lemma sample_order_perm (A : Type) (key : A -> Z) (l : list A) :
  Sample.order_by_desc A key l ≡ₚ l.
Proof. apply merge_sort_Permutation. Qed.

Lemma sample_order_sorted (A : Type) (key : A -> Z) (l : list A) :
  StronglySorted (fun x y => (key y <= key x)%Z) (Sample.order_by_desc A key l).
Proof.
  unfold Sample.order_by_desc. apply StronglySorted_merge_sort.
  - intros x y z Hxy Hyz. lia.
  - intros x y. lia.
Qed.

Lemma sample_checkpw_hashpw (password : bytes) (sl : unit) :
  Sample.checkpw password (Sample.hashpw password sl) = Ok true.
Proof. unfold Sample.checkpw, Sample.hashpw. now rewrite String.eqb_refl. Qed.

Lemma sample_claims_eqb (c c' : Claims.t) :
  Sample.claims_eqb c c' = true -> c = c'.
Proof.
  destruct c, c'. unfold Sample.claims_eqb. cbn.
  rewrite !andb_true_iff, !Z.eqb_eq, !String.eqb_eq.
  intros [[[[-> ->] ->] ->] ->]. reflexivity.
Qed.

Lemma sample_decode_signed (c c' : Claims.t) :
  Sample.jwt_decode (Sample.jwt_encode c) = Decoded c' -> c' = c.
Proof.
  unfold Sample.jwt_encode.
  destruct (Sample.claims_eqb c Sample.dana_claims) eqn:Hc.
  - apply sample_claims_eqb in Hc as ->. now intros [= <-].
  - discriminate.
Qed.

Lemma no_space_forallb (s : string) :
  forallb (fun c => negb (Ascii.eqb c " ")) (list_ascii_of_string s) = true ->
  forall c, In c (list_ascii_of_string s) -> c <> " "%char.
Proof.
  intros Hall c Hc ->. rewrite forallb_forall in Hall.
  specialize (Hall _ Hc). discriminate.
Qed.

Lemma sample_token_one_word (c : Claims.t) (ch : ascii) :
  In ch (list_ascii_of_string (Sample.jwt_encode c)) -> ch <> " "%char.
Proof.
  apply no_space_forallb. unfold Sample.jwt_encode.
  destruct (Sample.claims_eqb c Sample.dana_claims); reflexivity.
Qed.

Lemma unique_emails_empty (seq' : Z) : unique_emails (mk_auth_store ∅ seq').
Proof. intros id1 id2 a1 a2 H. cbn in H. now rewrite lookup_empty in H. Qed.

Lemma unique_emails_dana : unique_emails Sample.dana_store.
Proof.
  apply unique_emails_insert; [apply unique_emails_empty|].
  intros id' a' H. cbn in H. now rewrite lookup_empty in H.
Qed.

(** A value that is a lone surrogate is refused by [value.encode()], by
    [create_secret] and by [update_secret] alike, and nothing is written. *)
Example lone_surrogate_refused :
  str_encode Sample.lone_surrogate = Raised UnicodeEncodeError
  /\ run_request (create_secret Standin.encrypt (Standin.env_at 10)
                    (SecretCreate.mk "wifi" "password" Sample.lone_surrogate
                                     None None)
                    Standin.bob) Standin.empty_world
     = (Raised UnicodeEncodeError, Standin.empty_world)
  /\ run_request (update_secret Standin.encrypt (Standin.env_at 11) 5
                    (Standin.new_value Sample.lone_surrogate) Standin.carol)
                 Standin.carol_world
     = (Raised UnicodeEncodeError, Standin.carol_world).
Proof. repeat split; vm_compute; reflexivity. Qed.


Lemma failed_mutation_changes_nothing_witness :
  snd (run_request (delete_secret (Standin.env_at 20) 9 Standin.carol)
                   Standin.carol_world)
  = Standin.carol_world.
Proof.
  apply (proj1 (proj2 (proj2 (failed_mutation_changes_nothing unit Standin.encrypt
           (Standin.env_at 20) Standin.db_pass 9 (Standin.new_value "x")
           Standin.carol Standin.carol_world)))).
  reflexivity.
Defined.

Lemma mutations_post_their_events_witness :
  audit_sink (snd (run_request (delete_secret (Standin.env_at 20) 5 Standin.carol)
                               Standin.carol_world))
  = audit_sink Standin.carol_world
    ++ delivered (Standin.env_at 20) 0 Standin.carol "DELETE" 5.
Proof.
  apply (proj1 (proj2 (proj2 (mutations_post_their_events unit Standin.encrypt
           (Standin.env_at 20) Standin.db_pass 5 (Standin.new_value "x")
           Standin.carol Standin.carol_world)))).
  reflexivity.
Defined.

Lemma mutations_are_local_witness :
  let w' := snd (run_request
                   (update_secret Standin.encrypt (Standin.env_at 20) 5
                      (Standin.new_value "x") Standin.carol)
                   Sample.shared_world) in
  secrets (store w') !! 6%Z = Some Sample.bob_secret
  /\ archived 6 (store w') = [Sample.bob_archived]
  /\ secrets (store w') !! 5%Z <> Some Standin.carol_row.
Proof.
  pose proof (mutations_are_local unit Standin.encrypt (Standin.env_at 20)
                Standin.db_pass 5 (Standin.new_value "x") Standin.carol
                Sample.shared_world) as H.
  cbv zeta beta in H. cbv zeta.
  assert (Hne : 6%Z <> 5%Z) by lia.
  destruct (proj1 (proj1 H) 6%Z Hne) as [Hrow Harch].
  rewrite Hrow, Harch. split; [reflexivity|]. split; [reflexivity|].
  vm_compute. discriminate.
Defined.

Lemma create_then_get_witness :
  exists resp detail,
    fst (run_request (create_secret Standin.encrypt (Standin.env_at 10)
                        Standin.db_pass Standin.bob) Standin.empty_world) = Ok resp
    /\ fst (run_request (get_secret Standin.decrypt (Standin.env_at 11)
                           (SecretResponse.id resp) true Standin.bob)
                        Standin.world1) = Ok detail
    /\ SecretDetail.value detail = "p@ss1"
    /\ SecretDetail.version detail = 1%Z
    /\ SecretDetail.name detail = "db-pass"
    /\ SecretDetail.description detail = None
    /\ SecretDetail.owner_email detail = "bob@example.org".
Proof.
  apply (create_then_get unit Standin.encrypt Standin.decrypt
           standin_token_ascii standin_decrypt_encrypt (Standin.env_at 10)
           (Standin.env_at 11) Standin.db_pass Standin.bob Standin.empty_world
           Sample.bob_row); [discriminate|reflexivity..].
Defined.

Lemma update_then_get_witness :
  exists detail,
    fst (run_request (update_secret Standin.encrypt (Standin.env_at 11) 5
                        (Standin.new_value "hunter2") Standin.carol)
                     Standin.carol_world)
    = Ok (Updated.mk "Secret updated successfully" 2)
    /\ fst (run_request (get_secret Standin.decrypt (Standin.env_at 12) 5 true
                           Standin.carol)
              (snd (run_request (update_secret Standin.encrypt (Standin.env_at 11) 5
                                   (Standin.new_value "hunter2") Standin.carol)
                                Standin.carol_world))) = Ok detail
    /\ SecretDetail.value detail = "hunter2"
    /\ SecretDetail.version detail = 2%Z.
Proof.
  apply (update_then_get unit Standin.encrypt Standin.decrypt
           standin_token_ascii standin_decrypt_encrypt (Standin.env_at 11)
           (Standin.env_at 12) 5 (Standin.new_value "hunter2") Standin.carol
           Standin.carol_world Standin.carol_row Sample.carol_user "hunter2");
    [reflexivity..|discriminate|reflexivity].
Defined.

Lemma rotate_then_get_witness :
  exists rotated detail,
    fst (run_request (rotate_secret Standin.encrypt (Standin.env_at 11) 5
                        Standin.carol) Standin.carol_world) = Ok rotated
    /\ fst (run_request (get_secret Standin.decrypt (Standin.env_at 12) 5 true
                           Standin.carol)
              (snd (run_request (rotate_secret Standin.encrypt (Standin.env_at 11) 5
                                   Standin.carol) Standin.carol_world))) = Ok detail
    /\ SecretDetail.value detail = Rotated.new_value rotated
    /\ SecretDetail.version detail = 2%Z.
Proof.
  apply (rotate_then_get unit Standin.encrypt Standin.decrypt
           standin_token_ascii standin_decrypt_encrypt (Standin.env_at 11)
           (Standin.env_at 12) 5 Standin.carol Standin.carol_world
           Standin.carol_row Sample.carol_user); reflexivity.
Defined.


Lemma get_secret_versions_rule_witness :
  exists versions,
    run_request (get_secret_versions Sample.order_by_desc 5 Standin.carol)
                Sample.updated_world
    = (Ok versions, Sample.updated_world)
    /\ versions ≡ₚ archived_with_email 5 (store Sample.updated_world)
    /\ StronglySorted
         (fun x y : VersionRow.t * string =>
            (VersionRow.version (fst y) <= VersionRow.version (fst x))%Z)
         versions
    /\ map (fun x : VersionRow.t * string => VersionRow.version (fst x))
           (archived_with_email 5 (store Sample.updated_world))
       = [1%Z; 2%Z].
Proof.
  destruct (proj2 (get_secret_versions_rule Sample.order_by_desc sample_order_perm
                     sample_order_sorted 5 Standin.carol Sample.updated_world)
              Sample.updated_row eq_refl eq_refl eq_refl)
    as (versions & Hrun & Hperm & Hsorted).
  exists versions. split; [exact Hrun|]. split; [exact Hperm|].
  split; [exact Hsorted|]. reflexivity.
Defined.

Lemma deleted_secret_is_hidden_witness :
  fst (run_request (get_secret Standin.decrypt (Standin.env_at 30) 5 true
                      Standin.alice)
         (snd (run_request (delete_secret (Standin.env_at 20) 5 Standin.carol)
                           Standin.carol_world)))
  = NotFoundError.
Proof.
  apply (proj2 (deleted_secret_is_hidden unit Standin.encrypt Standin.decrypt
                  Sample.order_by_desc sample_order_perm (Standin.env_at 20) 5
                  Standin.carol Standin.carol_world Standin.carol_row
                  eq_refl eq_refl eq_refl)
           (Standin.env_at 30) Standin.alice true (Standin.new_value "x")).
Defined.

Lemma empty_value_is_no_value_witness :
  fst (run_request (update_secret Standin.encrypt (Standin.env_at 11) 5
                      (SecretUpdate.mk (Some EmptyString) None None) Standin.carol)
                   Standin.carol_world)
  = Ok (Updated.mk "Secret updated successfully" 1).
Proof.
  apply (proj1 (proj2 (empty_value_is_no_value unit Standin.encrypt
                         (Standin.env_at 11) 5 None None Standin.carol
                         Standin.carol_world Standin.carol_row
                         eq_refl eq_refl eq_refl))).
Defined.

Lemma versions_after_updates_witness :
  exists versions,
    fst (run_request (get_secret_versions Sample.order_by_desc 5 Standin.carol)
           (snd (run_updates Standin.encrypt 5 Standin.carol Sample.two_updates
                             Standin.carol_world))) = Ok versions
    /\ map (fun x : VersionRow.t * string => VersionRow.version (fst x)) versions
       = [2%Z; 1%Z].
Proof.
  destruct (versions_after_updates unit Standin.encrypt Sample.order_by_desc
              standin_token_ascii sample_order_perm sample_order_sorted 5
              Standin.carol Sample.two_updates Standin.carol_world
              Standin.carol_row Sample.carol_user
              eq_refl eq_refl eq_refl eq_refl eq_refl eq_refl eq_refl eq_refl)
    as (versions & Hrun & Hversions & _).
  exists versions. split; [exact Hrun|exact Hversions].
Defined.

Lemma verify_token_rule_witness :
  verify_token Sample.jwt_decode (Some "Bearer dana.token")
  = token_answer (Sample.jwt_decode "dana.token").
Proof.
  apply (proj1 (proj2 (proj2 (proj2 (verify_token_rule Claims.t Sample.jwt_decode))))
           "dana.token").
  apply no_space_forallb. reflexivity.
Defined.

Lemma get_audit_logs_rule_witness :
  exists rows rest,
    get_audit_logs Sample.order_by_desc (Some "VIEW") None (Some 5%Z) 1
                   Sample.three_logs = Ok rows
    /\ length rows = 1%nat
    /\ rows ++ rest
       ≡ₚ [AuditRow.mk 3 "carol@example.org" "VIEW" 5 None None 7;
           AuditRow.mk 3 "carol@example.org" "VIEW" 5 None None 9]
    /\ (forall older newer, In older rest -> In newer rows ->
          (AuditRow.created_at older <= AuditRow.created_at newer)%Z).
Proof.
  assert (Hlimit : (0 <= 1)%Z) by lia.
  destruct (get_audit_logs_rule Sample.order_by_desc sample_order_perm
              sample_order_sorted (Some "VIEW") None (Some 5%Z) 1 Sample.three_logs
              Hlimit)
    as (rows & Hget & _ & Hlen & _ & _ & rest & Hperm & _ & Holder).
  exists rows, rest. split; [exact Hget|]. split; [exact Hlen|].
  split; [exact Hperm|exact Holder].
Defined.

Lemma recorded_event_is_found_witness :
  audit_logs (snd (create_audit_log (Sample.audit_at 7) Sample.view_by_carol
                                    Sample.no_logs))
  = [AuditRow.mk 3 "carol@example.org" "VIEW" 5 None None 7].
Proof.
  assert (Hlimit : (Z.of_nat (length (audit_logs Sample.no_logs)) < 100)%Z)
    by (cbn; lia).
  apply (proj1 (proj2 (recorded_event_is_found Sample.order_by_desc
                         sample_order_perm (Sample.audit_at 7)
                         Sample.view_by_carol Sample.no_logs 100 Hlimit))).
Defined.

Lemma register_rule_witness :
  exists resp a,
    register Sample.hashpw Sample.jwt_encode 3600 (Sample.auth_at 50) Sample.dana
             Sample.no_accounts
    = (Ok resp, mk_auth_store (<[1%Z := a]> ∅) 2)
    /\ Account.email a = "dana@example.org"
    /\ Account.role a = "developer"
    /\ TokenResponse.user_id resp = 1%Z.
Proof.
  assert (Hfree : ~ email_taken (UserRegister.email Sample.dana) Sample.no_accounts).
  { intros (id & a & Hlook & _). cbn in Hlook. now rewrite lookup_empty in Hlook. }
  destruct (proj1 (proj2 (register_rule unit Sample.hashpw Sample.jwt_encode 3600
                            (Sample.auth_at 50) Sample.dana Sample.no_accounts))
              Hfree eq_refl (standin_token_ascii tt _) eq_refl)
    as (resp & a & Hout & Hmail & Hrole & _ & _ & _ & Hid & _).
  exists resp, a. cbv zeta in Hout. split; [exact Hout|].
  split; [exact Hmail|]. split; [exact Hrole|exact Hid].
Defined.


Lemma emails_stay_unique_witness :
  unique_emails Sample.two_accounts
  /\ (Account.email <$> accounts Sample.two_accounts !! 1%Z)
     = Some "dana@example.org"
  /\ (Account.email <$> accounts Sample.two_accounts !! 2%Z)
     = Some "erin@example.org".
Proof.
  split; [|split; reflexivity].
  apply (proj1 (emails_stay_unique unit Sample.hashpw Sample.checkpw
                  Sample.jwt_encode 3600 (Sample.auth_at 60) Sample.erin
                  Sample.dana_login Sample.dana_store unique_emails_dana)).
Defined.

Lemma register_then_login_witness :
  exists resp,
    fst (login Sample.checkpw Sample.jwt_encode 3600 (Sample.auth_at 100)
           Sample.dana_login Sample.dana_store) = Ok resp
    /\ TokenResponse.user_id resp = 1%Z
    /\ TokenResponse.email resp = "dana@example.org"
    /\ TokenResponse.role resp = "developer"
    /\ TokenResponse.full_name resp = "Dana".
Proof.
  apply (register_then_login unit Sample.hashpw Sample.checkpw Sample.jwt_encode
           3600 (Sample.auth_at 50) (Sample.auth_at 100) Sample.dana
           Sample.no_accounts Sample.dana_store
           (TokenResponse.mk "other.token" "bearer" 3600 1 "dana@example.org"
              "developer" "Dana")
           sample_checkpw_hashpw eq_refl Sample.dana_store unique_emails_dana
           eq_refl).
Defined.

Lemma login_token_is_the_account_witness :
  exists a,
    accounts Sample.dana_store !! 1%Z = Some a
    /\ Account.email a = "dana@example.org"
    /\ Account.role a = "developer".
Proof.
  destruct (proj2 (login_token_is_the_account unit Sample.checkpw Sample.jwt_encode
                     3600 Sample.jwt_decode sample_decode_signed
                     sample_token_one_word (Sample.auth_at 100) Sample.dana_login
                     Sample.dana_store
                     (TokenResponse.mk "dana.token" "bearer" 3600 1
                        "dana@example.org" "developer" "Dana") eq_refl)
              Sample.dana_claims eq_refl)
    as (a & Hlook & Hmail & Hrole & _).
  exists a. split; [exact Hlook|]. split; [now rewrite <- Hmail|now rewrite <- Hrole].
Defined.

Lemma page_offers_what_service_accepts_witness :
  exists resp,
    fst (run_request (create_secret Standin.encrypt (Standin.env_at 10)
                        Standin.db_pass Standin.bob) Standin.empty_world) = Ok resp.
Proof.
  apply (proj1 (page_offers_what_service_accepts unit Standin.encrypt
                  standin_token_ascii (Standin.env_at 10) Standin.db_pass
                  Standin.bob Standin.empty_world eq_refl eq_refl)).
  reflexivity.
Defined.

Lemma form_tags_are_clean_witness : clean_tag "prod".
Proof.
  assert (Hin : In "prod" (form_tags " prod, db ,,")) by (left; reflexivity).
  apply (proj1 (form_tags_are_clean " prod, db ,," "prod" Hin)).
Defined.

Lemma form_tags_of_listed_witness :
  form_tags "prod, db" = ["prod"; "db"].
Proof.
  apply (form_tags_of_listed ["prod"; "db"]).
  repeat constructor; try discriminate; cbn; intuition discriminate.
Defined.
